(** * Gateway service: request handlers and similarity scoring

    A shallow embedding of the Express handlers of [src/index.ts] in its three
    revisions (the four-route file, the seven-route file, and the seven-route
    file with type logging).  JavaScript numbers are binary64 floats, so they
    are Rocq's primitive floats; request bodies are dynamic JavaScript values;
    the provider client is the process-wide [openai] object, whose SDK result
    types are records.  Console output is not part of the modelled state. *)

From Stdlib Require Import List String Ascii Bool ZArith Lia Lra.
From Stdlib Require Import Floats Reals.
Import ListNotations.

Local Open Scope list_scope.
Local Open Scope string_scope.

Set Warnings "-inexact-float,-register-all".

(** ** JavaScript values *)

(** The values a parsed JSON body can hold, and [undefined] for what is absent. *)
Inductive Value : Type :=
| VUndefined
| VNull
| VBool (b : bool)
| VNum (x : float)
| VStr (s : string)
| VArr (items : list Value)
| VObj (fields : list (string * Value)).

(** ToBoolean: [undefined], [null], [false], [0], [-0], [NaN] and the empty
    string are falsy, everything else (arrays and objects too) is truthy. *)
Definition truthy (v : Value) : bool :=
  match v with
  | VUndefined | VNull => false
  | VBool b => b
  | VNum x => negb (PrimFloat.eqb x 0%float || PrimFloat.is_nan x)
  | VStr s => negb (String.eqb s "")
  | VArr _ | VObj _ => true
  end.

(** [Array.isArray]. *)
Definition isArray (v : Value) : bool :=
  match v with VArr _ => true | _ => false end.

(** [req.body]: the fields of the parsed JSON object. *)
Definition ReqBody := list (string * Value).

(** Property read [body.k]; a missing property reads as [undefined]. *)
Fixpoint get (k : string) (body : ReqBody) : Value :=
  match body with
  | [] => VUndefined
  | (k', v) :: rest => if String.eqb k k' then v else get k rest
  end.

(** Destructuring default [{ k = d }]: the default replaces [undefined] only. *)
Definition or_default (d : Value) (v : Value) : Value :=
  match v with VUndefined => d | _ => v end.

(** Array element read [a[i]]: out of range reads as [undefined]. *)
Definition index_value (a : list Value) (i : nat) : Value :=
  nth i a VUndefined.

(** ** The provider client *)

(** What a [throw] can carry: an [Error] instance with its message, or any
    other value. *)
Inductive Thrown : Type :=
| ThrownError (message : string)
| ThrownOther (v : Value).

Record ChatMessageParam := { role : string; content : Value }.

Record ChatParams := {
  chat_model : Value;
  chat_messages : list ChatMessageParam;
  chat_max_tokens : float }.

Record CompletionParams := {
  cp_model : Value;
  cp_prompt : Value;
  cp_max_tokens : Value;
  cp_temperature : float }.

Record EmbeddingParams := {
  ep_model : Value;
  ep_input : Value;
  ep_encoding_format : option Value }.

Record ChatCompletionMessage := { msg_content : option string }.
Record ChatChoice := { choice_message : ChatCompletionMessage }.
Record ChatCompletion := {
  chat_choices : list ChatChoice;
  chat_usage : Value;
  chat_result_model : string }.

Record CompletionChoice := { choice_text : string }.
Record Completion := {
  completion_choices : list CompletionChoice;
  completion_usage : Value;
  completion_model : string }.

Record Model := {
  model_id : string;
  model_created : float;
  model_object : string;
  model_owned_by : string }.
Record ModelsPage := { models_data : list Model }.

Record Embedding := {
  embedding : list float;
  embedding_index : nat;
  embedding_object : string }.
Record CreateEmbeddingResponse := {
  data : list Embedding;
  embeddings_model : string;
  embeddings_object : string;
  embeddings_usage : Value }.

(** The four SDK entry points the handlers use; each call either resolves or
    rejects. *)
Record Provider := {
  chat_completions_create : ChatParams -> Thrown + ChatCompletion;
  completions_create : CompletionParams -> Thrown + Completion;
  models_list : unit -> Thrown + ModelsPage;
  embeddings_create : EmbeddingParams -> Thrown + CreateEmbeddingResponse }.

(** One entry per outbound call, in call order. *)
Inductive ProviderCall : Type :=
| CallChat (p : ChatParams)
| CallCompletion (p : CompletionParams)
| CallModels
| CallEmbeddings (p : EmbeddingParams).

(** ** Handler computations: a call log and exceptions *)

Definition M (A : Type) : Type :=
  list ProviderCall -> (Thrown + A) * list ProviderCall.

Definition ret {A} (a : A) : M A := fun log => (inr a, log).

Definition bind {A B} (m : M A) (k : A -> M B) : M B :=
  fun log =>
    match m log with
    | (inl e, log') => (inl e, log')
    | (inr a, log') => k a log'
    end.

Definition throw {A} (e : Thrown) : M A := fun log => (inl e, log).

(** [await f(p)]: the call is logged, a rejection is thrown at the [await]. *)
Definition await {A} (c : ProviderCall) (outcome : Thrown + A) : M A :=
  fun log => (outcome, (log ++ [c])%list).

(** [try { m } catch (error) { h error }] where the catch block only builds a
    reply. *)
Definition try_catch {A} (m : M A) (h : Thrown -> A) :
  list ProviderCall -> A * list ProviderCall :=
  fun log =>
    match m log with
    | (inl e, log') => (h e, log')
    | (inr a, log') => (a, log')
    end.

Declare Scope handler_scope.
Delimit Scope handler_scope with handler.
Notation "x <- m ;; k" := (bind m (fun x => k))
  (at level 61, m at next level, right associativity) : handler_scope.

(** ** HTTP replies *)

Inductive Body (A : Type) : Type :=
| Payload (a : A)
| ErrorOnly (error : string)
| ErrorDetails (error : string) (details : string).
Arguments Payload {A} a.
Arguments ErrorOnly {A} error.
Arguments ErrorDetails {A} error details.

Record Response (A : Type) := mkResponse { status : Z; body : Body A }.
Arguments mkResponse {A} status body.
Arguments status {A} r.
Arguments body {A} r.

(** [res.json(a)] *)
Definition json {A} (a : A) : Response A := mkResponse 200 (Payload a).

(** [res.status(400).json({ error })] *)
Definition bad_request {A} (error : string) : Response A :=
  mkResponse 400 (ErrorOnly error).

(** [error instanceof Error ? error.message : 'Unknown error'] *)
Definition error_details (error : Thrown) : string :=
  match error with
  | ThrownError message => message
  | ThrownOther _ => "Unknown error"
  end.

(** [res.status(500).json({ error, details })] *)
Definition server_error {A} (error : string) (e : Thrown) : Response A :=
  mkResponse 500 (ErrorDetails error (error_details e)).

(** A handler run from an empty call log: the reply and the calls made. *)
Definition Handler (A : Type) : Type := Response A * list ProviderCall.

Definition serve {A} (h : list ProviderCall -> Response A * list ProviderCall)
  : Handler A := h [].

Definition reply {A} (h : Handler A) : Response A := fst h.
Definition provider_calls {A} (h : Handler A) : list ProviderCall := snd h.

(** ** The similarity calculator

    The handler of /api/embeddings/similarity computes [dotProduct],
    [magnitude1], [magnitude2] and [cosineSimilarity] inline; here they are
    functions of the two vectors. *)

(** [Array.prototype.reduce(callback(acc, cur, idx), init)]. *)
Fixpoint reduce_from {A B} (f : B -> A -> nat -> B) (acc : B) (i : nat)
  (l : list A) : B :=
  match l with
  | [] => acc
  | a :: l' => reduce_from f (f acc a i) (S i) l'
  end.

Definition reduce {A B} (f : B -> A -> nat -> B) (init : B) (l : list A) : B :=
  reduce_from f init 0 l.

(** [embedding2[i]] used as a factor: a read past the end is [undefined], which
    the multiplication coerces to [NaN]. *)
Definition number_at (v : list float) (i : nat) : float := nth i v nan.

Definition dotProduct (embedding1 embedding2 : list float) : float :=
  reduce (fun sum a i => sum + a * number_at embedding2 i)%float 0%float
    embedding1.

Definition magnitude (v : list float) : float :=
  PrimFloat.sqrt (reduce (fun sum a _ => sum + a * a)%float 0%float v).

Definition cosineSimilarity (embedding1 embedding2 : list float) : float :=
  (dotProduct embedding1 embedding2
   / (magnitude embedding1 * magnitude embedding2))%float.

(** ** [Number.prototype.toFixed]

    ECMA-262 on the exact value of the double: a non-finite number prints as
    Number::toString prints it; otherwise the sign is split off, a magnitude
    of at least 10^21 prints as Number::toString prints it, and a smaller one
    prints as the digits of the nearest integer multiple of [10^-f]. *)

Definition digit_char (d : Z) : ascii := ascii_of_nat (48 + Z.to_nat d).

Fixpoint digits_fuel (fuel : nat) (n : Z) (acc : string) : string :=
  match fuel with
  | O => acc
  | S fuel' =>
      let acc' := String (digit_char (n mod 10)) acc in
      if (n <? 10)%Z then acc' else digits_fuel fuel' (n / 10) acc'
  end.

(** The decimal digits of a non-negative integer, ["0"] for zero. *)
Definition decimal_digits (n : Z) : string :=
  digits_fuel (S (Z.to_nat (Z.log2 n))) n "".

Fixpoint zeros (k : nat) : string :=
  match k with O => "" | S k' => String "0" (zeros k') end.

(** The digits of [n] with [f] of them after the point: the string is padded
    with zeros to more than [f] digits, then the point goes before the last
    [f]. *)
Definition fixed_string (f : nat) (n : Z) : string :=
  let m := decimal_digits n in
  match f with
  | O => m
  | _ =>
      let k := String.length m in
      let m := if (k <=? f)%nat then zeros (f + 1 - k) ++ m else m in
      let k := String.length m in
      substring 0 (k - f) m ++ "." ++ substring (k - f) f m
  end.

(** The integer [n] for which [n / 10^f - m * 2^e] is closest to zero, the
    larger one on a tie. *)
Definition scaled_round (f : nat) (m : positive) (e : Z) : Z :=
  let num := (Z.pos m * 10 ^ Z.of_nat f)%Z in
  if (0 <=? e)%Z then (num * 2 ^ e)%Z
  else ((2 * num + 2 ^ (- e)) / (2 * 2 ^ (- e)))%Z.

(** [m * 2^e >= 10^21] *)
Definition at_least_1e21 (m : positive) (e : Z) : bool :=
  if (0 <=? e)%Z then (10 ^ 21 <=? Z.pos m * 2 ^ e)%Z
  else (10 ^ 21 * 2 ^ (- e) <=? Z.pos m)%Z.

(** ** Reply payloads, one per route *)

Record TextReply := {
  response : string;
  usage : Value;
  model : string }.

Record ModelSummary := {
  id : string;
  created : float;
  owned_by : string }.

Record ModelsReply := { models : list ModelSummary }.

Record EmbeddingReply := { reply_embedding : CreateEmbeddingResponse }.

Record BatchItem := {
  index : nat;
  text : Value;
  item_embedding : list float;
  dimensions : nat }.

Record BatchReply := {
  embeddings : list BatchItem;
  batch_usage : Value;
  batch_model : string;
  total_embeddings : nat }.

Record EmbeddingInfo := {
  info_embedding : list float;
  info_dimensions : nat }.

Record SimilarityEmbeddings := {
  of_text1 : EmbeddingInfo;
  of_text2 : EmbeddingInfo }.

Record SimilarityReply := {
  text1 : Value;
  text2 : Value;
  cosine_similarity : float;
  similarity_percentage : string;
  similarity_embeddings : SimilarityEmbeddings;
  similarity_usage : Value;
  similarity_model : string }.

(** [Array.prototype.map(callback(item, index))]. *)
Fixpoint map_from {A B} (f : A -> nat -> B) (i : nat) (l : list A) : list B :=
  match l with
  | [] => []
  | a :: l' => f a i :: map_from f (S i) l'
  end.

Definition map_indexed {A B} (f : A -> nat -> B) (l : list A) : list B :=
  map_from f 0 l.

(** The elements of a value already known to be an array. *)
Definition elements (v : Value) : list Value :=
  match v with VArr items => items | _ => [] end.

(** The TypeError raised by reading [.embedding] of [undefined] (the message
    is V8's). *)
Definition undefined_embedding : Thrown :=
  ThrownError "Cannot read properties of undefined (reading 'embedding')".

(** [item.embedding] on an array element that may be [undefined]. *)
Definition embedding_of (item : option Embedding) : M (list float) :=
  match item with
  | Some e => ret (embedding e)
  | None => throw undefined_embedding
  end.

Section Gateway.

(** Platform functions the handlers call whose results no property below
    depends on: [String.prototype.trim], and [Number::toString], which toFixed
    falls back to for finite magnitudes of at least 10^21. *)
Variable String_trim : string -> string.
Variable Number_toString : float -> string.

(** [const openai = new OpenAI(...)] *)
Variable openai : Provider.

(** [x.toFixed(f)] (ECMA-262, Number.prototype.toFixed). *)
Definition toFixed (f : nat) (x : float) : string :=
  match Prim2SF x with
  | S754_nan => "NaN"
  | S754_infinity s => if s then "-Infinity" else "Infinity"
  | S754_zero _ => fixed_string f 0
  | S754_finite s m e =>
      (if s then "-" else "")
      ++ (if at_least_1e21 m e then Number_toString (PrimFloat.abs x)
          else fixed_string f (scaled_round f m e))
  end.

(** [a || fallback] on a string that may be [null] or [undefined]. *)
Definition or_else (fallback : string) (a : option string) : string :=
  match a with
  | Some s => if String.eqb s "" then fallback else s
  | None => fallback
  end.

(** [app.post('/api/chat', ...)] *)
Definition post_api_chat (req_body : ReqBody) : Handler TextReply :=
  serve (try_catch
    (let message := get "message" req_body in
     let model := or_default (VStr "gpt-3.5-turbo") (get "model" req_body) in
     if negb (truthy message) then ret (bad_request "Message is required")
     else
       let params :=
         {| chat_model := model;
            chat_messages := [ {| role := "user"; content := message |} ];
            chat_max_tokens := 500 |} in
       completion <- await (CallChat params)
                       (chat_completions_create openai params) ;;
       ret (json
         {| response :=
              or_else "No response generated"
                match chat_choices completion with
                | [] => None
                | c :: _ => msg_content (choice_message c)
                end;
            usage := chat_usage completion;
            model := chat_result_model completion |}))%handler
    (server_error "Failed to get response from OpenAI")).

(** [app.post('/api/completion', ...)] *)
Definition post_api_completion (req_body : ReqBody) : Handler TextReply :=
  serve (try_catch
    (let prompt := get "prompt" req_body in
     let model :=
       or_default (VStr "gpt-3.5-turbo-instruct") (get "model" req_body) in
     let max_tokens := or_default (VNum 100) (get "max_tokens" req_body) in
     if negb (truthy prompt) then ret (bad_request "Prompt is required")
     else
       let params :=
         {| cp_model := model;
            cp_prompt := prompt;
            cp_max_tokens := max_tokens;
            cp_temperature := 0.7 |} in
       completion <- await (CallCompletion params)
                       (completions_create openai params) ;;
       ret (json
         {| response :=
              or_else "No response generated"
                match completion_choices completion with
                | [] => None
                | c :: _ => Some (String_trim (choice_text c))
                end;
            usage := completion_usage completion;
            model := completion_model completion |}))%handler
    (server_error "Failed to get completion from OpenAI")).

(** [app.get('/api/models', ...)] *)
Definition get_api_models : Handler ModelsReply :=
  serve (try_catch
    (page <- await CallModels (models_list openai tt) ;;
     ret (json
       {| models :=
            map (fun model =>
                   {| id := model_id model;
                      created := model_created model;
                      owned_by := model_owned_by model |})
                (models_data page) |}))%handler
    (server_error "Failed to fetch models from OpenAI")).

(** [app.post('/api/embedding', ...)] of the seven-route revision: [text] is
    validated. *)
Definition post_api_embedding (req_body : ReqBody) : Handler EmbeddingReply :=
  serve (try_catch
    (let text := get "text" req_body in
     let model :=
       or_default (VStr "text-embedding-ada-002") (get "model" req_body) in
     if negb (truthy text) then ret (bad_request "Text is required")
     else
       let params :=
         {| ep_model := model; ep_input := text;
            ep_encoding_format := None |} in
       embedding <- await (CallEmbeddings params)
                      (embeddings_create openai params) ;;
       ret (json {| reply_embedding := embedding |}))%handler
    (server_error "Failed to get embedding from OpenAI")).

(** [app.post('/api/embedding', ...)] of the logging revision: no validation,
    and [encoding_format] is forwarded. *)
Definition post_api_embedding_logged (req_body : ReqBody)
  : Handler EmbeddingReply :=
  serve (try_catch
    (let text := get "text" req_body in
     let model :=
       or_default (VStr "text-embedding-ada-002") (get "model" req_body) in
     let encoding_format :=
       or_default (VStr "float") (get "encoding_format" req_body) in
     let params :=
       {| ep_model := model; ep_input := text;
          ep_encoding_format := Some encoding_format |} in
     embedding <- await (CallEmbeddings params)
                    (embeddings_create openai params) ;;
     ret (json {| reply_embedding := embedding |}))%handler
    (server_error "Failed to get embedding from OpenAI")).

(** [app.post('/api/embeddings/batch', ...)] *)
Definition post_api_embeddings_batch (req_body : ReqBody)
  : Handler BatchReply :=
  serve (try_catch
    (let texts := get "texts" req_body in
     let model :=
       or_default (VStr "text-embedding-ada-002") (get "model" req_body) in
     if negb (truthy texts) || negb (isArray texts)
        || (List.length (elements texts) =? 0)%nat
     then ret (bad_request "Texts array is required and must not be empty")
     else if (2048 <? List.length (elements texts))%nat
     then ret (bad_request "Maximum 2048 texts allowed per batch")
     else
       let params :=
         {| ep_model := model; ep_input := texts;
            ep_encoding_format := None |} in
       embeddings <- await (CallEmbeddings params)
                       (embeddings_create openai params) ;;
       ret (json
         {| embeddings :=
              map_indexed
                (fun item index =>
                   {| index := index;
                      text := index_value (elements texts) index;
                      item_embedding := embedding item;
                      dimensions := List.length (embedding item) |})
                (data embeddings);
            batch_usage := embeddings_usage embeddings;
            batch_model := embeddings_model embeddings;
            total_embeddings := List.length (data embeddings) |}))%handler
    (server_error "Failed to get batch embeddings from OpenAI")).

(** [app.post('/api/embeddings/similarity', ...)] *)
Definition post_api_embeddings_similarity (req_body : ReqBody)
  : Handler SimilarityReply :=
  serve (try_catch
    (let text1 := get "text1" req_body in
     let text2 := get "text2" req_body in
     let model :=
       or_default (VStr "text-embedding-ada-002") (get "model" req_body) in
     if negb (truthy text1) || negb (truthy text2)
     then ret (bad_request "Both text1 and text2 are required")
     else
       let params :=
         {| ep_model := model; ep_input := VArr [text1; text2];
            ep_encoding_format := None |} in
       embeddings <- await (CallEmbeddings params)
                       (embeddings_create openai params) ;;
       embedding1 <- embedding_of (nth_error (data embeddings) 0) ;;
       embedding2 <- embedding_of (nth_error (data embeddings) 1) ;;
       let dotProduct := dotProduct embedding1 embedding2 in
       let magnitude1 := magnitude embedding1 in
       let magnitude2 := magnitude embedding2 in
       let cosineSimilarity :=
         (dotProduct / (magnitude1 * magnitude2))%float in
       ret (json
         {| text1 := text1;
            text2 := text2;
            cosine_similarity := cosineSimilarity;
            similarity_percentage :=
              toFixed 2 (cosineSimilarity * 100)%float ++ "%";
            similarity_embeddings :=
              {| of_text1 :=
                   {| info_embedding := embedding1;
                      info_dimensions := List.length embedding1 |};
                 of_text2 :=
                   {| info_embedding := embedding2;
                      info_dimensions := List.length embedding2 |} |};
            similarity_usage := embeddings_usage embeddings;
            similarity_model := embeddings_model embeddings |}))%handler
    (server_error "Failed to calculate embedding similarity")).

End Gateway.

(** * Vocabulary of the properties *)

(** A request turned away before any outbound call. *)
Definition rejected {A} (h : Handler A) (message : string) : Prop :=
  status (reply h) = 400%Z
  /\ body (reply h) = ErrorOnly message
  /\ provider_calls h = [].

(** A request answered with the route's failure reply after one call. *)
Definition failed {A} (h : Handler A) (message details : string) : Prop :=
  status (reply h) = 500%Z
  /\ body (reply h) = ErrorDetails message details.

Definition embedding_model (req_body : ReqBody) : Value :=
  or_default (VStr "text-embedding-ada-002") (get "model" req_body).

(** The parameters each route sends to the provider. *)
Definition chat_params (req_body : ReqBody) : ChatParams :=
  {| chat_model := or_default (VStr "gpt-3.5-turbo") (get "model" req_body);
     chat_messages :=
       [ {| role := "user"; content := get "message" req_body |} ];
     chat_max_tokens := 500 |}.

Definition completion_params (req_body : ReqBody) : CompletionParams :=
  {| cp_model :=
       or_default (VStr "gpt-3.5-turbo-instruct") (get "model" req_body);
     cp_prompt := get "prompt" req_body;
     cp_max_tokens := or_default (VNum 100) (get "max_tokens" req_body);
     cp_temperature := 0.7 |}.

Definition embedding_params (req_body : ReqBody) : EmbeddingParams :=
  {| ep_model := embedding_model req_body;
     ep_input := get "text" req_body;
     ep_encoding_format := None |}.

Definition embedding_logged_params (req_body : ReqBody) : EmbeddingParams :=
  {| ep_model := embedding_model req_body;
     ep_input := get "text" req_body;
     ep_encoding_format :=
       Some (or_default (VStr "float") (get "encoding_format" req_body)) |}.

Definition batch_params (req_body : ReqBody) : EmbeddingParams :=
  {| ep_model := embedding_model req_body;
     ep_input := get "texts" req_body;
     ep_encoding_format := None |}.

Definition similarity_params (req_body : ReqBody) : EmbeddingParams :=
  {| ep_model := embedding_model req_body;
     ep_input := VArr [get "text1" req_body; get "text2" req_body];
     ep_encoding_format := None |}.

(** The success payloads of the two routes that reshape embeddings. *)
Definition batch_payload (texts : list Value) (r : CreateEmbeddingResponse)
  : BatchReply :=
  {| embeddings :=
       map_indexed
         (fun item index =>
            {| index := index;
               text := index_value texts index;
               item_embedding := embedding item;
               dimensions := List.length (embedding item) |})
         (data r);
     batch_usage := embeddings_usage r;
     batch_model := embeddings_model r;
     total_embeddings := List.length (data r) |}.

Definition similarity_payload (Number_toString : float -> string)
  (req_body : ReqBody) (embedding1 embedding2 : list float)
  (r : CreateEmbeddingResponse) : SimilarityReply :=
  {| text1 := get "text1" req_body;
     text2 := get "text2" req_body;
     cosine_similarity := cosineSimilarity embedding1 embedding2;
     similarity_percentage :=
       toFixed Number_toString 2
         (cosineSimilarity embedding1 embedding2 * 100)%float ++ "%";
     similarity_embeddings :=
       {| of_text1 :=
            {| info_embedding := embedding1;
               info_dimensions := List.length embedding1 |};
          of_text2 :=
            {| info_embedding := embedding2;
               info_dimensions := List.length embedding2 |} |};
     similarity_usage := embeddings_usage r;
     similarity_model := embeddings_model r |}.

(** Every call rejects with [e]. *)
Definition rejecting_provider (e : Thrown) : Provider :=
  {| chat_completions_create := fun _ => inl e;
     completions_create := fun _ => inl e;
     models_list := fun _ => inl e;
     embeddings_create := fun _ => inl e |}.

Definition embedding_items (vectors : list (list float)) : list Embedding :=
  map_indexed
    (fun v i =>
       {| embedding := v; embedding_index := i;
          embedding_object := "embedding" |})
    vectors.

(** The embeddings endpoint resolves with the given vectors whatever it is
    asked; the other endpoints reject. *)
Definition embedding_provider (vectors : list (list float)) : Provider :=
  {| chat_completions_create := fun _ => inl (ThrownError "not stubbed");
     completions_create := fun _ => inl (ThrownError "not stubbed");
     models_list := fun _ => inl (ThrownError "not stubbed");
     embeddings_create := fun p =>
       inr {| data := embedding_items vectors;
              embeddings_model := "text-embedding-ada-002";
              embeddings_object := "list";
              embeddings_usage := VNull |} |}.

(** Stand-ins for the two platform functions in closed examples, none of
    which reaches them. *)
Definition no_trim (s : string) : string := s.
Definition no_exponent (x : float) : string := "".

(** The falsy values a JSON body can carry besides absence. *)
Definition falsy_literals : list Value :=
  [VStr ""; VNum 0; VBool false; VNull].

(** A payload aligned one-to-one with the input texts and the provider's
    vectors. *)
Definition batch_aligned (items : list Value) (r : CreateEmbeddingResponse)
  (p : BatchReply) : Prop :=
  List.length (embeddings p) = List.length items
  /\ forall i t item,
       nth_error items i = Some t ->
       nth_error (data r) i = Some item ->
       nth_error (embeddings p) i =
         Some {| index := i;
                 text := t;
                 item_embedding := embedding item;
                 dimensions := List.length (embedding item) |}.

(** The [message] a thrown value carries, if any: an [Error]'s message, or the
    string under the [message] key of a thrown object. *)
Definition message_of (e : Thrown) : option string :=
  match e with
  | ThrownError message => Some message
  | ThrownOther (VObj fields) =>
      match get "message" fields with
      | VStr message => Some message
      | _ => None
      end
  | ThrownOther _ => None
  end.

(** A vector whose every component is [0] or [-0]. *)
Definition all_zero (v : list float) : bool :=
  forallb (fun x => PrimFloat.eqb x 0%float) v.

(** [-1 <= x && x <= 1]; false on [NaN]. *)
Definition in_unit_range (x : float) : bool :=
  PrimFloat.leb (-1)%float x && PrimFloat.leb x 1%float.

Definition sf_zero_or_nan (x : spec_float) : Prop :=
  match x with S754_zero _ | S754_nan => True | _ => False end.

Definition sf_pzero_or_nan (x : spec_float) : Prop :=
  match x with S754_zero false | S754_nan => True | _ => False end.

(** The same expressions read over the real numbers, where the bound by the
    Cauchy-Schwarz inequality lives: the dot product, the magnitude and their
    quotient of section 4.2 of the specification, written with the fold of the
    handler. *)
Definition dotProduct_exact (a b : list R) : R :=
  reduce (fun sum x i => sum + x * nth i b 0)%R 0%R a.

Definition magnitude_exact (v : list R) : R :=
  sqrt (reduce (fun sum x _ => sum + x * x)%R 0%R v).

Definition cosineSimilarity_exact (a b : list R) : R :=
  (dotProduct_exact a b / (magnitude_exact a * magnitude_exact b))%R.

(** The sum of [h] over a list. *)
Fixpoint sum_of {A} (h : A -> R) (l : list A) : R :=
  match l with
  | [] => 0%R
  | p :: l' => (h p + sum_of h l')%R
  end.

(** A string that ends in a point, exactly two further characters and "%". *)
Definition two_decimals_percent (s : string) : Prop :=
  exists a c1 c2, s = a ++ "." ++ String c1 (String c2 "%").

(** A hundred times the magnitude [m * 2^e] of a finite double, as a real. *)
Definition hundredths_of (m : positive) (e : Z) : R :=
  (100 * IZR (Z.pos m)
   * (if (0 <=? e)%Z then IZR (2 ^ e) else / IZR (2 ^ (- e))))%R.

(** What validation lets through on /api/embeddings/batch: an array of 1 to
    2048 items, whatever the items are. *)
Definition batch_accepts (texts : Value) : bool :=
  match texts with
  | VArr items =>
      negb (List.length items =? 0)%nat && (List.length items <=? 2048)%nat
  | _ => false
  end.

(** The failure a provider call ends in, if it rejects. *)
Definition rejection {A} (outcome : Thrown + A) : option Thrown :=
  match outcome with inl e => Some e | inr _ => None end.

(** The failure inside the similarity handler: the rejected call, or the
    TypeError of reading the embedding of a first or second item that the
    provider did not return. *)
Definition similarity_failure
  (outcome : Thrown + CreateEmbeddingResponse) : option Thrown :=
  match outcome with
  | inl e => Some e
  | inr r =>
      match data r with
      | _ :: _ :: _ => None
      | _ => Some undefined_embedding
      end
  end.

(** What a route owes a request: a request that validation turns away gets
    status 400 and [{error}] with no provider call; an accepted one costs
    exactly one call and gets status 200 and a payload, unless the handler
    failed with [e], and then status 500 and [{error, details}] with the
    route's fixed [error] and the details of [e]. *)
Definition settles {A} (h : Handler A) (route_error : string)
  (accepted : bool) (failure : option Thrown) : Prop :=
  if accepted then
    List.length (provider_calls h) = 1%nat
    /\ match failure with
       | Some e =>
           status (reply h) = 500%Z
           /\ body (reply h) = ErrorDetails route_error (error_details e)
       | None =>
           status (reply h) = 200%Z /\ exists a, body (reply h) = Payload a
       end
  else
    status (reply h) = 400%Z
    /\ (exists error, body (reply h) = ErrorOnly error)
    /\ provider_calls h = [].

(** A chat provider that resolves with the given choices. *)
Definition chat_provider (contents : list (option string)) : Provider :=
  {| chat_completions_create := fun _ =>
       inr {| chat_choices :=
                map (fun c => {| choice_message := {| msg_content := c |} |})
                    contents;
              chat_usage := VNull;
              chat_result_model := "gpt-3.5-turbo" |};
     completions_create := fun _ => inl (ThrownError "not stubbed");
     models_list := fun _ => inl (ThrownError "not stubbed");
     embeddings_create := fun _ => inl (ThrownError "not stubbed") |}.

(** A completion provider that resolves with the given texts. *)
Definition completion_provider (texts : list string) : Provider :=
  {| chat_completions_create := fun _ => inl (ThrownError "not stubbed");
     completions_create := fun _ =>
       inr {| completion_choices :=
                map (fun t => {| choice_text := t |}) texts;
              completion_usage := VNull;
              completion_model := "gpt-3.5-turbo-instruct" |};
     models_list := fun _ => inl (ThrownError "not stubbed");
     embeddings_create := fun _ => inl (ThrownError "not stubbed") |}.

(** A models provider that resolves with the given list. *)
Definition models_provider (l : list Model) : Provider :=
  {| chat_completions_create := fun _ => inl (ThrownError "not stubbed");
     completions_create := fun _ => inl (ThrownError "not stubbed");
     models_list := fun _ => inr {| models_data := l |};
     embeddings_create := fun _ => inl (ThrownError "not stubbed") |}.

(** The doubles that are infinite or [NaN]. *)
Definition sf_inf_or_nan (x : spec_float) : Prop :=
  match x with S754_infinity _ | S754_nan => True | _ => False end.

(** ** Doubles as real numbers

    The vocabulary of the rounding analysis of [cosineSimilarity]: the real
    number a double stands for, the doubles on which one operation of the
    handler is accurate, and the runs of the whole expression that stay on
    them. *)

(** [2^e] as a real. *)
Definition bpow (e : Z) : R := powerRZ 2 e.

(** The real number of a double as [Prim2SF] decodes it; the zeros count as
    [0], and so do the infinities and [NaN], which the predicates below keep
    out. *)
Definition SF2R (x : spec_float) : R :=
  match x with
  | S754_finite s m e =>
      ((if s then - IZR (Z.pos m) else IZR (Z.pos m)) * bpow e)%R
  | _ => 0%R
  end.

Definition real_of (x : float) : R := SF2R (Prim2SF x).

(** What the round and sticky bits of a shifted mantissa say of the fraction
    [d] that was shifted out. *)
Definition frac_of (r s : bool) (d : R) : Prop :=
  match r, s with
  | false, false => d = 0%R
  | false, true => (0 < d < 1 / 2)%R
  | true, false => d = (1 / 2)%R
  | true, true => (1 / 2 < d < 1)%R
  end.

(** The mantissa record [mrs] locates the real [x]: [x] is its mantissa plus
    the fraction its two bits describe. *)
Definition located (mrs : shr_record) (x : R) : Prop :=
  (0 <= shr_m mrs)%Z
  /\ exists d, frac_of (shr_r mrs) (shr_s mrs) d
               /\ x = (IZR (shr_m mrs) + d)%R.

(** The last step of [binary_round_aux]: the double of a rounded mantissa. *)
Definition rounded (sx : bool) (m e : Z) : spec_float :=
  match m with
  | Z0 => S754_zero sx
  | Zpos p => if (e <=? 971)%Z then S754_finite sx p e else S754_infinity sx
  | Zneg _ => S754_nan
  end.

Definition SFfinite (x : spec_float) : bool :=
  match x with
  | S754_zero _ | S754_finite _ _ _ => true
  | _ => false
  end.

(** A normal double: finite, with all 53 bits of the mantissa in use. *)
Definition SFnormal (x : spec_float) : bool :=
  match x with
  | S754_finite _ m _ => (2 ^ 52 <=? Z.pos m)%Z
  | _ => false
  end.

Definition SFzero (x : spec_float) : bool :=
  match x with
  | S754_zero _ => true
  | _ => false
  end.

(** Two finite doubles that cancel exactly: [y] is [-x]. *)
Definition SFopposite (x y : spec_float) : bool :=
  match x, y with
  | S754_finite sx mx ex, S754_finite sy my ey =>
      xorb sx sy && (mx =? my)%positive && (ex =? ey)%Z
  | _, _ => false
  end.

Definition finite_double (x : float) : bool := SFfinite (Prim2SF x).
Definition normal_double (x : float) : bool := SFnormal (Prim2SF x).
Definition zero_double (x : float) : bool := SFzero (Prim2SF x).
Definition opposite_doubles (x y : float) : bool :=
  SFopposite (Prim2SF x) (Prim2SF y).

(** The unit roundoff of binary64, [2^-53]. *)
Definition roundoff : R := bpow (-53).

(** [r] is [exact] rounded with a relative error of at most [roundoff]. *)
Definition close (r exact : R) : Prop :=
  (Rabs (exact - r) <= roundoff * Rabs r)%R.

(** A product [x * y] that neither overflows nor underflows: both factors are
    finite and the product is a normal double, or a factor is zero. *)
Definition product_in_range (x y : float) : bool :=
  finite_double x && finite_double y
  && (normal_double (x * y) || zero_double x || zero_double y).

(** A sum [s + t] that neither overflows nor underflows: both terms are finite
    and the sum is a normal double, or a term is zero, or the terms cancel. *)
Definition sum_in_range (s t : float) : bool :=
  finite_double s && finite_double t
  && (normal_double (s + t) || zero_double s || zero_double t
      || opposite_doubles s t).

(** Every product and every partial sum of [sum + x1 * y1 + x2 * y2 + ...],
    taken from the left as [reduce] does, is in range. *)
Fixpoint sums_in_range (sum : float) (pairs : list (float * float)) : bool :=
  match pairs with
  | [] => true
  | (x, y) :: rest =>
      product_in_range x y && sum_in_range sum (x * y)
      && sums_in_range (sum + x * y) rest
  end.

Definition squares (v : list float) : list (float * float) :=
  map (fun x => (x, x)) v.

(** A run of [cosineSimilarity a b] in which nothing overflows or underflows:
    the vectors have the same length, the three sums are in range, the two
    magnitudes and their product are normal doubles, and the quotient is a
    normal double or the dot product is zero. *)
Definition in_range_run (a b : list float) : bool :=
  (List.length a =? List.length b)%nat
  && sums_in_range 0 (combine a b)
  && sums_in_range 0 (squares a)
  && sums_in_range 0 (squares b)
  && normal_double (magnitude a)
  && normal_double (magnitude b)
  && normal_double (magnitude a * magnitude b)
  && (normal_double (cosineSimilarity a b) || zero_double (dotProduct a b)).

(** The factor by which one rounding can enlarge a result, [1 / (1 - 2^-53)]. *)
Definition alpha : R := (/ (1 - roundoff))%R.

(** The distance at most between the computed and the exact cosine similarity
    of two vectors of length [n]: [6 n + 7] roundings compounded, a little
    over [(6 n + 7) * 2^-53]. *)
Definition similarity_error (n : nat) : R :=
  ((/ (1 - roundoff)) ^ (6 * n + 7) - 1)%R.

(** * Properties *)

(** ** Running a handler *)

Ltac run_handler :=
  cbv beta delta [serve try_catch bind ret throw await reply provider_calls
                  embedding_of] iota zeta; cbn [fst snd app].

Section HandlerFacts.

Variable String_trim : string -> string.
Variable Number_toString : float -> string.
Variable openai : Provider.

Lemma chat_rejects_falsy req_body :
  truthy (get "message" req_body) = false ->
  rejected (post_api_chat openai req_body) "Message is required".
Proof.
  intros H. unfold rejected, post_api_chat. rewrite H. run_handler.
  repeat split.
Qed.

Lemma completion_rejects_falsy req_body :
  truthy (get "prompt" req_body) = false ->
  rejected (post_api_completion String_trim openai req_body)
    "Prompt is required".
Proof.
  intros H. unfold rejected, post_api_completion. rewrite H. run_handler.
  repeat split.
Qed.

Lemma similarity_rejects_falsy req_body :
  truthy (get "text1" req_body) = false
  \/ truthy (get "text2" req_body) = false ->
  rejected (post_api_embeddings_similarity Number_toString openai req_body)
    "Both text1 and text2 are required".
Proof.
  intros H. unfold rejected, post_api_embeddings_similarity.
  assert (E : negb (truthy (get "text1" req_body))
              || negb (truthy (get "text2" req_body)) = true).
  { destruct H as [H | H]; rewrite H; cbn; auto using orb_true_r. }
  rewrite E. run_handler. repeat split.
Qed.

Lemma embedding_rejects_falsy req_body :
  truthy (get "text" req_body) = false ->
  rejected (post_api_embedding openai req_body) "Text is required".
Proof.
  intros H. unfold rejected, post_api_embedding. rewrite H. run_handler.
  repeat split.
Qed.

(** What each route does once validation has passed. *)
Lemma chat_calls_provider req_body :
  truthy (get "message" req_body) = true ->
  post_api_chat openai req_body =
    (match chat_completions_create openai (chat_params req_body) with
     | inl e => server_error "Failed to get response from OpenAI" e
     | inr completion =>
         json {| response :=
                   or_else "No response generated"
                     match chat_choices completion with
                     | [] => None
                     | c :: _ => msg_content (choice_message c)
                     end;
                 usage := chat_usage completion;
                 model := chat_result_model completion |}
     end, [CallChat (chat_params req_body)]).
Proof.
  intros H. unfold post_api_chat. rewrite H. run_handler.
  fold (chat_params req_body).
  destruct (chat_completions_create openai (chat_params req_body));
    reflexivity.
Qed.

Lemma completion_calls_provider req_body :
  truthy (get "prompt" req_body) = true ->
  post_api_completion String_trim openai req_body =
    (match completions_create openai (completion_params req_body) with
     | inl e => server_error "Failed to get completion from OpenAI" e
     | inr completion =>
         json {| response :=
                   or_else "No response generated"
                     match completion_choices completion with
                     | [] => None
                     | c :: _ => Some (String_trim (choice_text c))
                     end;
                 usage := completion_usage completion;
                 model := completion_model completion |}
     end, [CallCompletion (completion_params req_body)]).
Proof.
  intros H. unfold post_api_completion. rewrite H. run_handler.
  fold (completion_params req_body).
  destruct (completions_create openai (completion_params req_body));
    reflexivity.
Qed.

Lemma models_calls_provider :
  get_api_models openai =
    (match models_list openai tt with
     | inl e => server_error "Failed to fetch models from OpenAI" e
     | inr page =>
         json {| models :=
                   map (fun model =>
                          {| id := model_id model;
                             created := model_created model;
                             owned_by := model_owned_by model |})
                       (models_data page) |}
     end, [CallModels]).
Proof.
  unfold get_api_models. run_handler.
  destruct (models_list openai tt); reflexivity.
Qed.

Lemma embedding_calls_provider req_body :
  truthy (get "text" req_body) = true ->
  post_api_embedding openai req_body =
    (match embeddings_create openai (embedding_params req_body) with
     | inl e => server_error "Failed to get embedding from OpenAI" e
     | inr r => json {| reply_embedding := r |}
     end, [CallEmbeddings (embedding_params req_body)]).
Proof.
  intros H. unfold post_api_embedding. rewrite H. run_handler.
  fold (embedding_model req_body). fold (embedding_params req_body).
  destruct (embeddings_create openai (embedding_params req_body));
    reflexivity.
Qed.

Lemma embedding_logged_calls_provider req_body :
  post_api_embedding_logged openai req_body =
    (match embeddings_create openai (embedding_logged_params req_body) with
     | inl e => server_error "Failed to get embedding from OpenAI" e
     | inr r => json {| reply_embedding := r |}
     end, [CallEmbeddings (embedding_logged_params req_body)]).
Proof.
  unfold post_api_embedding_logged. run_handler.
  fold (embedding_model req_body). fold (embedding_logged_params req_body).
  destruct (embeddings_create openai (embedding_logged_params req_body));
    reflexivity.
Qed.

Lemma batch_cases req_body :
  post_api_embeddings_batch openai req_body =
    match get "texts" req_body with
    | VArr items =>
        if (List.length items =? 0)%nat then
          (bad_request "Texts array is required and must not be empty", [])
        else if (2048 <? List.length items)%nat then
          (bad_request "Maximum 2048 texts allowed per batch", [])
        else
          (match embeddings_create openai (batch_params req_body) with
           | inl e =>
               server_error "Failed to get batch embeddings from OpenAI" e
           | inr r => json (batch_payload items r)
           end, [CallEmbeddings (batch_params req_body)])
    | _ => (bad_request "Texts array is required and must not be empty", [])
    end.
Proof.
  unfold post_api_embeddings_batch, batch_params, embedding_model.
  destruct (get "texts" req_body) as [ | | b | x | t | items | fields ];
    cbn [truthy isArray elements negb orb];
    try (run_handler; reflexivity);
    try (rewrite orb_true_r; run_handler; reflexivity).
  destruct (List.length items =? 0)%nat; [ run_handler; reflexivity | ].
  destruct (2048 <? List.length items)%nat; [ run_handler; reflexivity | ].
  run_handler.
  match goal with |- context [embeddings_create openai ?p] =>
    destruct (embeddings_create openai p) end; reflexivity.
Qed.

Lemma similarity_calls_provider req_body :
  truthy (get "text1" req_body) = true ->
  truthy (get "text2" req_body) = true ->
  post_api_embeddings_similarity Number_toString openai req_body =
    (match embeddings_create openai (similarity_params req_body) with
     | inl e => server_error "Failed to calculate embedding similarity" e
     | inr r =>
         match data r with
         | item1 :: item2 :: _ =>
             json (similarity_payload Number_toString req_body
                     (embedding item1) (embedding item2) r)
         | _ =>
             server_error "Failed to calculate embedding similarity"
               undefined_embedding
         end
     end, [CallEmbeddings (similarity_params req_body)]).
Proof.
  intros H1 H2. unfold post_api_embeddings_similarity. rewrite H1, H2.
  run_handler. fold (embedding_model req_body).
  fold (similarity_params req_body).
  destruct (embeddings_create openai (similarity_params req_body)) as [e | r];
    [ reflexivity | ].
  destruct (data r) as [ | item1 [ | item2 rest ] ]; reflexivity.
Qed.

End HandlerFacts.

(** ** Test doubles for the provider *)

(** ** Validation *)

(** C6: a request whose required field is absent ([message] on /api/chat,
    [prompt] on /api/completion, [text1] or [text2] on
    /api/embeddings/similarity) is answered with status 400 and a body holding
    an [error] field, and the provider is not called. *)
Theorem missing_required_field_rejected
  (String_trim : string -> string) (Number_toString : float -> string)
  (openai : Provider) (req_body : ReqBody) :
  (get "message" req_body = VUndefined ->
   rejected (post_api_chat openai req_body) "Message is required")
  /\ (get "prompt" req_body = VUndefined ->
      rejected (post_api_completion String_trim openai req_body)
        "Prompt is required")
  /\ (get "text1" req_body = VUndefined \/ get "text2" req_body = VUndefined ->
      rejected
        (post_api_embeddings_similarity Number_toString openai req_body)
        "Both text1 and text2 are required").
Proof.
  split; [ | split ].
  - intros H. apply chat_rejects_falsy. now rewrite H.
  - intros H. apply completion_rejects_falsy. now rewrite H.
  - intros [H | H]; apply similarity_rejects_falsy; rewrite H; auto.
Qed.

Lemma missing_required_field_rejected_witness :
  rejected (post_api_chat (rejecting_provider (ThrownError "down")) [])
    "Message is required"
  /\ rejected
       (post_api_completion no_trim (rejecting_provider (ThrownError "down"))
          [("model", VStr "gpt-4")])
       "Prompt is required"
  /\ rejected
       (post_api_embeddings_similarity no_exponent
          (rejecting_provider (ThrownError "down")) [("text1", VStr "cat")])
       "Both text1 and text2 are required".
Proof.
  split; [ | split ].
  - apply (missing_required_field_rejected no_trim no_exponent
             (rejecting_provider (ThrownError "down")) []).
    reflexivity.
  - apply (missing_required_field_rejected no_trim no_exponent
             (rejecting_provider (ThrownError "down"))
             [("model", VStr "gpt-4")]).
    reflexivity.
  - apply (missing_required_field_rejected no_trim no_exponent
             (rejecting_provider (ThrownError "down"))
             [("text1", VStr "cat")]).
    right. reflexivity.
Defined.

(** C9: validation of a required field rejects every falsy value: the empty
    string, 0, false and null are falsy, and a request whose [message],
    [prompt], [text1] or [text2] is falsy gets status 400 with the same
    "required" message and no provider call. *)
Theorem falsy_required_field_rejected
  (String_trim : string -> string) (Number_toString : float -> string)
  (openai : Provider) (req_body : ReqBody) :
  (forall v, In v falsy_literals -> truthy v = false)
  /\ (truthy (get "message" req_body) = false ->
      rejected (post_api_chat openai req_body) "Message is required")
  /\ (truthy (get "prompt" req_body) = false ->
      rejected (post_api_completion String_trim openai req_body)
        "Prompt is required")
  /\ (truthy (get "text1" req_body) = false
      \/ truthy (get "text2" req_body) = false ->
      rejected
        (post_api_embeddings_similarity Number_toString openai req_body)
        "Both text1 and text2 are required").
Proof.
  split; [ | split; [ | split ] ].
  - intros v [<- | [<- | [<- | [<- | []]]]]; reflexivity.
  - apply chat_rejects_falsy.
  - apply completion_rejects_falsy.
  - apply similarity_rejects_falsy.
Qed.

Lemma falsy_required_field_rejected_witness :
  truthy (VNum 0) = false
  /\ rejected
       (post_api_chat (rejecting_provider (ThrownError "down"))
          [("message", VStr "")])
       "Message is required"
  /\ rejected
       (post_api_completion no_trim (rejecting_provider (ThrownError "down"))
          [("prompt", VNum 0)])
       "Prompt is required"
  /\ rejected
       (post_api_embeddings_similarity no_exponent
          (rejecting_provider (ThrownError "down"))
          [("text1", VStr "cat"); ("text2", VNull)])
       "Both text1 and text2 are required".
Proof.
  split; [ | split; [ | split ] ].
  - apply (falsy_required_field_rejected no_trim no_exponent
             (rejecting_provider (ThrownError "down")) []).
    right; left; reflexivity.
  - apply (falsy_required_field_rejected no_trim no_exponent
             (rejecting_provider (ThrownError "down"))
             [("message", VStr "")]).
    reflexivity.
  - apply (falsy_required_field_rejected no_trim no_exponent
             (rejecting_provider (ThrownError "down"))
             [("prompt", VNum 0)]).
    reflexivity.
  - apply (falsy_required_field_rejected no_trim no_exponent
             (rejecting_provider (ThrownError "down"))
             [("text1", VStr "cat"); ("text2", VNull)]).
    right; reflexivity.
Defined.

(** ** Batch embeddings *)

Lemma map_from_length {A B} (f : A -> nat -> B) (l : list A) (i : nat) :
  List.length (map_from f i l) = List.length l.
Proof.
  revert i. induction l as [ | a l IH ]; intros i; cbn; [ | rewrite IH ];
    reflexivity.
Qed.

Lemma map_from_nth_error {A B} (f : A -> nat -> B) (l : list A) (i j : nat) :
  nth_error (map_from f i l) j =
    option_map (fun a => f a (i + j)%nat) (nth_error l j).
Proof.
  revert i j. induction l as [ | a l IH ]; intros i [ | j ]; cbn;
    try reflexivity.
  - now rewrite Nat.add_0_r.
  - rewrite IH. now rewrite Nat.add_succ_r.
Qed.

Lemma batch_payload_length texts r :
  List.length (embeddings (batch_payload texts r)) = List.length (data r).
Proof. apply map_from_length. Qed.

(** C5: on /api/embeddings/batch an empty [texts] gets status 400 with the
    missing-or-empty message, 2049 texts get status 400 with "Maximum 2048
    texts allowed per batch", neither with a provider call; exactly 2048 texts
    pass validation, the provider is called once, and when it succeeds the
    status is 200. *)
Theorem batch_size_limits (openai : Provider) (req_body : ReqBody)
  (items : list Value) :
  get "texts" req_body = VArr items ->
  (items = [] ->
   rejected (post_api_embeddings_batch openai req_body)
     "Texts array is required and must not be empty")
  /\ (List.length items = 2049%nat ->
      rejected (post_api_embeddings_batch openai req_body)
        "Maximum 2048 texts allowed per batch")
  /\ (List.length items = 2048%nat ->
      provider_calls (post_api_embeddings_batch openai req_body) =
        [CallEmbeddings (batch_params req_body)]
      /\ forall r,
           embeddings_create openai (batch_params req_body) = inr r ->
           reply (post_api_embeddings_batch openai req_body) =
             json (batch_payload items r)
           /\ status (reply (post_api_embeddings_batch openai req_body))
              = 200%Z).
Proof.
  intros Htexts. rewrite batch_cases, Htexts.
  split; [ | split ].
  - intros ->. repeat split.
  - intros H. rewrite H.
    change (2049 =? 0)%nat with false.
    replace (2048 <? 2049)%nat with true
      by (symmetry; apply Nat.ltb_lt; apply Nat.lt_succ_diag_r).
    repeat split.
  - intros H. rewrite H.
    change (2048 =? 0)%nat with false.
    rewrite Nat.ltb_irrefl.
    split; [ reflexivity | ].
    intros r Hr. rewrite Hr. split; reflexivity.
Qed.

Lemma batch_size_limits_witness :
  rejected
    (post_api_embeddings_batch (embedding_provider []) [("texts", VArr [])])
    "Texts array is required and must not be empty"
  /\ rejected
       (post_api_embeddings_batch (embedding_provider [])
          [("texts", VArr (repeat (VStr "a") 2049))])
       "Maximum 2048 texts allowed per batch"
  /\ provider_calls
       (post_api_embeddings_batch (embedding_provider [])
          [("texts", VArr (repeat (VStr "a") 2048))])
     = [CallEmbeddings (batch_params [("texts", VArr (repeat (VStr "a") 2048))])].
Proof.
  split; [ | split ].
  - apply (batch_size_limits (embedding_provider [])
             [("texts", VArr [])] []); reflexivity.
  - apply (batch_size_limits (embedding_provider [])
             [("texts", VArr (repeat (VStr "a") 2049))]
             (repeat (VStr "a") 2049));
      [ reflexivity | apply repeat_length ].
  - apply (batch_size_limits (embedding_provider [])
             [("texts", VArr (repeat (VStr "a") 2048))]
             (repeat (VStr "a") 2048));
      [ reflexivity | apply repeat_length ].
Defined.

(** C10: in every 200 reply of /api/embeddings/batch, [total_embeddings] equals
    the length of [embeddings], and both equal the number of items the
    provider returned. *)
Theorem batch_total_matches_provider (openai : Provider) (req_body : ReqBody) :
  status (reply (post_api_embeddings_batch openai req_body)) = 200%Z ->
  exists p r,
    body (reply (post_api_embeddings_batch openai req_body)) = Payload p
    /\ embeddings_create openai (batch_params req_body) = inr r
    /\ total_embeddings p = List.length (embeddings p)
    /\ List.length (embeddings p) = List.length (data r).
Proof.
  rewrite batch_cases.
  destruct (get "texts" req_body) as [ | | b | x | t | items | fields ];
    try discriminate.
  destruct (List.length items =? 0)%nat; [ discriminate | ].
  destruct (2048 <? List.length items)%nat; [ discriminate | ].
  destruct (embeddings_create openai (batch_params req_body)) as [e | r];
    [ discriminate | ].
  intros _. exists (batch_payload items r), r.
  repeat split.
  - cbn [total_embeddings batch_payload]. symmetry.
    apply batch_payload_length.
  - apply batch_payload_length.
Qed.

Lemma batch_total_matches_provider_witness :
  exists p r,
    body (reply (post_api_embeddings_batch (embedding_provider [[1%float]])
                   [("texts", VArr [VStr "a"; VStr "b"])])) = Payload p
    /\ embeddings_create (embedding_provider [[1%float]])
         (batch_params [("texts", VArr [VStr "a"; VStr "b"])]) = inr r
    /\ total_embeddings p = List.length (embeddings p)
    /\ List.length (embeddings p) = List.length (data r).
Proof.
  apply (batch_total_matches_provider (embedding_provider [[1%float]])
           [("texts", VArr [VStr "a"; VStr "b"])]).
  reflexivity.
Defined.

(** C1, as the code has it: for [texts] of length L with 1 <= L <= 2048, when
    the provider resolves with exactly L items the reply has status 200 and
    its [embeddings] has exactly L items, item i holding index i, texts[i],
    the provider's i-th vector and that vector's length. *)
Theorem batch_items_aligned (openai : Provider) (req_body : ReqBody)
  (items : list Value) (r : CreateEmbeddingResponse) :
  get "texts" req_body = VArr items ->
  (1 <= List.length items <= 2048)%nat ->
  embeddings_create openai (batch_params req_body) = inr r ->
  List.length (data r) = List.length items ->
  exists p,
    reply (post_api_embeddings_batch openai req_body) = json p
    /\ batch_aligned items r p.
Proof.
  intros Htexts [Hlo Hhi] Hr Hlen. rewrite batch_cases, Htexts.
  destruct (Nat.eqb_spec (List.length items) 0) as [E | _]; [ lia | ].
  destruct (Nat.ltb_spec 2048 (List.length items)) as [E | _]; [ lia | ].
  rewrite Hr. exists (batch_payload items r).
  split; [ reflexivity | ]. split.
  - rewrite batch_payload_length. exact Hlen.
  - intros i t item Ht Hitem. cbn [embeddings batch_payload].
    unfold map_indexed. rewrite map_from_nth_error, Hitem. cbn.
    unfold index_value. now rewrite (nth_error_nth items i VUndefined Ht).
Qed.

Lemma batch_items_aligned_witness :
  exists p,
    reply (post_api_embeddings_batch
             (embedding_provider [[1%float]; [2%float; 3%float]])
             [("texts", VArr [VStr "a"; VStr "b"])]) = json p
    /\ batch_aligned [VStr "a"; VStr "b"]
         {| data := embedding_items [[1%float]; [2%float; 3%float]];
            embeddings_model := "text-embedding-ada-002";
            embeddings_object := "list";
            embeddings_usage := VNull |} p.
Proof.
  apply (batch_items_aligned
           (embedding_provider [[1%float]; [2%float; 3%float]])
           [("texts", VArr [VStr "a"; VStr "b"])]);
    [ reflexivity | cbn; lia | reflexivity | reflexivity ].
Defined.

(** C1 as stated fails: two texts, a provider that resolves with one vector;
    the reply has status 200 and one item, not two. *)
Lemma batch_items_follow_provider_count :
  exists p,
    reply (post_api_embeddings_batch (embedding_provider [[1%float]])
             [("texts", VArr [VStr "a"; VStr "b"])]) = json p
    /\ List.length (embeddings p) = 1%nat
    /\ List.length (embeddings p)
       <> List.length [VStr "a"; VStr "b"].
Proof.
  eexists. split; [ reflexivity | ]. split; [ reflexivity | ].
  cbn. discriminate.
Qed.

(** ** The single-text embedding route *)

(** C8: on /api/embedding the logging revision accepts any [text], absent or
    not, and never answers 400; the other revision answers 400 when [text] is
    absent; on provider success both reply 200 with the provider's result
    itself under [embedding]. *)
Theorem embedding_route_variants (openai : Provider) (req_body : ReqBody) :
  status (reply (post_api_embedding_logged openai req_body)) <> 400%Z
  /\ provider_calls (post_api_embedding_logged openai req_body) =
       [CallEmbeddings (embedding_logged_params req_body)]
  /\ (forall r,
        embeddings_create openai (embedding_logged_params req_body) = inr r ->
        reply (post_api_embedding_logged openai req_body) =
          json {| reply_embedding := r |})
  /\ (get "text" req_body = VUndefined ->
      rejected (post_api_embedding openai req_body) "Text is required")
  /\ (truthy (get "text" req_body) = true ->
      forall r,
        embeddings_create openai (embedding_params req_body) = inr r ->
        reply (post_api_embedding openai req_body) =
          json {| reply_embedding := r |}).
Proof.
  rewrite embedding_logged_calls_provider.
  split; [ | split; [ | split; [ | split ] ] ].
  - destruct (embeddings_create openai (embedding_logged_params req_body));
      discriminate.
  - reflexivity.
  - intros r Hr. now rewrite Hr.
  - intros H. apply embedding_rejects_falsy. now rewrite H.
  - intros Ht r Hr. rewrite (embedding_calls_provider _ _ Ht), Hr.
    reflexivity.
Qed.

Lemma embedding_route_variants_witness :
  reply (post_api_embedding_logged (embedding_provider [[1%float]]) []) =
    json {| reply_embedding :=
              {| data := embedding_items [[1%float]];
                 embeddings_model := "text-embedding-ada-002";
                 embeddings_object := "list";
                 embeddings_usage := VNull |} |}
  /\ rejected (post_api_embedding (embedding_provider [[1%float]]) [])
       "Text is required"
  /\ reply (post_api_embedding (embedding_provider [[1%float]])
              [("text", VStr "cat")]) =
       json {| reply_embedding :=
                 {| data := embedding_items [[1%float]];
                    embeddings_model := "text-embedding-ada-002";
                    embeddings_object := "list";
                    embeddings_usage := VNull |} |}.
Proof.
  split; [ | split ].
  - apply (embedding_route_variants (embedding_provider [[1%float]]) []).
    reflexivity.
  - apply (embedding_route_variants (embedding_provider [[1%float]]) []).
    reflexivity.
  - apply (embedding_route_variants (embedding_provider [[1%float]])
             [("text", VStr "cat")]);
      reflexivity.
Defined.

(** ** Provider failures *)

(** C7, as the code has it: on every route, when validation has passed and the
    provider call rejects with [e], the reply has status 500 and body
    [{error, details}] with the route's fixed [error]; [details] is the
    message of [e] when [e] is an [Error], and "Unknown error" for any other
    thrown value. *)
Theorem provider_failure_reported
  (String_trim : string -> string) (Number_toString : float -> string)
  (openai : Provider) (req_body : ReqBody) (e : Thrown) :
  (truthy (get "message" req_body) = true ->
   chat_completions_create openai (chat_params req_body) = inl e ->
   failed (post_api_chat openai req_body)
     "Failed to get response from OpenAI" (error_details e))
  /\ (truthy (get "prompt" req_body) = true ->
      completions_create openai (completion_params req_body) = inl e ->
      failed (post_api_completion String_trim openai req_body)
        "Failed to get completion from OpenAI" (error_details e))
  /\ (models_list openai tt = inl e ->
      failed (get_api_models openai)
        "Failed to fetch models from OpenAI" (error_details e))
  /\ (truthy (get "text" req_body) = true ->
      embeddings_create openai (embedding_params req_body) = inl e ->
      failed (post_api_embedding openai req_body)
        "Failed to get embedding from OpenAI" (error_details e))
  /\ (embeddings_create openai (embedding_logged_params req_body) = inl e ->
      failed (post_api_embedding_logged openai req_body)
        "Failed to get embedding from OpenAI" (error_details e))
  /\ (forall items,
        get "texts" req_body = VArr items ->
        (1 <= List.length items <= 2048)%nat ->
        embeddings_create openai (batch_params req_body) = inl e ->
        failed (post_api_embeddings_batch openai req_body)
          "Failed to get batch embeddings from OpenAI" (error_details e))
  /\ (truthy (get "text1" req_body) = true ->
      truthy (get "text2" req_body) = true ->
      embeddings_create openai (similarity_params req_body) = inl e ->
      failed (post_api_embeddings_similarity Number_toString openai req_body)
        "Failed to calculate embedding similarity" (error_details e))
  /\ error_details e =
       match e with
       | ThrownError message => message
       | ThrownOther _ => "Unknown error"
       end.
Proof.
  repeat match goal with |- _ /\ _ => split end.
  - intros Hv He. rewrite (chat_calls_provider _ _ Hv), He. split; reflexivity.
  - intros Hv He. rewrite (completion_calls_provider _ _ _ Hv), He.
    split; reflexivity.
  - intros He. rewrite models_calls_provider, He. split; reflexivity.
  - intros Hv He. rewrite (embedding_calls_provider _ _ Hv), He.
    split; reflexivity.
  - intros He. rewrite embedding_logged_calls_provider, He.
    split; reflexivity.
  - intros items Htexts [Hlo Hhi] He. rewrite batch_cases, Htexts.
    destruct (Nat.eqb_spec (List.length items) 0) as [E | _]; [ lia | ].
    destruct (Nat.ltb_spec 2048 (List.length items)) as [E | _]; [ lia | ].
    rewrite He. split; reflexivity.
  - intros H1 H2 He. rewrite (similarity_calls_provider _ _ _ H1 H2), He.
    split; reflexivity.
  - destruct e; reflexivity.
Qed.

Lemma provider_failure_reported_witness :
  failed
    (post_api_chat (rejecting_provider (ThrownError "429 rate limited"))
       [("message", VStr "hi")])
    "Failed to get response from OpenAI" "429 rate limited"
  /\ failed
       (post_api_completion no_trim (rejecting_provider (ThrownOther VNull))
          [("prompt", VStr "hi")])
       "Failed to get completion from OpenAI" "Unknown error"
  /\ failed (get_api_models (rejecting_provider (ThrownError "401")))
       "Failed to fetch models from OpenAI" "401"
  /\ failed
       (post_api_embedding (rejecting_provider (ThrownError "401"))
          [("text", VStr "cat")])
       "Failed to get embedding from OpenAI" "401"
  /\ failed
       (post_api_embedding_logged (rejecting_provider (ThrownError "401")) [])
       "Failed to get embedding from OpenAI" "401"
  /\ failed
       (post_api_embeddings_batch (rejecting_provider (ThrownError "401"))
          [("texts", VArr [VStr "cat"])])
       "Failed to get batch embeddings from OpenAI" "401"
  /\ failed
       (post_api_embeddings_similarity no_exponent
          (rejecting_provider (ThrownError "401"))
          [("text1", VStr "cat"); ("text2", VStr "dog")])
       "Failed to calculate embedding similarity" "401".
Proof.
  repeat match goal with |- _ /\ _ => split end.
  - apply (provider_failure_reported no_trim no_exponent
             (rejecting_provider (ThrownError "429 rate limited"))
             [("message", VStr "hi")] (ThrownError "429 rate limited"));
      reflexivity.
  - apply (provider_failure_reported no_trim no_exponent
             (rejecting_provider (ThrownOther VNull))
             [("prompt", VStr "hi")] (ThrownOther VNull));
      reflexivity.
  - apply (provider_failure_reported no_trim no_exponent
             (rejecting_provider (ThrownError "401")) [] (ThrownError "401"));
      reflexivity.
  - apply (provider_failure_reported no_trim no_exponent
             (rejecting_provider (ThrownError "401"))
             [("text", VStr "cat")] (ThrownError "401"));
      reflexivity.
  - apply (provider_failure_reported no_trim no_exponent
             (rejecting_provider (ThrownError "401")) [] (ThrownError "401"));
      reflexivity.
  - apply (provider_failure_reported no_trim no_exponent
             (rejecting_provider (ThrownError "401"))
             [("texts", VArr [VStr "cat"])] (ThrownError "401")
           ) with (items := [VStr "cat"]);
      [ reflexivity | cbn; lia | reflexivity ].
  - apply (provider_failure_reported no_trim no_exponent
             (rejecting_provider (ThrownError "401"))
             [("text1", VStr "cat"); ("text2", VStr "dog")]
             (ThrownError "401"));
      reflexivity.
Defined.

(** C7 as stated fails: the provider rejects with a plain object that carries
    a message; [details] is "Unknown error", not that message. *)
Lemma thrown_object_message_not_reported :
  message_of (ThrownOther (VObj [("message", VStr "boom")])) = Some "boom"
  /\ body (reply (post_api_chat
                    (rejecting_provider
                       (ThrownOther (VObj [("message", VStr "boom")])))
                    [("message", VStr "hi")]))
     = ErrorDetails "Failed to get response from OpenAI" "Unknown error"
  /\ "Unknown error" <> "boom".
Proof.
  split; [ reflexivity | ]. split; [ reflexivity | discriminate ].
Qed.

(** ** Cosine similarity *)

(** The indexed read of the second array walks it in step with the first. *)
Lemma reduce_from_combine {A B} (g : B -> A -> A -> B) (d : A)
  (a b pre : list A) (acc : B) :
  List.length a = List.length b ->
  reduce_from (fun s x j => g s x (nth j (pre ++ b)%list d)) acc
    (List.length pre) a
  = fold_left (fun s p => g s (fst p) (snd p)) (combine a b) acc.
Proof.
  revert b pre acc.
  induction a as [ | x a IH ]; intros [ | y b ] pre acc Hlen;
    try discriminate; [ reflexivity | ].
  cbn [reduce_from combine fold_left fst snd].
  rewrite nth_middle.
  specialize (IH b (pre ++ [y])%list (g acc x y)).
  rewrite <- app_assoc, length_app, Nat.add_1_r in IH. cbn [app] in IH.
  apply IH. now injection Hlen.
Qed.

Lemma reduce_from_fold {A B} (g : B -> A -> B) (a : list A) (acc : B) (i : nat) :
  reduce_from (fun s x _ => g s x) acc i a = fold_left g a acc.
Proof.
  revert acc i. induction a as [ | x a IH ]; intros acc i; cbn;
    [ reflexivity | apply IH ].
Qed.

Lemma dotProduct_combine (a b : list float) :
  List.length a = List.length b ->
  dotProduct a b =
    fold_left (fun s p => s + fst p * snd p)%float (combine a b) 0%float.
Proof.
  intros Hlen. unfold dotProduct, reduce, number_at.
  exact (reduce_from_combine (fun s x y => s + x * y)%float nan a b [] _ Hlen).
Qed.

Lemma SFmul_comm (x y : spec_float) : SF64mul x y = SF64mul y x.
Proof.
  destruct x as [sx | sx | | sx mx ex], y as [sy | sy | | sy my ey];
    cbn; try reflexivity; try (now rewrite xorb_comm).
  now rewrite xorb_comm, Pos.mul_comm, Z.add_comm.
Qed.

Lemma float_mul_comm (x y : float) : (x * y = y * x)%float.
Proof.
  apply Prim2SF_inj. rewrite !mul_spec. apply SFmul_comm.
Qed.

Lemma fold_products_swap (a b : list float) (acc : float) :
  fold_left (fun s p => s + fst p * snd p)%float (combine a b) acc
  = fold_left (fun s p => s + fst p * snd p)%float (combine b a) acc.
Proof.
  revert b acc. induction a as [ | x a IH ]; intros [ | y b ] acc;
    try reflexivity.
  cbn [combine fold_left fst snd]. rewrite (float_mul_comm x y). apply IH.
Qed.

Example cosineSimilarity_orthogonal :
  cosineSimilarity [1; 0]%float [0; 1]%float = 0%float.
Proof. reflexivity. Qed.

Example cosineSimilarity_parallel :
  cosineSimilarity [1; 2; 3]%float [2; 4; 6]%float = 1%float.
Proof. reflexivity. Qed.

Example cosineSimilarity_shorter_second :
  cosineSimilarity [1; 2]%float [1]%float = nan.
Proof. reflexivity. Qed.

(** C3: cosine similarity is symmetric: for vectors of equal length the value
    computed for (a, b) is the value computed for (b, a), the same double;
    the comparison [==] of the two is true unless that value is [NaN]. *)
Theorem cosineSimilarity_symmetric (a b : list float) :
  List.length a = List.length b ->
  cosineSimilarity a b = cosineSimilarity b a
  /\ PrimFloat.eqb (cosineSimilarity a b) (cosineSimilarity b a)
     = negb (PrimFloat.is_nan (cosineSimilarity a b)).
Proof.
  intros Hlen.
  assert (E : cosineSimilarity a b = cosineSimilarity b a).
  { unfold cosineSimilarity.
    rewrite (dotProduct_combine a b Hlen).
    rewrite (dotProduct_combine b a (eq_sym Hlen)).
    rewrite fold_products_swap.
    now rewrite (float_mul_comm (magnitude a) (magnitude b)). }
  split; [ exact E | ].
  rewrite <- E. unfold PrimFloat.is_nan. now rewrite negb_involutive.
Qed.

Lemma cosineSimilarity_symmetric_witness :
  cosineSimilarity [1; 2; 3]%float [4; 5; 6]%float
  = cosineSimilarity [4; 5; 6]%float [1; 2; 3]%float
  /\ PrimFloat.eqb (cosineSimilarity [1; 2; 3]%float [4; 5; 6]%float)
       (cosineSimilarity [4; 5; 6]%float [1; 2; 3]%float)
     = negb (PrimFloat.is_nan
               (cosineSimilarity [1; 2; 3]%float [4; 5; 6]%float)).
Proof.
  apply (cosineSimilarity_symmetric [1; 2; 3]%float [4; 5; 6]%float).
  reflexivity.
Defined.

Lemma Prim2SF_zero : Prim2SF 0%float = S754_zero false.
Proof. reflexivity. Qed.

Lemma float_eqb_zero (x : float) :
  PrimFloat.eqb x 0%float = true -> exists s, Prim2SF x = S754_zero s.
Proof.
  rewrite eqb_spec, Prim2SF_zero.
  destruct (Prim2SF x) as [s | [ | ] | | [ | ] m e]; cbn; try discriminate.
  intros _. now exists s.
Qed.

Lemma mul_zero_l (x y : float) :
  sf_zero_or_nan (Prim2SF x) -> sf_zero_or_nan (Prim2SF (x * y)%float).
Proof.
  rewrite mul_spec.
  destruct (Prim2SF x) as [sx | sx | | sx mx ex]; cbn; try contradiction;
    destruct (Prim2SF y); cbn; trivial.
Qed.

Lemma mul_zero_r (x y : float) :
  sf_zero_or_nan (Prim2SF y) -> sf_zero_or_nan (Prim2SF (x * y)%float).
Proof. rewrite float_mul_comm. apply mul_zero_l. Qed.

Lemma add_pzero (acc t : float) :
  sf_pzero_or_nan (Prim2SF acc) -> sf_zero_or_nan (Prim2SF t) ->
  sf_pzero_or_nan (Prim2SF (acc + t)%float).
Proof.
  rewrite add_spec.
  destruct (Prim2SF acc) as [[ | ] | sa | | sa ma ea]; cbn; try contradiction;
    destruct (Prim2SF t) as [[ | ] | st | | st mt et]; cbn; try contradiction;
    trivial.
Qed.

Lemma pzero_is_zero (x : spec_float) : sf_pzero_or_nan x -> sf_zero_or_nan x.
Proof. destruct x as [[ | ] | | | ]; cbn; trivial. Qed.

Lemma sqrt_pzero (x : float) :
  sf_pzero_or_nan (Prim2SF x) -> sf_pzero_or_nan (Prim2SF (PrimFloat.sqrt x)).
Proof.
  rewrite sqrt_spec.
  destruct (Prim2SF x) as [[ | ] | s | | s m e]; cbn; try contradiction;
    trivial.
Qed.

Lemma div_zero_or_nan (x y : float) :
  sf_zero_or_nan (Prim2SF x) -> sf_zero_or_nan (Prim2SF y) ->
  (x / y)%float = nan.
Proof.
  intros Hx Hy. apply Prim2SF_inj. rewrite div_spec.
  destruct (Prim2SF x) as [sx | sx | | sx mx ex]; cbn in Hx; try contradiction;
    destruct (Prim2SF y) as [sy | sy | | sy my ey]; cbn in Hy;
    try contradiction; reflexivity.
Qed.

(** An invariant of the accumulator is an invariant of the fold. *)
Lemma reduce_from_invariant {A B} (P : B -> Prop) (f : B -> A -> nat -> B)
  (l : list A) (acc : B) (i : nat) :
  P acc ->
  (forall s x j, P s -> In x l -> P (f s x j)) ->
  P (reduce_from f acc i l).
Proof.
  revert acc i. induction l as [ | a l IH ]; intros acc i Hacc Hstep;
    cbn [reduce_from]; [ exact Hacc | ].
  apply IH.
  - apply Hstep; [ exact Hacc | now left ].
  - intros s x j Hs Hx. apply Hstep; [ exact Hs | now right ].
Qed.

Lemma all_zero_In (v : list float) (x : float) :
  all_zero v = true -> In x v -> sf_zero_or_nan (Prim2SF x).
Proof.
  unfold all_zero. rewrite forallb_forall. intros H Hx.
  destruct (float_eqb_zero x (H x Hx)) as [s ->]. exact I.
Qed.

Lemma number_at_all_zero (v : list float) (i : nat) :
  all_zero v = true -> sf_zero_or_nan (Prim2SF (number_at v i)).
Proof.
  intros H. unfold number_at.
  destruct (nth_in_or_default i v nan) as [Hin | ->].
  - exact (all_zero_In v _ H Hin).
  - exact I.
Qed.

Lemma dotProduct_zero (a b : list float) :
  all_zero a = true \/ all_zero b = true ->
  sf_pzero_or_nan (Prim2SF (dotProduct a b)).
Proof.
  intros H. unfold dotProduct, reduce.
  apply (reduce_from_invariant (fun s => sf_pzero_or_nan (Prim2SF s)));
    [ exact I | ].
  intros s x j Hs Hx. apply add_pzero; [ exact Hs | ].
  destruct H as [Ha | Hb].
  - apply mul_zero_l. exact (all_zero_In a x Ha Hx).
  - apply mul_zero_r. now apply number_at_all_zero.
Qed.

Lemma magnitude_zero (v : list float) :
  all_zero v = true -> sf_pzero_or_nan (Prim2SF (magnitude v)).
Proof.
  intros H. unfold magnitude, reduce. apply sqrt_pzero.
  apply (reduce_from_invariant (fun s => sf_pzero_or_nan (Prim2SF s)));
    [ exact I | ].
  intros s x j Hs Hx. apply add_pzero; [ exact Hs | ].
  apply mul_zero_l. exact (all_zero_In v x H Hx).
Qed.

(** No guard for the zero vector: the quotient is [NaN]. *)
Lemma cosineSimilarity_zero_vector (a b : list float) :
  all_zero a = true \/ all_zero b = true ->
  cosineSimilarity a b = nan.
Proof.
  intros H. unfold cosineSimilarity. apply div_zero_or_nan.
  - apply pzero_is_zero. now apply dotProduct_zero.
  - destruct H as [Ha | Hb].
    + apply mul_zero_l, pzero_is_zero. now apply magnitude_zero.
    + apply mul_zero_r, pzero_is_zero. now apply magnitude_zero.
Qed.

Local Open Scope R_scope.

Lemma fold_left_sum_of {A} (h : A -> R) (l : list A) (acc : R) :
  fold_left (fun s p => s + h p) l acc = acc + sum_of h l.
Proof.
  revert acc. induction l as [ | p l IH ]; intros acc; cbn.
  - ring.
  - rewrite IH. ring.
Qed.

Lemma sum_of_squares_nonneg {A} (h : A -> R) (l : list A) :
  0 <= sum_of (fun p => h p * h p) l.
Proof.
  induction l as [ | p l IH ]; cbn; [ lra | ].
  pose proof (Rle_0_sqr (h p)) as Hp. unfold Rsqr in Hp. lra.
Qed.

Lemma cauchy_schwarz_pairs (l : list (R * R)) :
  let D := sum_of (fun p => fst p * snd p) l in
  let A := sum_of (fun p => fst p * fst p) l in
  let B := sum_of (fun p => snd p * snd p) l in
  D * D <= A * B.
Proof.
  induction l as [ | [x y] l IH ]; cbn; [ lra | ].
  cbn in IH.
  pose proof (sum_of_squares_nonneg fst l) as HA.
  pose proof (sum_of_squares_nonneg snd l) as HB.
  set (D := sum_of (fun p => fst p * snd p) l) in *.
  set (A := sum_of (fun p : R * R => fst p * fst p) l) in *.
  set (B := sum_of (fun p : R * R => snd p * snd p) l) in *.
  assert (H1 : (2 * x * y * D) * (2 * x * y * D)
               <= (x * x * B + y * y * A) * (x * x * B + y * y * A)).
  { pose proof (Rle_0_sqr (x * x * B - y * y * A)) as Hs. unfold Rsqr in Hs.
    assert (Hxy : 0 <= (x * y) * (x * y)) by (pose proof (Rle_0_sqr (x * y)) as T; unfold Rsqr in T; lra).
    assert (H2 : (x * y) * (x * y) * (D * D) <= (x * y) * (x * y) * (A * B)).
    { apply Rmult_le_compat_l; assumption. }
    lra. }
  assert (H0 : 0 <= x * x * B + y * y * A).
  { pose proof (Rle_0_sqr x) as Hx. pose proof (Rle_0_sqr y) as Hy. unfold Rsqr in *.
    apply Rplus_le_le_0_compat; apply Rmult_le_pos; assumption. }
  assert (H3 : 2 * x * y * D <= x * x * B + y * y * A).
  { apply Rnot_lt_le. intros Hlt.
    assert (Hpos: 0 <= 2 * x * y * D) by lra.
    pose proof (Rmult_le_0_lt_compat _ _ _ _ H0 H0 Hlt Hlt). lra. }
  nra.
Qed.

Lemma sum_of_combine_fst (a b : list R) (h : R -> R) :
  List.length a = List.length b ->
  sum_of (fun p => h (fst p)) (combine a b) = sum_of h a.
Proof.
  revert b. induction a as [ | x a IH ]; intros [ | y b ] Hlen;
    try discriminate; cbn; [ reflexivity | ].
  rewrite IH; [ reflexivity | now injection Hlen ].
Qed.

Lemma sum_of_combine_snd (a b : list R) (h : R -> R) :
  List.length a = List.length b ->
  sum_of (fun p => h (snd p)) (combine a b) = sum_of h b.
Proof.
  revert b. induction a as [ | x a IH ]; intros [ | y b ] Hlen;
    try discriminate; cbn; [ reflexivity | ].
  rewrite IH; [ reflexivity | now injection Hlen ].
Qed.

Lemma dotProduct_exact_sum (a b : list R) :
  List.length a = List.length b ->
  dotProduct_exact a b = sum_of (fun p => fst p * snd p) (combine a b).
Proof.
  intros Hlen. unfold dotProduct_exact, reduce.
  etransitivity;
    [ exact (reduce_from_combine (fun s x y => s + x * y) 0 a b [] 0 Hlen) | ].
  rewrite (fold_left_sum_of (fun p => fst p * snd p)). ring.
Qed.

Lemma magnitude_exact_sum (v : list R) :
  magnitude_exact v = sqrt (sum_of (fun x => x * x) v).
Proof.
  unfold magnitude_exact, reduce.
  rewrite (reduce_from_fold (fun s x => s + x * x)).
  rewrite (fold_left_sum_of (fun x => x * x)). f_equal. ring.
Qed.

Lemma sum_of_squares_pos (v : list R) :
  (exists x, In x v /\ x <> 0) -> 0 < sum_of (fun x => x * x) v.
Proof.
  intros (x & Hin & Hx). induction v as [ | y v IH ]; [ contradiction | ].
  cbn. pose proof (sum_of_squares_nonneg (fun x => x) v) as Hv.
  pose proof (Rle_0_sqr y) as Hy. unfold Rsqr in Hy.
  destruct Hin as [-> | Hin].
  - assert (0 < x * x) by nra. lra.
  - specialize (IH Hin). lra.
Qed.

Lemma cosineSimilarity_exact_bounded (a b : list R) :
  List.length a = List.length b ->
  (exists x, In x a /\ x <> 0) ->
  (exists y, In y b /\ y <> 0) ->
  -1 <= cosineSimilarity_exact a b <= 1.
Proof.
  intros Hlen Ha Hb. unfold cosineSimilarity_exact.
  rewrite (dotProduct_exact_sum a b Hlen), !magnitude_exact_sum.
  pose proof (cauchy_schwarz_pairs (combine a b)) as CS. cbn zeta in CS.
  rewrite (sum_of_combine_fst a b (fun x => x * x) Hlen) in CS.
  rewrite (sum_of_combine_snd a b (fun x => x * x) Hlen) in CS.
  apply sum_of_squares_pos in Ha, Hb.
  set (D := sum_of (fun p => fst p * snd p) (combine a b)) in *.
  set (A := sum_of (fun x => x * x) a) in *.
  set (B := sum_of (fun x => x * x) b) in *.
  assert (HsA : 0 < sqrt A) by now apply sqrt_lt_R0.
  assert (HsB : 0 < sqrt B) by now apply sqrt_lt_R0.
  assert (Hm : 0 < sqrt A * sqrt B) by now apply Rmult_lt_0_compat.
  assert (Hsq : (sqrt A * sqrt B) * (sqrt A * sqrt B) = A * B).
  { pose proof (sqrt_sqrt A (Rlt_le _ _ Ha)) as EA.
    pose proof (sqrt_sqrt B (Rlt_le _ _ Hb)) as EB. nra. }
  set (m := sqrt A * sqrt B) in *.
  assert (Hle : - m <= D <= m) by (split; nra).
  split.
  - apply (Rmult_le_reg_r m); [ exact Hm | ]. unfold Rdiv.
    rewrite Rmult_assoc, Rinv_l by lra. lra.
  - apply (Rmult_le_reg_r m); [ exact Hm | ]. unfold Rdiv.
    rewrite Rmult_assoc, Rinv_l by lra. lra.
Qed.

(** ** Rounding in [cosineSimilarity]

    The operations of Stdlib's [SpecFloat], to which [FloatAxioms] ties the
    primitive doubles, read over the reals: each of [*], [+], [sqrt] and [/]
    returns its exact result rounded to nearest, hence within a relative error
    of [2^-53] when the result is a normal double. *)

Lemma bpow_pos (e : Z) : 0 < bpow e.
Proof. apply powerRZ_lt. lra. Qed.

Lemma bpow_add (a b : Z) : bpow (a + b) = bpow a * bpow b.
Proof. apply powerRZ_add. lra. Qed.

Lemma bpow_IZR (n : Z) : (0 <= n)%Z -> bpow n = IZR (2 ^ n).
Proof.
  intros Hn. unfold bpow. rewrite <- (Z2Nat.id n Hn) at 1.
  rewrite <- pow_powerRZ, pow_IZR, Z2Nat.id by exact Hn. reflexivity.
Qed.

Lemma bpow_0 : bpow 0 = 1.
Proof. reflexivity. Qed.

Lemma bpow_1 : bpow 1 = 2.
Proof. exact (powerRZ_1 2). Qed.

Lemma bpow_m1 : bpow (-1) = / 2.
Proof. unfold bpow, powerRZ. simpl. rewrite Rmult_1_r. reflexivity. Qed.

Lemma bpow_opp (e : Z) : bpow (- e) = / bpow e.
Proof. apply powerRZ_neg'. Qed.

Lemma bpow_le (a b : Z) : (a <= b)%Z -> bpow a <= bpow b.
Proof.
  intros H. replace b with (a + (b - a))%Z by lia. rewrite bpow_add.
  rewrite (bpow_IZR (b - a)) by lia.
  assert (1 <= IZR (2 ^ (b - a))).
  { apply IZR_le. pose proof (Z.pow_pos_nonneg 2 (b - a)). lia. }
  pose proof (bpow_pos a). nra.
Qed.

Lemma bpow_lt (a b : Z) : (a < b)%Z -> bpow a < bpow b.
Proof.
  intros H. apply Rlt_le_trans with (bpow (a + 1)).
  - rewrite bpow_add, bpow_1. pose proof (bpow_pos a). lra.
  - apply bpow_le. lia.
Qed.

(** *** Right shifts keep the location of the real *)

Lemma shr_1_located (mrs : shr_record) (x : R) :
  located mrs x -> located (shr_1 mrs) (x / 2).
Proof.
  destruct mrs as [m r s]. intros (Hm & d & Hd & ->). cbn in *.
  assert (Hrs : frac_of false (r || s) (d / 2) /\ frac_of true (r || s) (1 / 2 + d / 2)).
  { destruct r, s; cbn in *; lra. }
  destruct Hrs as [H0 H1].
  unfold located.
  destruct m as [ | [p | p | ] | p ]; cbn [shr_1 shr_m shr_r shr_s]; try lia.
  - split; [ lia | ]. exists (d / 2). split; [ exact H0 | ]. lra.
  - split; [ lia | ]. exists (1 / 2 + d / 2). split; [ exact H1 | ].
    rewrite (Pos2Z.inj_xI p), plus_IZR, mult_IZR. lra.
  - split; [ lia | ]. exists (d / 2). split; [ exact H0 | ].
    rewrite (Pos2Z.inj_xO p), mult_IZR. lra.
  - split; [ lia | ]. exists (1 / 2 + d / 2). split; [ exact H1 | ]. lra.
Qed.

Lemma iter_shr_located (p : positive) (mrs : shr_record) (x : R) :
  located mrs x -> located (SpecFloat.iter_pos shr_1 p mrs) (x * bpow (- Z.pos p)).
Proof.
  revert mrs x. induction p as [p IH | p IH | ]; intros mrs x H; cbn [SpecFloat.iter_pos].
  - replace (x * bpow (- Z.pos p~1))
      with (x / 2 * bpow (- Z.pos p) * bpow (- Z.pos p)).
    + apply IH, IH, shr_1_located, H.
    + replace (- Z.pos p~1)%Z with (-1 + (- Z.pos p + - Z.pos p))%Z by lia.
      rewrite !bpow_add, bpow_m1. lra.
  - replace (x * bpow (- Z.pos p~0))
      with (x * bpow (- Z.pos p) * bpow (- Z.pos p)).
    + apply IH, IH, H.
    + replace (- Z.pos p~0)%Z with (- Z.pos p + - Z.pos p)%Z by lia.
      rewrite !bpow_add. lra.
  - change (- Z.pos 1)%Z with (Z.neg 1). rewrite bpow_m1.
    apply shr_1_located, H.
Qed.

Lemma shr_located (mrs : shr_record) (e n : Z) (x : R) :
  located mrs x ->
  located (fst (shr mrs e n)) (x * bpow (e - snd (shr mrs e n)))
  /\ snd (shr mrs e n) = (e + Z.max n 0)%Z.
Proof.
  intros H. destruct n as [ | p | p ]; cbn [shr fst snd].
  - rewrite Z.sub_diag, bpow_0, Rmult_1_r. split; [ exact H | lia ].
  - replace (e - (e + Z.pos p))%Z with (- Z.pos p)%Z by lia.
    split; [ now apply iter_shr_located | lia ].
  - rewrite Z.sub_diag, bpow_0, Rmult_1_r. split; [ exact H | lia ].
Qed.

Lemma digits2_pos_spec (p : positive) :
  (2 ^ (Z.pos (digits2_pos p) - 1) <= Z.pos p < 2 ^ Z.pos (digits2_pos p))%Z.
Proof.
  induction p as [p IH | p IH | ]; cbn [digits2_pos].
  - rewrite Pos2Z.inj_succ, Z.pow_succ_r by lia.
    replace (Z.succ (Z.pos (digits2_pos p)) - 1)%Z
      with (Z.succ (Z.pos (digits2_pos p) - 1)) by lia.
    rewrite Z.pow_succ_r by lia. lia.
  - rewrite Pos2Z.inj_succ, Z.pow_succ_r by lia.
    replace (Z.succ (Z.pos (digits2_pos p)) - 1)%Z
      with (Z.succ (Z.pos (digits2_pos p) - 1)) by lia.
    rewrite Z.pow_succ_r by lia. lia.
  - cbn. lia.
Qed.

Lemma Zdigits2_spec (m : Z) :
  (0 <= m)%Z -> (m < 2 ^ Zdigits2 m)%Z /\ (0 <= Zdigits2 m)%Z
  /\ (0 < m -> 2 ^ (Zdigits2 m - 1) <= m)%Z.
Proof.
  intros Hm. destruct m as [ | p | p ]; cbn [Zdigits2]; try lia.
  pose proof (digits2_pos_spec p). lia.
Qed.

(** *** Rounding to nearest, ties to even *)

Lemma fexp_eq (e : Z) : fexp prec emax e = Z.max (e - 53) (-1074).
Proof. reflexivity. Qed.

Lemma shr_m_of_loc (m : Z) (l : location) : shr_m (shr_record_of_loc m l) = m.
Proof. destruct l as [ | [ | | ] ]; reflexivity. Qed.

Lemma located_bounds (mrs : shr_record) (x : R) :
  located mrs x -> IZR (shr_m mrs) <= x < IZR (shr_m mrs) + 1.
Proof.
  destruct mrs as [m r s]. intros (_ & d & Hd & ->).
  destruct r, s; cbn in *; lra.
Qed.

Lemma digits_le_53 (m : Z) : (0 <= m < 2 ^ 53)%Z -> (Zdigits2 m <= 53)%Z.
Proof.
  intros [H0 H1]. destruct (Z.eq_dec m 0) as [-> | Hne]; [ cbn; lia | ].
  destruct (Zdigits2_spec m H0) as (_ & Hd & Hlow).
  assert (Hlt : (2 ^ (Zdigits2 m - 1) < 2 ^ 53)%Z) by lia.
  apply Z.pow_lt_mono_r_iff in Hlt; lia.
Qed.

Lemma shr_fexp_spec (m e : Z) (l : location) (x : R) :
  located (shr_record_of_loc m l) x ->
  located (fst (shr_fexp prec emax m e l)) (x * bpow (e - snd (shr_fexp prec emax m e l)))
  /\ (shr_m (fst (shr_fexp prec emax m e l)) < 2 ^ 53)%Z
  /\ (-1074 <= snd (shr_fexp prec emax m e l))%Z
  /\ (e <= snd (shr_fexp prec emax m e l))%Z.
Proof.
  intros H. unfold shr_fexp. rewrite fexp_eq.
  pose proof (located_bounds _ _ H) as Hx. rewrite shr_m_of_loc in Hx.
  assert (Hm : (0 <= m)%Z) by (destruct H as [Hm _]; now rewrite shr_m_of_loc in Hm).
  destruct (Zdigits2_spec m Hm) as (Hup & Hd & _).
  set (n := (Z.max (Zdigits2 m + e - 53) (-1074) - e)%Z).
  destruct (shr_located (shr_record_of_loc m l) e n x H) as [Hloc He].
  split; [ exact Hloc | ].
  assert (Hn : n = (Z.max (Zdigits2 m + e - 53) (-1074) - e)%Z) by reflexivity.
  clearbody n. destruct n as [ | p | p ]; cbn [shr fst snd] in *.
  - rewrite shr_m_of_loc. split; [ | lia ].
    assert (Hlt : (2 ^ Zdigits2 m <= 2 ^ 53)%Z) by (apply Z.pow_le_mono_r; lia).
    lia.
  - split; [ | lia ].
    apply located_bounds in Hloc. apply lt_IZR.
    rewrite <- (bpow_IZR 53) by lia.
    replace (e - (e + Z.pos p))%Z with (- Z.pos p)%Z in Hloc by lia.
    assert (Hx' : x < bpow (Zdigits2 m)).
    { rewrite bpow_IZR by lia. apply Rlt_le_trans with (IZR m + 1); [ lra | ].
      rewrite <- plus_IZR. apply IZR_le. lia. }
    assert (Hb : bpow (Zdigits2 m) * bpow (- Z.pos p) <= bpow 53).
    { rewrite <- bpow_add. apply bpow_le. lia. }
    pose proof (bpow_pos (- Z.pos p)). nra.
  - rewrite shr_m_of_loc. split; [ | lia ].
    assert (Hlt : (2 ^ Zdigits2 m <= 2 ^ 53)%Z) by (apply Z.pow_le_mono_r; lia).
    lia.
Qed.

Lemma round_nearest_even_spec (mrs : shr_record) (x : R) :
  located mrs x ->
  (shr_m mrs <= round_nearest_even (shr_m mrs) (loc_of_shr_record mrs) <= shr_m mrs + 1)%Z
  /\ Rabs (IZR (round_nearest_even (shr_m mrs) (loc_of_shr_record mrs)) - x) <= 1 / 2.
Proof.
  destruct mrs as [m r s]. intros (Hm & d & Hd & ->).
  destruct r, s; cbn in *; try destruct (Z.even m);
    (split; [ lia | ]); apply Rabs_le; rewrite ?plus_IZR; lra.
Qed.

Lemma shr_fexp_exact (m e : Z) :
  (0 <= m <= 2 ^ 53)%Z -> (-1074 <= e)%Z ->
  (0 <= shr_m (fst (shr_fexp prec emax m e loc_Exact)))%Z
  /\ (e <= snd (shr_fexp prec emax m e loc_Exact))%Z
  /\ IZR (shr_m (fst (shr_fexp prec emax m e loc_Exact)))
       * bpow (snd (shr_fexp prec emax m e loc_Exact))
     = IZR m * bpow e.
Proof.
  intros Hm He. unfold shr_fexp. rewrite fexp_eq.
  destruct (Z.eq_dec m (2 ^ 53)) as [-> | Hne].
  - change (Zdigits2 (2 ^ 53)) with 54%Z.
    replace (Z.max (54 + e - 53) (-1074) - e)%Z with 1%Z by lia.
    cbn [shr shr_record_of_loc SpecFloat.iter_pos fst snd].
    change (shr_m (shr_1 {| shr_m := 2 ^ 53; shr_r := false; shr_s := false |}))
      with (2 ^ 52)%Z.
    split; [ lia | ]. split; [ lia | ].
    rewrite bpow_add, bpow_1.
    change (2 ^ 53)%Z with (2 * 2 ^ 52)%Z. rewrite mult_IZR. lra.
  - pose proof (digits_le_53 m ltac:(lia)) as Hd.
    set (n := (Z.max (Zdigits2 m + e - 53) (-1074) - e)%Z).
    assert (Hn : (n <= 0)%Z) by (unfold n; lia).
    clearbody n. destruct n as [ | p | p ]; cbn [shr shr_record_of_loc fst snd shr_m];
      try lia; (split; [ lia | ]); (split; [ lia | reflexivity ]).
Qed.

(** [binary_round_aux] returns the double of a mantissa [m] and an exponent [e]
    with [m * 2^e] at most half a unit in the last place from the real that was
    to be rounded. *)
Lemma binary_round_aux_spec (sx : bool) (mx ex : Z) (lx : location) (x : R) :
  located (shr_record_of_loc mx lx) x ->
  exists m e,
    (0 <= m)%Z
    /\ Rabs (IZR m * bpow e - x * bpow ex) <= bpow e / 2
    /\ binary_round_aux prec emax sx mx ex lx = rounded sx m e.
Proof.
  intros H. unfold binary_round_aux.
  destruct (shr_fexp_spec mx ex lx x H) as (Hloc & Hlt & Hmin & Hge).
  destruct (shr_fexp prec emax mx ex lx) as [mrs1 e1]. cbn [fst snd] in *.
  destruct (round_nearest_even_spec _ _ Hloc) as [Hm2 Hhalf].
  set (m2 := round_nearest_even (shr_m mrs1) (loc_of_shr_record mrs1)) in *.
  assert (H0 : (0 <= shr_m mrs1)%Z) by (destruct Hloc as [H0 _]; exact H0).
  destruct (shr_fexp_exact m2 e1 ltac:(lia) Hmin) as (Hpos & He2 & Heq).
  destruct (shr_fexp prec emax m2 e1 loc_Exact) as [mrs2 e2]. cbn [fst snd] in *.
  exists (shr_m mrs2), e2. split; [ exact Hpos | ]. split; [ | reflexivity ].
  rewrite Heq.
  replace (IZR m2 * bpow e1 - x * bpow ex)
    with ((IZR m2 - x * bpow (ex - e1)) * bpow e1).
  - rewrite Rabs_mult, (Rabs_pos_eq (bpow e1)) by (apply Rlt_le, bpow_pos).
    pose proof (bpow_le e1 e2 He2). pose proof (bpow_pos e1).
    pose proof (Rabs_pos (IZR m2 - x * bpow (ex - e1))). nra.
  - replace ex with (ex - e1 + e1)%Z at 2 by lia. rewrite bpow_add. ring.
Qed.

(** *** Normal results are within a relative [2^-53] *)

Lemma roundoff_pos : 0 < roundoff.
Proof. apply bpow_pos. Qed.

Lemma close_refl (r : R) : close r r.
Proof.
  unfold close. rewrite Rminus_diag, Rabs_R0.
  pose proof roundoff_pos. pose proof (Rabs_pos r). nra.
Qed.

Lemma SFnormal_finite (x : spec_float) : SFnormal x = true -> SFfinite x = true.
Proof. destruct x; cbn; congruence. Qed.

(** Half a unit in the last place of a normal double is at most [2^-53] of its
    magnitude. *)
Lemma rounded_close (sx : bool) (m e : Z) (X : R) :
  Rabs (IZR m * bpow e - X) <= bpow e / 2 ->
  SFnormal (rounded sx m e) = true ->
  close (SF2R (rounded sx m e)) (if sx then - X else X).
Proof.
  intros HX Hn. destruct m as [ | p | p ]; cbn [rounded SFnormal] in Hn;
    try discriminate.
  cbn [rounded] in *. destruct (e <=? 971)%Z; [ | discriminate ].
  cbn [SFnormal] in Hn. apply Z.leb_le in Hn. cbn [SF2R]. unfold close.
  assert (Hp : bpow e / 2 <= roundoff * (IZR (Z.pos p) * bpow e)).
  { apply IZR_le in Hn. rewrite <- (bpow_IZR 52) in Hn by lia.
    assert (Hu : roundoff * bpow 52 = / 2).
    { unfold roundoff. rewrite <- bpow_add. exact bpow_m1. }
    pose proof (bpow_pos e). pose proof roundoff_pos.
    apply Rle_trans with (roundoff * (bpow 52 * bpow e)).
    - rewrite <- Rmult_assoc, Hu. lra.
    - apply Rmult_le_compat_l; [ lra | ].
      apply Rmult_le_compat_r; [ lra | exact Hn ]. }
  assert (Hv : 0 <= IZR (Z.pos p) * bpow e).
  { apply Rmult_le_pos; [ apply IZR_le; lia | apply Rlt_le, bpow_pos ]. }
  destruct sx.
  - replace (- X - - IZR (Z.pos p) * bpow e) with (- (X - IZR (Z.pos p) * bpow e)) by ring.
    rewrite Rabs_Ropp, (Rabs_minus_sym X).
    replace (- IZR (Z.pos p) * bpow e) with (- (IZR (Z.pos p) * bpow e)) by ring.
    rewrite Rabs_Ropp, (Rabs_pos_eq _ Hv). lra.
  - rewrite (Rabs_minus_sym X), (Rabs_pos_eq _ Hv). lra.
Qed.

(** *** Multiplication *)

(** A product of finite doubles that is a normal double, or has a zero factor,
    is the exact product rounded. *)
Lemma SFmul_close (x y : spec_float) :
  SFfinite x = true -> SFfinite y = true ->
  SFnormal (SFmul prec emax x y) || SFzero x || SFzero y = true ->
  SFfinite (SFmul prec emax x y) = true
  /\ close (SF2R (SFmul prec emax x y)) (SF2R x * SF2R y).
Proof.
  intros Hx Hy H.
  destruct x as [sx | sx | | sx mx ex], y as [sy | sy | | sy my ey];
    try discriminate; cbn [SFmul SF2R SFfinite];
    try (split; [ reflexivity | ]; rewrite ?Rmult_0_l, ?Rmult_0_r; apply close_refl).
  cbn [SFzero] in H. rewrite !orb_false_r in H. cbn [SFmul] in H.
  split; [ now apply SFnormal_finite | ].
  destruct (binary_round_aux_spec (xorb sx sy) (Z.pos (mx * my)) (ex + ey)
              loc_Exact (IZR (Z.pos (mx * my)))) as (m & e & Hm & HX & Heq).
  { split; [ cbn; lia | ]. exists 0. cbn. split; [ reflexivity | lra ]. }
  rewrite Heq in *.
  replace ((if sx then - IZR (Z.pos mx) else IZR (Z.pos mx)) * bpow ex
           * ((if sy then - IZR (Z.pos my) else IZR (Z.pos my)) * bpow ey))
    with (if xorb sx sy then - (IZR (Z.pos (mx * my)) * bpow (ex + ey))
          else IZR (Z.pos (mx * my)) * bpow (ex + ey)).
  - now apply rounded_close.
  - rewrite Pos2Z.inj_mul, mult_IZR, bpow_add. destruct sx, sy; cbn; ring.
Qed.

(** *** Addition *)

Lemma shl_align_spec (mx : positive) (ex ez : Z) :
  (ez <= ex)%Z ->
  IZR (Z.pos (fst (shl_align mx ex ez))) * bpow ez = IZR (Z.pos mx) * bpow ex.
Proof.
  intros Hle. unfold shl_align. destruct (ez - ex)%Z as [ | d | d ] eqn:Hd;
    cbn [fst]; try lia.
  - replace ez with ex by lia. reflexivity.
  - change (Pos.iter xO mx d) with (shift_pos d mx).
    rewrite shift_pos_correct. change (Z.pow_pos 2 d) with (2 ^ Z.pos d)%Z.
    rewrite mult_IZR, <- bpow_IZR by lia.
    replace ex with (Z.pos d + ez)%Z by lia. rewrite bpow_add. ring.
Qed.

Lemma shl_align_value (mx : positive) (ex ez : Z) :
  IZR (Z.pos (fst (shl_align mx ex ez))) * bpow (snd (shl_align mx ex ez))
  = IZR (Z.pos mx) * bpow ex.
Proof.
  unfold shl_align. destruct (ez - ex)%Z as [ | d | d ] eqn:Hd;
    cbn [fst snd]; try reflexivity.
  change (Pos.iter xO mx d) with (shift_pos d mx).
  rewrite shift_pos_correct. change (Z.pow_pos 2 d) with (2 ^ Z.pos d)%Z.
  rewrite mult_IZR, <- bpow_IZR by lia.
  replace ex with (Z.pos d + ez)%Z by lia. rewrite bpow_add. ring.
Qed.

Lemma binary_round_close (sx : bool) (m : positive) (e : Z) :
  SFnormal (binary_round prec emax sx m e) = true ->
  close (SF2R (binary_round prec emax sx m e))
    ((if sx then - IZR (Z.pos m) else IZR (Z.pos m)) * bpow e).
Proof.
  unfold binary_round.
  pose proof (shl_align_value m e (fexp prec emax (Z.pos (digits2_pos m) + e))) as Hv.
  destruct (shl_align m e (fexp prec emax (Z.pos (digits2_pos m) + e))) as [mz ez].
  cbn [fst snd] in Hv. intros Hn.
  destruct (binary_round_aux_spec sx (Z.pos mz) ez loc_Exact (IZR (Z.pos mz)))
    as (m' & e' & Hm & HX & Heq).
  { split; [ cbn; lia | ]. exists 0. cbn. split; [ reflexivity | lra ]. }
  rewrite Heq in *. rewrite Hv in HX.
  replace ((if sx then - IZR (Z.pos m) else IZR (Z.pos m)) * bpow e)
    with (if sx then - (IZR (Z.pos m) * bpow e) else IZR (Z.pos m) * bpow e)
    by (destruct sx; ring).
  now apply rounded_close.
Qed.

(** A sum of finite doubles that is a normal double, or has a zero term, or
    whose terms cancel, is the exact sum rounded. *)
Lemma SFadd_close (x y : spec_float) :
  SFfinite x = true -> SFfinite y = true ->
  SFnormal (SFadd prec emax x y) || SFzero x || SFzero y || SFopposite x y = true ->
  SFfinite (SFadd prec emax x y) = true
  /\ close (SF2R (SFadd prec emax x y)) (SF2R x + SF2R y).
Proof.
  intros Hx Hy H.
  destruct x as [sx | sx | | sx mx ex], y as [sy | sy | | sy my ey];
    try discriminate; cbn [SFadd SF2R SFfinite].
  - destruct sx, sy; cbn [SFfinite SF2R]; (split; [ reflexivity | ]);
      rewrite Rplus_0_l; apply close_refl.
  - split; [ reflexivity | ]. rewrite Rplus_0_l. apply close_refl.
  - split; [ reflexivity | ]. rewrite Rplus_0_r. apply close_refl.
  - cbn [SFzero SFopposite SFadd] in H. rewrite !orb_false_r in H.
    pose proof (shl_align_spec mx ex (Z.min ex ey) ltac:(lia)) as Hmx.
    pose proof (shl_align_spec my ey (Z.min ex ey) ltac:(lia)) as Hmy.
    set (ez := Z.min ex ey) in *.
    set (mx' := fst (shl_align mx ex ez)) in *.
    set (my' := fst (shl_align my ey ez)) in *.
    set (z := (cond_Zopp sx (Z.pos mx') + cond_Zopp sy (Z.pos my'))%Z) in *.
    assert (Hz : IZR z * bpow ez
                 = (if sx then - IZR (Z.pos mx) else IZR (Z.pos mx)) * bpow ex
                   + (if sy then - IZR (Z.pos my) else IZR (Z.pos my)) * bpow ey).
    { unfold z. rewrite plus_IZR.
      destruct sx, sy; cbn [cond_Zopp]; rewrite ?opp_IZR; lra. }
    rewrite <- Hz.
    apply orb_true_iff in H. destruct H as [Hn | Ho].
    + split; [ now apply SFnormal_finite | ].
      destruct z as [ | p | p ]; cbn [binary_normalize] in *; try discriminate.
      * exact (binary_round_close false p ez Hn).
      * replace (IZR (Z.neg p)) with (- IZR (Z.pos p)) by (now rewrite <- opp_IZR).
        exact (binary_round_close true p ez Hn).
    + apply andb_true_iff in Ho. destruct Ho as [Ho He].
      apply andb_true_iff in Ho. destruct Ho as [Hs Hm].
      apply Pos.eqb_eq in Hm. apply Z.eqb_eq in He. subst my ey.
      assert (Hz0 : z = 0%Z).
      { unfold z, mx', my'. destruct sx, sy; try discriminate; cbn [cond_Zopp]; lia. }
      rewrite Hz0. cbn [binary_normalize SFfinite SF2R].
      split; [ reflexivity | ]. rewrite Rmult_0_l. apply close_refl.
Qed.

(** *** Square root *)

Lemma SFsqrt_core_located (mx : positive) (ex : Z) :
  located
    (shr_record_of_loc (fst (fst (SFsqrt_core_binary prec emax (Z.pos mx) ex)))
       (snd (SFsqrt_core_binary prec emax (Z.pos mx) ex)))
    (sqrt (IZR (Z.pos mx) * bpow ex)
     * bpow (- snd (fst (SFsqrt_core_binary prec emax (Z.pos mx) ex)))).
Proof.
  unfold SFsqrt_core_binary.
  set (e' := Z.min (fexp prec emax (Z.div2 (Zdigits2 (Z.pos mx) + ex + 1))) (Z.div2 ex)).
  assert (He : (0 <= ex - 2 * e')%Z).
  { assert (H2 : (2 * Z.div2 ex <= ex)%Z)
      by (rewrite Z.div2_div; apply Z.mul_div_le; lia).
    unfold e'. lia. }
  set (s := (ex - 2 * e')%Z) in *.
  set (m' := match s with
             | 0%Z => Z.pos mx
             | Z.pos _ => Z.shiftl (Z.pos mx) s
             | Z.neg _ => 0%Z
             end).
  assert (Hm' : m' = (Z.pos mx * 2 ^ s)%Z).
  { unfold m'. destruct s as [ | p | p ] eqn:Hs; try lia.
    apply Z.shiftl_mul_pow2. lia. }
  assert (Hpos : (0 < m')%Z).
  { rewrite Hm'. pose proof (Z.pow_pos_nonneg 2 s). lia. }
  pose proof (Z.sqrtrem_spec m' ltac:(lia)) as Hspec.
  clearbody m'. destruct (Z.sqrtrem m') as [q r]. destruct Hspec as [Hqr Hr].
  cbn [fst snd].
  assert (Hy : sqrt (IZR (Z.pos mx) * bpow ex) * bpow (- e') = sqrt (IZR m')).
  { rewrite <- (sqrt_square (bpow (- e'))) at 1 by (apply Rlt_le, bpow_pos).
    rewrite <- sqrt_mult.
    - f_equal. rewrite Hm', mult_IZR, <- bpow_IZR by lia.
      rewrite Rmult_assoc, <- !bpow_add. do 2 f_equal. unfold s. lia.
    - apply Rmult_le_pos; [ apply IZR_le; lia | apply Rlt_le, bpow_pos ].
    - pose proof (bpow_pos (- e')). nra. }
  rewrite Hy.
  assert (H0 : 0 <= IZR m') by (apply IZR_le; lia).
  pose proof (sqrt_pos (IZR m')) as Hy0.
  pose proof (sqrt_sqrt (IZR m') H0) as Hyy.
  set (y := sqrt (IZR m')) in *. clearbody y.
  rewrite Hqr, plus_IZR, mult_IZR in Hyy.
  assert (Hq0 : 0 <= IZR q) by (apply IZR_le; lia).
  assert (Hr0 : 0 <= IZR r) by (apply IZR_le; lia).
  assert (Hr2 : IZR r <= 2 * IZR q).
  { rewrite <- mult_IZR. apply IZR_le. lia. }
  split.
  { rewrite shr_m_of_loc. lia. }
  exists (y - IZR q). rewrite shr_m_of_loc. split; [ | ring ].
  destruct (Z.eqb_spec r 0) as [-> | Hne]; cbn [shr_record_of_loc shr_r shr_s frac_of].
  - nra.
  - assert (Hr1 : 1 <= IZR r) by (apply IZR_le; lia).
    destruct (Z.leb_spec r q) as [Hle | Hgt];
      cbn [shr_record_of_loc shr_r shr_s frac_of].
    + apply IZR_le in Hle. split; nra.
    + assert (Hgt' : IZR q + 1 <= IZR r).
      { rewrite <- plus_IZR. apply IZR_le. lia. }
      split; nra.
Qed.

(** A square root that is a normal double is the exact root, of a positive
    finite double, rounded. *)
Lemma SFsqrt_close (x : spec_float) :
  SFnormal (SFsqrt prec emax x) = true ->
  SFfinite x = true /\ 0 < SF2R x
  /\ close (SF2R (SFsqrt prec emax x)) (sqrt (SF2R x)).
Proof.
  destruct x as [sx | [ | ] | | [ | ] mx ex]; cbn [SFsqrt SFnormal];
    try discriminate.
  pose proof (SFsqrt_core_located mx ex) as Hloc.
  destruct (SFsqrt_core_binary prec emax (Z.pos mx) ex) as [[mz ez] lz].
  cbn [fst snd] in Hloc. intros Hn.
  destruct (binary_round_aux_spec false mz ez lz _ Hloc) as (m & e & Hm & HX & Heq).
  rewrite Heq in *. split; [ reflexivity | ]. cbn [SF2R].
  split.
  - apply Rmult_lt_0_compat; [ apply IZR_lt; lia | apply bpow_pos ].
  - rewrite Rmult_assoc, <- bpow_add, Z.add_opp_diag_l, bpow_0, Rmult_1_r in HX.
    exact (rounded_close false m e _ HX Hn).
Qed.

(** *** Division *)

Lemma new_location_eq (d r : Z) :
  new_location d r
  = if Z.even d
    then if (r =? 0)%Z then loc_Exact else loc_Inexact (2 * r ?= d)%Z
    else if (r =? 0)%Z then loc_Exact
         else loc_Inexact match (2 * r + 1 ?= d)%Z with
                          | Gt => Gt
                          | _ => Lt
                          end.
Proof.
  unfold new_location, new_location_even, new_location_odd.
  destruct (Z.even d); [ reflexivity | ].
  destruct (r =? 0)%Z; [ reflexivity | ].
  now destruct (2 * r + 1 ?= d)%Z.
Qed.

Lemma new_location_located (q r d : Z) :
  (0 <= q)%Z -> (0 <= r < d)%Z ->
  located (shr_record_of_loc q (new_location d r)) (IZR q + IZR r / IZR d).
Proof.
  intros Hq Hr. split; [ rewrite shr_m_of_loc; exact Hq | ].
  exists (IZR r / IZR d). rewrite shr_m_of_loc. split; [ | reflexivity ].
  assert (Hd : 0 < IZR d) by (apply IZR_lt; lia).
  assert (Hf : IZR r / IZR d * IZR d = IZR r) by (field; lra).
  set (f := IZR r / IZR d) in *. clearbody f.
  assert (Hr0 : 0 <= IZR r) by (apply IZR_le; lia).
  assert (Hrd : IZR r < IZR d) by (apply IZR_lt; lia).
  assert (Hcases : forall c : comparison,
            (2 * r ?= d)%Z = c ->
            frac_of (shr_r (shr_record_of_loc q (loc_Inexact c)))
              (shr_s (shr_record_of_loc q (loc_Inexact c))) f \/ r = 0%Z).
  { intros c Hc. destruct (Z.eq_dec r 0) as [ | Hne ]; [ now right | left ].
    assert (Hr1 : 1 <= IZR r) by (apply IZR_le; lia).
    destruct c; cbn [shr_record_of_loc shr_r shr_s frac_of].
    - apply Z.compare_eq in Hc. apply (f_equal IZR) in Hc.
      rewrite mult_IZR in Hc. nra.
    - apply Z.compare_lt_iff in Hc. apply IZR_lt in Hc.
      rewrite mult_IZR in Hc. split; nra.
    - apply Z.compare_gt_iff in Hc. apply IZR_lt in Hc.
      rewrite mult_IZR in Hc. split; nra. }
  rewrite new_location_eq.
  destruct (Z.eqb_spec r 0) as [-> | Hne].
  - assert (Hf0 : f = 0).
    { apply Rmult_eq_reg_r with (IZR d); [ rewrite Hf; lra | lra ]. }
    destruct (Z.even d); cbn [shr_record_of_loc shr_r shr_s frac_of];
      exact Hf0.
  - destruct (Z.even d) eqn:Hev.
    + destruct (Hcases _ eq_refl) as [H | H]; [ exact H | contradiction ].
    + assert (Hodd : (2 * r <> d)%Z).
      { intros <-. rewrite Z.even_mul in Hev. discriminate. }
      destruct (2 * r + 1 ?= d)%Z eqn:Hc.
      * apply Z.compare_eq in Hc.
        destruct (Hcases Lt) as [H | H]; [ | exact H | contradiction ].
        apply Z.compare_lt_iff. lia.
      * change (2 * r + 1 < d)%Z in Hc.
        destruct (Hcases Lt) as [H | H]; [ | exact H | contradiction ].
        apply Z.compare_lt_iff. lia.
      * apply Z.compare_gt_iff in Hc.
        destruct (Hcases Gt) as [H | H]; [ | exact H | contradiction ].
        apply Z.compare_gt_iff. lia.
Qed.

Lemma SFdiv_core_located (mx my : positive) (ex ey : Z) :
  located
    (shr_record_of_loc
       (fst (fst (SFdiv_core_binary prec emax (Z.pos mx) ex (Z.pos my) ey)))
       (snd (SFdiv_core_binary prec emax (Z.pos mx) ex (Z.pos my) ey)))
    (IZR (Z.pos mx) * bpow ex / (IZR (Z.pos my) * bpow ey)
     * bpow (- snd (fst (SFdiv_core_binary prec emax (Z.pos mx) ex (Z.pos my) ey)))).
Proof.
  unfold SFdiv_core_binary.
  set (e' := Z.min (fexp prec emax (Zdigits2 (Z.pos mx) + ex - (Zdigits2 (Z.pos my) + ey)))
               (ex - ey)).
  assert (He : (0 <= ex - ey - e')%Z) by (unfold e'; lia).
  set (s := (ex - ey - e')%Z) in *.
  set (m' := match s with
             | 0%Z => Z.pos mx
             | Z.pos _ => Z.shiftl (Z.pos mx) s
             | Z.neg _ => 0%Z
             end).
  assert (Hm' : m' = (Z.pos mx * 2 ^ s)%Z).
  { unfold m'. destruct s as [ | p | p ] eqn:Hs; try lia.
    apply Z.shiftl_mul_pow2. lia. }
  assert (Hpos : (0 < m')%Z).
  { rewrite Hm'. pose proof (Z.pow_pos_nonneg 2 s). lia. }
  pose proof (Z_div_mod m' (Z.pos my) ltac:(lia)) as Hspec.
  assert (Hval : IZR (Z.pos mx) * bpow ex / (IZR (Z.pos my) * bpow ey) * bpow (- e')
                 = IZR m' / IZR (Z.pos my)).
  { rewrite Hm', mult_IZR, <- bpow_IZR by lia.
    replace s with (ex + (- ey + - e'))%Z by (unfold s; lia).
    rewrite !bpow_add, (bpow_opp ey).
    assert (0 < IZR (Z.pos my)) by (apply IZR_lt; lia).
    pose proof (bpow_pos ey). field. split; lra. }
  clearbody m'. destruct (Z.div_eucl m' (Z.pos my)) as [q r].
  destruct Hspec as [Hqr Hr]. cbn [fst snd]. rewrite Hval.
  assert (Hq : (0 <= q)%Z) by nia.
  replace (IZR m' / IZR (Z.pos my)) with (IZR q + IZR r / IZR (Z.pos my)).
  - now apply new_location_located.
  - rewrite Hqr, plus_IZR, mult_IZR.
    assert (0 < IZR (Z.pos my)) by (apply IZR_lt; lia).
    field. lra.
Qed.

(** A quotient of a finite double by a non-zero finite one that is a normal
    double, or has a zero numerator, is the exact quotient rounded. *)
Lemma SFdiv_close (x y : spec_float) :
  SFfinite x = true -> SFfinite y = true -> SFzero y = false ->
  SFnormal (SFdiv prec emax x y) || SFzero x = true ->
  SFfinite (SFdiv prec emax x y) = true
  /\ close (SF2R (SFdiv prec emax x y)) (SF2R x / SF2R y).
Proof.
  intros Hx Hy Hy0 H.
  destruct x as [sx | sx | | sx mx ex], y as [sy | sy | | sy my ey];
    try discriminate; cbn [SFdiv SF2R SFfinite].
  - split; [ reflexivity | ]. unfold Rdiv. rewrite Rmult_0_l. apply close_refl.
  - cbn [SFzero SFdiv] in H. rewrite orb_false_r in H.
    pose proof (SFdiv_core_located mx my ex ey) as Hloc.
    destruct (SFdiv_core_binary prec emax (Z.pos mx) ex (Z.pos my) ey)
      as [[mz ez] lz].
    cbn [fst snd] in Hloc.
    destruct (binary_round_aux_spec (xorb sx sy) mz ez lz _ Hloc)
      as (m & e & Hm & HX & Heq).
    rewrite Heq in *. split; [ now apply SFnormal_finite | ].
    rewrite Rmult_assoc, <- bpow_add, Z.add_opp_diag_l, bpow_0, Rmult_1_r in HX.
    replace ((if sx then - IZR (Z.pos mx) else IZR (Z.pos mx)) * bpow ex
             / ((if sy then - IZR (Z.pos my) else IZR (Z.pos my)) * bpow ey))
      with (if xorb sx sy
            then - (IZR (Z.pos mx) * bpow ex / (IZR (Z.pos my) * bpow ey))
            else IZR (Z.pos mx) * bpow ex / (IZR (Z.pos my) * bpow ey)).
    + now apply rounded_close.
    + assert (0 < IZR (Z.pos my)) by (apply IZR_lt; lia).
      pose proof (bpow_pos ey).
      destruct sx, sy; cbn [xorb]; field; split; lra.
Qed.

(** *** The four operations on primitive doubles *)

Lemma mul_close (x y : float) :
  product_in_range x y = true ->
  finite_double (x * y) = true /\ close (real_of (x * y)) (real_of x * real_of y).
Proof.
  unfold product_in_range, finite_double, normal_double, zero_double, real_of.
  rewrite mul_spec. unfold SF64mul. intros H.
  apply andb_true_iff in H. destruct H as [H Hn].
  apply andb_true_iff in H. destruct H as [Hx Hy].
  now apply SFmul_close.
Qed.

Lemma add_close (s t : float) :
  sum_in_range s t = true ->
  finite_double (s + t) = true /\ close (real_of (s + t)) (real_of s + real_of t).
Proof.
  unfold sum_in_range, finite_double, normal_double, zero_double,
    opposite_doubles, real_of.
  rewrite add_spec. unfold SF64add. intros H.
  apply andb_true_iff in H. destruct H as [H Hn].
  apply andb_true_iff in H. destruct H as [Hx Hy].
  now apply SFadd_close.
Qed.

Lemma sqrt_close (x : float) :
  normal_double (PrimFloat.sqrt x) = true ->
  0 < real_of x /\ close (real_of (PrimFloat.sqrt x)) (sqrt (real_of x)).
Proof.
  unfold normal_double, real_of. rewrite sqrt_spec. unfold SF64sqrt. intros H.
  now destruct (SFsqrt_close _ H) as (_ & H0 & Hc).
Qed.

Lemma div_close (x y : float) :
  finite_double x = true -> normal_double y = true ->
  normal_double (x / y) || zero_double x = true ->
  finite_double (x / y) = true /\ close (real_of (x / y)) (real_of x / real_of y).
Proof.
  unfold finite_double, normal_double, zero_double, real_of.
  rewrite div_spec. unfold SF64div. intros Hx Hy H.
  apply SFdiv_close; try assumption.
  - now apply SFnormal_finite.
  - destruct (Prim2SF y); cbn in *; congruence.
Qed.

Lemma normal_value_pos (x : float) :
  normal_double x = true -> real_of x <> 0.
Proof.
  unfold normal_double, real_of. destruct (Prim2SF x) as [ | | | s m e]; cbn [SFnormal SF2R];
    try discriminate.
  intros _. assert (0 < IZR (Z.pos m)) by (apply IZR_lt; lia).
  pose proof (bpow_pos e). destruct s; nra.
Qed.

(** *** Rounding errors compounded *)

Lemma roundoff_small : roundoff < 1 / 2.
Proof.
  unfold roundoff. apply Rlt_le_trans with (bpow (-1)).
  - apply bpow_lt. lia.
  - rewrite bpow_m1. lra.
Qed.

Lemma alpha_spec : alpha * (1 - roundoff) = 1.
Proof. unfold alpha. pose proof roundoff_small. field. lra. Qed.

Lemma alpha_ge_1 : 1 <= alpha.
Proof.
  pose proof alpha_spec. pose proof roundoff_pos. pose proof roundoff_small.
  assert (0 < alpha) by (unfold alpha; apply Rinv_0_lt_compat; lra). nra.
Qed.

Lemma alpha_pow_ge_1 (n : nat) : 1 <= alpha ^ n.
Proof. apply pow_R1_Rle, alpha_ge_1. Qed.

Lemma close_bounds (r e : R) :
  close r e -> Rabs r <= alpha * Rabs e /\ Rabs (r - e) <= (alpha - 1) * Rabs e.
Proof.
  unfold close. intros H.
  pose proof alpha_spec as Ha. pose proof alpha_ge_1 as Ha1.
  pose proof roundoff_pos as Hu. pose proof roundoff_small as Hu1.
  assert (Ht : Rabs r <= Rabs e + Rabs (e - r)).
  { replace r with (e - (e - r)) at 1 by ring.
    eapply Rle_trans; [ apply Rabs_triang | ]. rewrite Rabs_Ropp. lra. }
  rewrite (Rabs_minus_sym r e).
  pose proof (Rabs_pos r). pose proof (Rabs_pos e). pose proof (Rabs_pos (e - r)).
  set (R0 := Rabs r) in *. set (E := Rabs e) in *. set (Dv := Rabs (e - r)) in *.
  clearbody R0 E Dv.
  assert (Hle : (1 - roundoff) * R0 <= E) by lra.
  assert (Hle2 : R0 <= alpha * E).
  { replace R0 with (alpha * ((1 - roundoff) * R0)) by (rewrite <- Rmult_assoc, Ha; ring).
    apply Rmult_le_compat_l; lra. }
  split; [ exact Hle2 | ].
  assert (Hle3 : roundoff * R0 <= roundoff * (alpha * E)) by (apply Rmult_le_compat_l; lra).
  assert (Hua : roundoff * alpha = alpha - 1) by lra.
  rewrite <- Rmult_assoc, Hua in Hle3. lra.
Qed.

Lemma close_nonneg (r e : R) :
  close r e -> 0 <= e -> (1 - roundoff) * e <= r <= alpha * e.
Proof.
  unfold close. intros H He.
  pose proof alpha_spec as Ha. pose proof alpha_ge_1 as Ha1.
  pose proof roundoff_pos as Hu. pose proof roundoff_small as Hu1.
  assert (Hr : 0 <= r).
  { destruct (Rle_lt_dec 0 r) as [ | Hneg ]; [ assumption | ].
    rewrite (Rabs_pos_eq (e - r)), (Rabs_left r) in H by lra. nra. }
  rewrite (Rabs_pos_eq r Hr) in H.
  assert (Hb : - (roundoff * r) <= e - r <= roundoff * r).
  { unfold Rabs in H. destruct (Rcase_abs (e - r)); lra. }
  split; [ nra | ].
  replace r with (alpha * ((1 - roundoff) * r)) by (rewrite <- Rmult_assoc, Ha; ring).
  apply Rmult_le_compat_l; lra.
Qed.

(** One step of the dot product: [p] is the rounded product [xy], [s1] the
    rounded sum of [s] and [p]; [D0] and [T0] are the exact sum and the sum of
    the magnitudes so far, [G - 1] the relative error so far. *)
Lemma dot_step (s p s1 D0 T0 G xy : R) :
  1 <= G ->
  Rabs (s - D0) <= T0 * (G - 1) -> Rabs D0 <= T0 ->
  Rabs (p - xy) <= (alpha - 1) * Rabs xy ->
  Rabs (s1 - (s + p)) <= (alpha - 1) * Rabs (s + p) ->
  Rabs (s1 - (D0 + xy)) <= (T0 + Rabs xy) * (G * (alpha * alpha) - 1)
  /\ Rabs (D0 + xy) <= T0 + Rabs xy.
Proof.
  intros HG Hs HD Hp Hs1. pose proof alpha_ge_1 as Ha.
  assert (A1 : Rabs (s1 - (D0 + xy))
               <= Rabs (s1 - (s + p)) + Rabs (s - D0) + Rabs (p - xy)).
  { replace (s1 - (D0 + xy)) with ((s1 - (s + p)) + ((s - D0) + (p - xy))) by ring.
    eapply Rle_trans; [ apply Rabs_triang | ].
    pose proof (Rabs_triang (s - D0) (p - xy)). lra. }
  assert (A2 : Rabs (s + p) <= Rabs D0 + Rabs (s - D0) + Rabs xy + Rabs (p - xy)).
  { replace (s + p) with ((D0 + (s - D0)) + (xy + (p - xy))) by ring.
    eapply Rle_trans; [ apply Rabs_triang | ].
    pose proof (Rabs_triang D0 (s - D0)). pose proof (Rabs_triang xy (p - xy)). lra. }
  assert (A3 : Rabs (D0 + xy) <= T0 + Rabs xy).
  { pose proof (Rabs_triang D0 xy). lra. }
  split; [ | exact A3 ].
  pose proof (Rabs_pos (s1 - (s + p))). pose proof (Rabs_pos (s - D0)).
  pose proof (Rabs_pos (p - xy)). pose proof (Rabs_pos (s + p)).
  pose proof (Rabs_pos D0). pose proof (Rabs_pos xy).
  set (e1 := Rabs (s1 - (s + p))) in *. set (e2 := Rabs (s - D0)) in *.
  set (e3 := Rabs (p - xy)) in *. set (n1 := Rabs (s + p)) in *.
  set (d := Rabs D0) in *. set (y := Rabs xy) in *.
  set (g := Rabs (s1 - (D0 + xy))) in *.
  clearbody e1 e2 e3 n1 d y g.
  assert (B1 : n1 <= T0 * G + alpha * y) by lra.
  assert (B2 : (alpha - 1) * n1 <= (alpha - 1) * (T0 * G + alpha * y)).
  { apply Rmult_le_compat_l; lra. }
  assert (B3 : 0 <= T0 * G * alpha * (alpha - 1)).
  { repeat apply Rmult_le_pos; lra. }
  assert (B4 : 0 <= y * (alpha * alpha) * (G - 1)).
  { repeat apply Rmult_le_pos; lra. }
  nra.
Qed.

(** The computed dot product is within [alpha^(2 n) - 1] times the sum of the
    magnitudes of the exact products from the exact dot product. *)
Lemma dot_run (l : list (float * float)) :
  forall (s : float) (D0 T0 G : R),
    sums_in_range s l = true -> finite_double s = true -> 1 <= G ->
    Rabs (real_of s - D0) <= T0 * (G - 1) -> Rabs D0 <= T0 ->
    finite_double (fold_left (fun s p => (s + fst p * snd p)%float) l s) = true
    /\ Rabs (real_of (fold_left (fun s p => (s + fst p * snd p)%float) l s)
             - (D0 + sum_of (fun p => real_of (fst p) * real_of (snd p)) l))
       <= (T0 + sum_of (fun p => Rabs (real_of (fst p) * real_of (snd p))) l)
          * (G * (alpha * alpha) ^ List.length l - 1).
Proof.
  induction l as [ | [x y] l IH ]; intros s D0 T0 G Hrun Hfin HG Hs HD.
  - cbn [fold_left sum_of List.length pow]. split; [ exact Hfin | ].
    rewrite !Rplus_0_r, Rmult_1_r. exact Hs.
  - cbn [sums_in_range] in Hrun.
    apply andb_true_iff in Hrun. destruct Hrun as [Hrun Hrest].
    apply andb_true_iff in Hrun. destruct Hrun as [Hprod Hsum].
    destruct (mul_close x y Hprod) as [_ Hp].
    destruct (add_close s (x * y) Hsum) as [Hfin1 Hs1].
    apply close_bounds in Hp, Hs1. destruct Hp as [_ Hp]. destruct Hs1 as [_ Hs1].
    destruct (dot_step _ _ _ D0 T0 G _ HG Hs HD Hp Hs1) as [Hnew HDnew].
    pose proof alpha_ge_1 as Ha.
    assert (HG' : 1 <= G * (alpha * alpha)) by nra.
    destruct (IH (s + x * y)%float _ _ _ Hrest Hfin1 HG' Hnew HDnew) as [Hf Hb].
    cbn [fold_left sum_of List.length pow fst snd].
    split; [ exact Hf | ].
    replace (D0 + (real_of x * real_of y
                   + sum_of (fun p => real_of (fst p) * real_of (snd p)) l))
      with (D0 + real_of x * real_of y
            + sum_of (fun p => real_of (fst p) * real_of (snd p)) l) by ring.
    replace (T0 + (Rabs (real_of x * real_of y)
                   + sum_of (fun p => Rabs (real_of (fst p) * real_of (snd p))) l))
      with (T0 + Rabs (real_of x * real_of y)
            + sum_of (fun p => Rabs (real_of (fst p) * real_of (snd p))) l) by ring.
    replace (G * (alpha * alpha * (alpha * alpha) ^ List.length l))
      with (G * (alpha * alpha) * (alpha * alpha) ^ List.length l) by ring.
    exact Hb.
Qed.

(** The computed sum of squares is the exact one, up to a factor between
    [(1 - 2^-53)^(2 n)] and [alpha^(2 n)]. *)
Lemma squares_run (v : list float) :
  forall (s : float) (A0 L H : R),
    sums_in_range s (squares v) = true ->
    0 <= A0 -> 0 <= L <= 1 -> 1 <= H ->
    L * A0 <= real_of s <= H * A0 ->
    L * ((1 - roundoff) * (1 - roundoff)) ^ List.length v
      * (A0 + sum_of (fun x => real_of x * real_of x) v)
    <= real_of (fold_left (fun s x => (s + x * x)%float) v s)
    <= H * (alpha * alpha) ^ List.length v
       * (A0 + sum_of (fun x => real_of x * real_of x) v).
Proof.
  induction v as [ | x v IH ]; intros s A0 L H Hrun HA HL HH Hs.
  - cbn [fold_left sum_of List.length pow]. rewrite !Rplus_0_r, !Rmult_1_r.
    exact Hs.
  - cbn [squares map sums_in_range] in Hrun. fold (squares v) in Hrun.
    apply andb_true_iff in Hrun. destruct Hrun as [Hrun Hrest].
    apply andb_true_iff in Hrun. destruct Hrun as [Hprod Hsum].
    destruct (mul_close x x Hprod) as [_ Hq].
    destruct (add_close s (x * x) Hsum) as [_ Hs1].
    pose proof alpha_ge_1 as Ha. pose proof roundoff_pos as Hu. pose proof roundoff_small as Hu1.
    assert (Hxx : 0 <= real_of x * real_of x) by nra.
    apply close_nonneg in Hq; [ | exact Hxx ].
    assert (Hs0 : 0 <= real_of s) by nra.
    apply close_nonneg in Hs1; [ | nra ].
    set (xx := real_of x * real_of x) in *. set (q := real_of (x * x)) in *.
    set (s1 := real_of (s + x * x)) in *. set (vs := real_of s) in *.
    assert (Hnew : L * ((1 - roundoff) * (1 - roundoff)) * (A0 + xx) <= s1
                   <= H * (alpha * alpha) * (A0 + xx)).
    { clearbody xx q s1 vs. split.
      - apply Rle_trans with ((1 - roundoff) * (L * A0 + (1 - roundoff) * xx)).
        + assert (0 <= L * A0 * roundoff * (1 - roundoff)) by (repeat apply Rmult_le_pos; lra).
          assert (0 <= (1 - L) * ((1 - roundoff) * (1 - roundoff)) * xx)
            by (repeat apply Rmult_le_pos; lra).
          nra.
        + apply Rle_trans with ((1 - roundoff) * (vs + q)); [ | lra ].
          apply Rmult_le_compat_l; lra.
      - apply Rle_trans with (alpha * (H * A0 + alpha * xx)).
        + apply Rle_trans with (alpha * (vs + q)); [ lra | ].
          apply Rmult_le_compat_l; lra.
        + assert (0 <= H * A0 * alpha * (alpha - 1))
            by (repeat apply Rmult_le_pos; lra).
          assert (0 <= (H - 1) * (alpha * alpha) * xx)
            by (repeat apply Rmult_le_pos; nra).
          nra. }
    assert (HL' : 0 <= L * ((1 - roundoff) * (1 - roundoff)) <= 1) by nra.
    assert (HH' : 1 <= H * (alpha * alpha)) by nra.
    assert (HA' : 0 <= A0 + xx) by lra.
    pose proof (IH (s + x * x)%float _ _ _ Hrest HA' HL' HH' Hnew) as Hb.
    cbn [fold_left sum_of List.length pow]. fold xx.
    replace (L * ((1 - roundoff) * (1 - roundoff) * ((1 - roundoff) * (1 - roundoff)) ^ List.length v)
             * (A0 + (xx + sum_of (fun x0 => real_of x0 * real_of x0) v)))
      with (L * ((1 - roundoff) * (1 - roundoff)) * ((1 - roundoff) * (1 - roundoff)) ^ List.length v
            * (A0 + xx + sum_of (fun x0 => real_of x0 * real_of x0) v)) by ring.
    replace (H * (alpha * alpha * (alpha * alpha) ^ List.length v)
             * (A0 + (xx + sum_of (fun x0 => real_of x0 * real_of x0) v)))
      with (H * (alpha * alpha) * (alpha * alpha) ^ List.length v
            * (A0 + xx + sum_of (fun x0 => real_of x0 * real_of x0) v)) by ring.
    exact Hb.
Qed.

Lemma sqrt_pow_sq (c : R) (n : nat) : 0 <= c -> sqrt ((c * c) ^ n) = c ^ n.
Proof.
  intros Hc. induction n as [ | n IH ]; cbn [pow].
  - apply sqrt_1.
  - rewrite sqrt_mult, sqrt_square, IH by (try apply pow_le; nra). reflexivity.
Qed.

Lemma magnitude_fold (v : list float) :
  magnitude v
  = PrimFloat.sqrt (fold_left (fun s x => (s + x * x)%float) v 0%float).
Proof.
  unfold magnitude, reduce.
  now rewrite (reduce_from_fold (fun s x => (s + x * x)%float)).
Qed.

Lemma real_of_zero : real_of 0%float = 0.
Proof. unfold real_of. rewrite Prim2SF_zero. reflexivity. Qed.

Lemma alpha_pow_spec (n : nat) : alpha ^ n * (1 - roundoff) ^ n = 1.
Proof. rewrite <- Rpow_mult_distr, alpha_spec. apply pow1. Qed.

Lemma magnitude_bounds (v : list float) :
  sums_in_range 0 (squares v) = true ->
  normal_double (magnitude v) = true ->
  0 < real_of (magnitude v)
  /\ (1 - roundoff) ^ S (List.length v) * sqrt (sum_of (fun x => real_of x * real_of x) v)
     <= real_of (magnitude v)
     <= alpha ^ S (List.length v) * sqrt (sum_of (fun x => real_of x * real_of x) v).
Proof.
  intros Hrun Hn. pose proof (normal_value_pos _ Hn) as Hne.
  rewrite magnitude_fold in *.
  destruct (sqrt_close _ Hn) as [Hpos Hc].
  pose proof alpha_ge_1 as Ha. pose proof roundoff_pos as Hu. pose proof roundoff_small as Hu1.
  pose proof (squares_run v 0%float 0 1 1 Hrun ltac:(lra) ltac:(lra) ltac:(lra)) as Hb.
  rewrite real_of_zero in Hb. specialize (Hb ltac:(lra)).
  rewrite !Rmult_1_l, !Rplus_0_l in Hb.
  set (S0 := real_of (fold_left (fun s x => (s + x * x)%float) v 0%float)) in *.
  set (A := sum_of (fun x => real_of x * real_of x) v) in *.
  assert (HA : 0 <= A) by (apply (sum_of_squares_nonneg real_of)).
  apply close_nonneg in Hc; [ | apply sqrt_pos ].
  destruct Hb as [Hlo Hhi].
  apply sqrt_le_1_alt in Hlo, Hhi.
  rewrite sqrt_mult, sqrt_pow_sq in Hlo, Hhi
    by (try apply pow_le; try exact HA; nra).
  set (M := real_of (PrimFloat.sqrt (fold_left (fun s x => (s + x * x)%float) v 0%float))) in *.
  assert (Hbounds : (1 - roundoff) ^ S (List.length v) * sqrt A <= M
                    <= alpha ^ S (List.length v) * sqrt A).
  { cbn [pow]. split.
    - apply Rle_trans with ((1 - roundoff) * sqrt S0); [ | lra ].
      rewrite Rmult_assoc. apply Rmult_le_compat_l; lra.
    - apply Rle_trans with (alpha * sqrt S0); [ lra | ].
      rewrite Rmult_assoc. apply Rmult_le_compat_l; lra. }
  split; [ | exact Hbounds ].
  assert (0 <= (1 - roundoff) ^ S (List.length v) * sqrt A).
  { apply Rmult_le_pos; [ apply pow_le; lra | apply sqrt_pos ]. }
  lra.
Qed.

Lemma sum_of_map {A B} (h : B -> R) (f : A -> B) (l : list A) :
  sum_of h (map f l) = sum_of (fun p => h (f p)) l.
Proof. induction l as [ | p l IH ]; cbn; [ reflexivity | now rewrite IH ]. Qed.

Lemma sum_of_ext {A} (h k : A -> R) (l : list A) :
  (forall p, h p = k p) -> sum_of h l = sum_of k l.
Proof.
  intros E. induction l as [ | p l IH ]; cbn; [ reflexivity | now rewrite E, IH ].
Qed.

Lemma combine_map_value (a b : list float) :
  combine (map real_of a) (map real_of b)
  = map (fun p => (real_of (fst p), real_of (snd p))) (combine a b).
Proof.
  revert b. induction a as [ | x a IH ]; intros [ | y b ]; cbn;
    try reflexivity. now rewrite IH.
Qed.

Lemma sum_of_abs_nonneg {A} (h : A -> R) (l : list A) :
  0 <= sum_of (fun p => Rabs (h p)) l.
Proof.
  induction l as [ | p l IH ]; cbn; [ lra | ].
  pose proof (Rabs_pos (h p)). lra.
Qed.

Lemma sum_of_abs_triangle {A} (h : A -> R) (l : list A) :
  Rabs (sum_of h l) <= sum_of (fun p => Rabs (h p)) l.
Proof.
  induction l as [ | p l IH ]; cbn.
  - rewrite Rabs_R0. lra.
  - eapply Rle_trans; [ apply Rabs_triang | ]. lra.
Qed.

Lemma cauchy_schwarz_abs (a b : list R) :
  List.length a = List.length b ->
  sum_of (fun p => Rabs (fst p * snd p)) (combine a b)
  <= sqrt (sum_of (fun x => x * x) a) * sqrt (sum_of (fun x => x * x) b).
Proof.
  intros Hlen.
  pose proof (cauchy_schwarz_pairs
                (map (fun p => (Rabs (fst p), Rabs (snd p))) (combine a b))) as CS.
  cbn zeta in CS. rewrite !sum_of_map in CS. cbn [fst snd] in CS.
  rewrite (sum_of_ext (fun p : R * R => Rabs (fst p) * Rabs (snd p))
             (fun p => Rabs (fst p * snd p))) in CS
    by (intros p; now rewrite Rabs_mult).
  rewrite (sum_of_ext (fun p : R * R => Rabs (fst p) * Rabs (fst p))
             (fun p => fst p * fst p)) in CS
    by (intros p; rewrite <- Rabs_mult; apply Rabs_pos_eq; nra).
  rewrite (sum_of_ext (fun p : R * R => Rabs (snd p) * Rabs (snd p))
             (fun p => snd p * snd p)) in CS
    by (intros p; rewrite <- Rabs_mult; apply Rabs_pos_eq; nra).
  rewrite (sum_of_combine_fst a b (fun x => x * x) Hlen) in CS.
  rewrite (sum_of_combine_snd a b (fun x => x * x) Hlen) in CS.
  pose proof (sum_of_abs_nonneg (fun p : R * R => fst p * snd p) (combine a b)) as HT.
  pose proof (sum_of_squares_nonneg (fun x : R => x) a) as HA.
  pose proof (sum_of_squares_nonneg (fun x : R => x) b) as HB.
  set (T := sum_of (fun p => Rabs (fst p * snd p)) (combine a b)) in *.
  set (A := sum_of (fun x => x * x) a) in *.
  set (B := sum_of (fun x => x * x) b) in *.
  pose proof (sqrt_pos A) as HsA. pose proof (sqrt_pos B) as HsB.
  pose proof (sqrt_sqrt A HA) as EA. pose proof (sqrt_sqrt B HB) as EB.
  set (sA := sqrt A) in *. set (sB := sqrt B) in *. clearbody T A B sA sB.
  assert (Hm : 0 <= sA * sB) by (apply Rmult_le_pos; assumption).
  assert (Hsq : (sA * sB) * (sA * sB) = A * B) by nra.
  apply Rnot_lt_le. intros Hlt.
  assert (sA * sB * (sA * sB) < T * T) by nra. lra.
Qed.

(** The quotient: [Dh] and [Ph] are the computed dot product and product of
    magnitudes, [D] and [P] the exact ones, [T] the sum of the magnitudes of the
    products, which is at most [P] by the Cauchy-Schwarz inequality. *)
Lemma quotient_error (g h Dh D T Ph P Q : R) :
  1 <= g -> 1 <= h ->
  Rabs (Dh - D) <= T * (g - 1) -> Rabs D <= T -> T <= P ->
  0 < Ph -> P <= h * Ph -> Ph <= h * P ->
  close Q (Dh / Ph) ->
  Rabs (D / P) <= 1 /\ Rabs (Q - D / P) <= alpha * (h * h) * g - 1.
Proof.
  intros Hg Hh HDh HD HT HPh HP1 HP2 HQ.
  pose proof alpha_ge_1 as Ha.
  assert (HP : 0 < P) by nra.
  assert (HX : Dh / Ph * Ph = Dh) by (field; lra).
  assert (HC : D / P * P = D) by (field; lra).
  set (X := Dh / Ph) in *. set (C := D / P) in *. clearbody X C.
  assert (HC1 : Rabs C <= 1).
  { assert (E : Rabs C * P = Rabs D).
    { rewrite <- HC, Rabs_mult, (Rabs_pos_eq P) by lra. reflexivity. }
    pose proof (Rabs_pos C). nra. }
  split; [ exact HC1 | ].
  assert (HPd : Rabs (P - Ph) <= h * (h - 1) * Ph).
  { apply Rabs_le. split; nra. }
  assert (HE : Rabs (X - C) * Ph <= h * (g + h - 2) * Ph).
  { assert (E : Rabs (X - C) * Ph = Rabs ((Dh - D) + C * (P - Ph))).
    { rewrite <- (Rabs_pos_eq Ph) at 1 by lra. rewrite <- Rabs_mult.
      f_equal. rewrite <- HX, <- HC at 1. ring. }
    rewrite E.
    eapply Rle_trans; [ apply Rabs_triang | ]. rewrite Rabs_mult.
    pose proof (Rabs_pos C). pose proof (Rabs_pos (P - Ph)).
    pose proof (Rabs_pos (Dh - D)).
    assert (Rabs C * Rabs (P - Ph) <= 1 * (h * (h - 1) * Ph)).
    { apply Rmult_le_compat; lra. }
    assert (T * (g - 1) <= h * Ph * (g - 1)).
    { apply Rmult_le_compat_r; lra. }
    nra. }
  assert (HE' : Rabs (X - C) <= h * (g + h - 2)).
  { apply Rmult_le_reg_r with Ph; [ exact HPh | exact HE ]. }
  apply close_bounds in HQ. destruct HQ as [_ HQ].
  assert (HXa : Rabs X <= 1 + Rabs (X - C)).
  { replace X with (C + (X - C)) at 1 by ring.
    eapply Rle_trans; [ apply Rabs_triang | ]. lra. }
  assert (Hfin : Rabs (Q - C) <= Rabs (Q - X) + Rabs (X - C)).
  { replace (Q - C) with ((Q - X) + (X - C)) by ring. apply Rabs_triang. }
  pose proof (Rabs_pos (X - C)). pose proof (Rabs_pos X). pose proof (Rabs_pos (Q - X)).
  set (E := Rabs (X - C)) in *. set (xa := Rabs X) in *.
  set (qx := Rabs (Q - X)) in *. set (qc := Rabs (Q - C)) in *.
  clearbody E xa qx qc.
  assert (B1 : qx <= (alpha - 1) * (1 + E)).
  { apply Rle_trans with ((alpha - 1) * xa); [ exact HQ | ].
    apply Rmult_le_compat_l; lra. }
  assert (B2 : alpha * E <= alpha * (h * (g + h - 2))).
  { apply Rmult_le_compat_l; lra. }
  assert (B3 : 0 <= (h - 1) * (h * g - (h - 1))) by (apply Rmult_le_pos; nra).
  assert (B4 : alpha * (1 + h * (g + h - 2)) <= alpha * (h * h * g)).
  { apply Rmult_le_compat_l; nra. }
  nra.
Qed.

Lemma similarity_error_eq (n : nat) :
  alpha * ((alpha * (alpha ^ S n * alpha ^ S n)) * (alpha * (alpha ^ S n * alpha ^ S n)))
    * (alpha * alpha) ^ n - 1
  = similarity_error n.
Proof.
  unfold similarity_error. fold alpha.
  replace (6 * n + 7)%nat
    with (1 + ((1 + (S n + S n)) + (1 + (S n + S n))) + (n + n))%nat by lia.
  rewrite !pow_add, pow_1, Rpow_mult_distr. reflexivity.
Qed.

(** The run in range: the computed cosine similarity is finite and within
    [similarity_error n] of the exact one, which lies in [-1, 1]. *)
Lemma cosineSimilarity_accurate (a b : list float) :
  in_range_run a b = true ->
  finite_double (cosineSimilarity a b) = true
  /\ -1 <= cosineSimilarity_exact (map real_of a) (map real_of b) <= 1
  /\ Rabs (real_of (cosineSimilarity a b)
           - cosineSimilarity_exact (map real_of a) (map real_of b))
     <= similarity_error (List.length a).
Proof.
  unfold in_range_run. intros H.
  repeat (apply andb_true_iff in H; let H' := fresh "Hc" in destruct H as [H H']).
  apply Nat.eqb_eq in H. rename H into Hlen.
  rename Hc into HnQ, Hc0 into HnP, Hc1 into HnB, Hc2 into HnA, Hc3 into HsB,
    Hc4 into HsA, Hc5 into Hdot.
  pose proof alpha_ge_1 as Ha. pose proof roundoff_pos as Hu. pose proof roundoff_small as Hu1.
  set (n := List.length a) in *.
  assert (Hz : Rabs (real_of 0%float - 0) <= 0 * (1 - 1)).
  { rewrite real_of_zero, Rminus_diag, Rabs_R0. lra. }
  assert (Hz' : Rabs 0 <= 0) by (rewrite Rabs_R0; lra).
  destruct (dot_run (combine a b) 0%float 0 0 1 Hdot eq_refl ltac:(lra) Hz Hz')
    as [HfD HD].
  rewrite <- (dotProduct_combine a b Hlen) in HfD, HD.
  rewrite length_combine, <- Hlen, Nat.min_id in HD. fold n in HD.
  rewrite !Rplus_0_l, Rmult_1_l in HD.
  destruct (magnitude_bounds a HsA HnA) as [HM1 [HM1lo HM1hi]].
  destruct (magnitude_bounds b HsB HnB) as [HM2 [HM2lo HM2hi]].
  rewrite <- Hlen in HM2lo, HM2hi. fold n in HM1lo, HM1hi, HM2lo, HM2hi.
  assert (Hprod : product_in_range (magnitude a) (magnitude b) = true).
  { unfold product_in_range, finite_double.
    rewrite (SFnormal_finite _ HnA), (SFnormal_finite _ HnB), HnP. reflexivity. }
  destruct (mul_close _ _ Hprod) as [_ HP].
  apply close_nonneg in HP; [ | nra ].
  unfold cosineSimilarity.
  destruct (div_close _ _ HfD HnP HnQ) as [HfQ HQ].
  split; [ exact HfQ | ].
  unfold cosineSimilarity_exact.
  rewrite (dotProduct_exact_sum (map real_of a) (map real_of b))
    by (rewrite !length_map; exact Hlen).
  rewrite !magnitude_exact_sum.
  pose proof (cauchy_schwarz_abs (map real_of a) (map real_of b)
                ltac:(rewrite !length_map; exact Hlen)) as CS.
  rewrite combine_map_value, !sum_of_map in *. cbn [fst snd] in *.
  pose proof (sum_of_abs_triangle (fun p => real_of (fst p) * real_of (snd p))
                (combine a b)) as Htri.
  set (D := sum_of (fun p => real_of (fst p) * real_of (snd p)) (combine a b)) in *.
  set (T := sum_of (fun p => Rabs (real_of (fst p) * real_of (snd p))) (combine a b)) in *.
  set (sA := sqrt (sum_of (fun x => real_of x * real_of x) a)) in *.
  set (sB := sqrt (sum_of (fun x => real_of x * real_of x) b)) in *.
  set (Dh := real_of (dotProduct a b)) in *.
  set (M1 := real_of (magnitude a)) in *. set (M2 := real_of (magnitude b)) in *.
  set (Ph := real_of (magnitude a * magnitude b)) in *.
  set (Q := real_of (dotProduct a b / (magnitude a * magnitude b))) in *.
  assert (HsA0 : 0 <= sA) by apply sqrt_pos.
  assert (HsB0 : 0 <= sB) by apply sqrt_pos.
  pose proof (alpha_pow_ge_1 (S n)) as Hk.
  pose proof (alpha_pow_spec (S n)) as Hkk.
  assert (Hl0 : 0 < (1 - roundoff) ^ S n) by (apply pow_lt; lra).
  set (k := alpha ^ S n) in *. set (l := (1 - roundoff) ^ S n) in *.
  assert (Hkdef : k = alpha ^ S n) by reflexivity.
  clearbody D T sA sB Dh M1 M2 Ph Q k l.
  assert (Hlo : (1 - roundoff) * (l * l) * (sA * sB) <= Ph).
  { apply Rle_trans with ((1 - roundoff) * (M1 * M2)); [ | lra ].
    rewrite Rmult_assoc. apply Rmult_le_compat_l; [ lra | ].
    replace (l * l * (sA * sB)) with ((l * sA) * (l * sB)) by ring.
    apply Rmult_le_compat; try lra; apply Rmult_le_pos; lra. }
  assert (Hhi : Ph <= alpha * (k * k) * (sA * sB)).
  { apply Rle_trans with (alpha * (M1 * M2)); [ lra | ].
    rewrite Rmult_assoc. apply Rmult_le_compat_l; [ lra | ].
    replace (k * k * (sA * sB)) with ((k * sA) * (k * sB)) by ring.
    apply Rmult_le_compat; lra. }
  assert (HPh : 0 < Ph).
  { assert (0 < (1 - roundoff) * (M1 * M2))
      by (repeat apply Rmult_lt_0_compat; lra).
    lra. }
  assert (Hinv : alpha * (k * k) * ((1 - roundoff) * (l * l)) = 1).
  { replace (alpha * (k * k) * ((1 - roundoff) * (l * l)))
      with ((alpha * (1 - roundoff)) * ((k * l) * (k * l))) by ring.
    rewrite alpha_spec, Hkk. ring. }
  assert (Hh : 1 <= alpha * (k * k)) by nra.
  assert (HP1 : sA * sB <= alpha * (k * k) * Ph).
  { replace (sA * sB) with (alpha * (k * k) * ((1 - roundoff) * (l * l) * (sA * sB)))
      by (rewrite <- Rmult_assoc, Hinv; ring).
    apply Rmult_le_compat_l; lra. }
  assert (Hg : 1 <= (alpha * alpha) ^ n) by (apply pow_R1_Rle; nra).
  destruct (quotient_error ((alpha * alpha) ^ n) (alpha * (k * k)) Dh D T Ph
              (sA * sB) Q Hg Hh HD Htri CS HPh HP1 Hhi HQ) as [HC HE].
  split.
  - unfold Rabs in HC. destruct (Rcase_abs (D / (sA * sB))); lra.
  - rewrite Hkdef, similarity_error_eq in HE. exact HE.
Qed.

(** [similarity_error] is little more than linear in the length. *)
Lemma bernoulli_down (k : nat) : 1 - INR k * roundoff <= (1 - roundoff) ^ k.
Proof.
  pose proof roundoff_pos as Hu. pose proof roundoff_small as Hu1.
  induction k as [ | k IH ].
  - cbn. lra.
  - rewrite S_INR. cbn [pow]. pose proof (pos_INR k) as Hk.
    apply Rle_trans with ((1 - roundoff) * (1 - INR k * roundoff)); [ nra | ].
    apply Rmult_le_compat_l; lra.
Qed.

Lemma alpha_pow_linear (k : nat) :
  INR k * roundoff <= 1 / 2 -> alpha ^ k - 1 <= 2 * INR k * roundoff.
Proof.
  intros Hk. pose proof (bernoulli_down k) as Hb.
  pose proof (alpha_pow_spec k) as Hs. pose proof (alpha_pow_ge_1 k) as Ha.
  pose proof (pos_INR k) as Hk0. pose proof roundoff_pos as Hu.
  set (w := (1 - roundoff) ^ k) in *. set (A := alpha ^ k) in *.
  set (t := INR k * roundoff) in *.
  replace (2 * INR k * roundoff) with (2 * t) by (unfold t; ring).
  assert (Ht : 0 <= t) by (unfold t; apply Rmult_le_pos; lra).
  clearbody w A t.
  assert (H1 : 1 <= (1 + 2 * t) * w) by nra.
  assert (H2 : A * 1 <= A * ((1 + 2 * t) * w)) by (apply Rmult_le_compat_l; lra).
  replace (A * ((1 + 2 * t) * w)) with ((A * w) * (1 + 2 * t)) in H2 by ring.
  rewrite Hs in H2. lra.
Qed.

Lemma roundoff_eq : roundoff = / 9007199254740992.
Proof.
  unfold roundoff. change (-53)%Z with (- (53))%Z. rewrite bpow_opp, bpow_IZR by lia.
  reflexivity.
Qed.

(** Runs in range, among them one that cancels exactly and one with zero
    products; and runs out of range, where the result need not be near the
    exact quotient: the square of [2^600] overflows and the result is [0], the
    square of [0x1.3p-537] is a subnormal double and the result is [1.1875]. *)
Example in_range_example :
  in_range_run [1; 1; 1]%float [1; 1; 1]%float = true
  /\ in_range_run [0.1; 0.7; -0.3]%float [0.5; 0.2; 0.9]%float = true
  /\ in_range_run [1; 1]%float [1; -1]%float = true
  /\ in_range_run [1; 0]%float [0; 1]%float = true
  /\ in_range_run [0; 0]%float [3; 4]%float = false
  /\ in_range_run [0x1p600]%float [1]%float = false
  /\ cosineSimilarity [0x1p600]%float [1]%float = 0%float
  /\ in_range_run [0x1.3p-537]%float [1]%float = false
  /\ cosineSimilarity [0x1.3p-537]%float [1]%float = 1.1875%float.
Proof. vm_compute. repeat split. Qed.

Local Close Scope R_scope.

(** C2, as the code has it: the reply's [cosine_similarity] is the quotient
    computed from the provider's first two vectors and nothing else; when
    either vector is all-zero the unguarded division yields [NaN], which is
    outside [-1, 1]; for non-zero vectors of equal length the quotient lies in
    [-1, 1] when evaluated over the reals; and when no product, sum, square
    root or quotient of the run overflows or underflows, the double the handler
    computes is finite and differs from that exact quotient of its inputs by
    at most [similarity_error n], so that it lies within
    [1 + similarity_error n] of zero, where [similarity_error n] is at most
    [2 * (6 n + 7) * 2^-53] as long as [(6 n + 7) * 2^-53] is at most a half. *)
Theorem cosineSimilarity_range :
  (forall Number_toString openai req_body p,
     body (reply (post_api_embeddings_similarity Number_toString openai
                    req_body)) = Payload p ->
     exists r item1 item2 rest,
       embeddings_create openai (similarity_params req_body) = inr r
       /\ data r = item1 :: item2 :: rest
       /\ cosine_similarity p
          = cosineSimilarity (embedding item1) (embedding item2))
  /\ (forall a b : list float,
        all_zero a = true \/ all_zero b = true ->
        cosineSimilarity a b = nan
        /\ in_unit_range (cosineSimilarity a b) = false)
  /\ (forall a b : list R,
        List.length a = List.length b ->
        (exists x, In x a /\ x <> 0%R) ->
        (exists y, In y b /\ y <> 0%R) ->
        (-1 <= cosineSimilarity_exact a b <= 1)%R)
  /\ (forall a b : list float,
        in_range_run a b = true ->
        finite_double (cosineSimilarity a b) = true
        /\ (-1 <= cosineSimilarity_exact (map real_of a) (map real_of b) <= 1)%R
        /\ (Rabs (real_of (cosineSimilarity a b)
                  - cosineSimilarity_exact (map real_of a) (map real_of b))
            <= similarity_error (List.length a))%R
        /\ (Rabs (real_of (cosineSimilarity a b))
            <= 1 + similarity_error (List.length a))%R)
  /\ (forall n : nat,
        (INR (6 * n + 7) * roundoff <= 1 / 2)%R ->
        (similarity_error n <= 2 * INR (6 * n + 7) * roundoff)%R).
Proof.
  split; [ | split; [ | split; [ | split ] ] ].
  - intros nts openai req_body p.
    destruct (truthy (get "text1" req_body)) eqn:H1;
      [ destruct (truthy (get "text2" req_body)) eqn:H2 | ].
    + rewrite (similarity_calls_provider nts openai req_body H1 H2).
      unfold reply; cbn [fst].
      destruct (embeddings_create openai (similarity_params req_body))
        as [e | r]; [ discriminate | ].
      destruct (data r) as [ | item1 [ | item2 rest ] ] eqn:Hdata;
        try discriminate.
      intros [= <-]. exists r, item1, item2, rest.
      split; [ reflexivity | split; [ exact Hdata | reflexivity ] ].
    + destruct (similarity_rejects_falsy nts openai req_body (or_intror H2))
        as (_ & Hb & _).
      rewrite Hb. discriminate.
    + destruct (similarity_rejects_falsy nts openai req_body (or_introl H1))
        as (_ & Hb & _).
      rewrite Hb. discriminate.
  - intros a b H. rewrite (cosineSimilarity_zero_vector a b H).
    split; reflexivity.
  - exact cosineSimilarity_exact_bounded.
  - intros a b H.
    destruct (cosineSimilarity_accurate a b H) as (Hfin & Hexact & Herr).
    split; [ exact Hfin | ]. split; [ exact Hexact | ].
    split; [ exact Herr | ].
    replace (real_of (cosineSimilarity a b))
      with (cosineSimilarity_exact (map real_of a) (map real_of b)
            + (real_of (cosineSimilarity a b)
               - cosineSimilarity_exact (map real_of a) (map real_of b)))%R
      by ring.
    eapply Rle_trans; [ apply Rabs_triang | ].
    apply Rplus_le_compat; [ | exact Herr ].
    apply Rabs_le. exact Hexact.
  - intros n Hn. unfold similarity_error. fold alpha.
    now apply alpha_pow_linear.
Qed.

Lemma cosineSimilarity_range_witness :
  (exists r item1 item2 rest,
     embeddings_create (embedding_provider [[1]; [0; 1]]%float)
       (similarity_params [("text1", VStr "cat"); ("text2", VStr "dog")])
     = inr r
     /\ data r = item1 :: item2 :: rest
     /\ cosineSimilarity [1]%float [0; 1]%float
        = cosineSimilarity (embedding item1) (embedding item2))
  /\ cosineSimilarity [0; 0]%float [3; 4]%float = nan
  /\ (-1 <= cosineSimilarity_exact [3; 4]%R [4; 3]%R <= 1)%R
  /\ (in_range_run [1; 1; 1]%float [1; 1; 1]%float = true
      /\ finite_double (cosineSimilarity [1; 1; 1] [1; 1; 1])%float = true
      /\ (Rabs (real_of (cosineSimilarity [1; 1; 1] [1; 1; 1])%float
                - cosineSimilarity_exact (map real_of [1; 1; 1]%float)
                    (map real_of [1; 1; 1]%float))
          <= similarity_error 3)%R)
  /\ (similarity_error 1536 <= 2 * INR (6 * 1536 + 7) * roundoff)%R.
Proof.
  split; [ | split; [ | split; [ | split ] ] ].
  - apply (proj1 cosineSimilarity_range no_exponent
             (embedding_provider [[1]; [0; 1]]%float)
             [("text1", VStr "cat"); ("text2", VStr "dog")]
             (similarity_payload no_exponent
                [("text1", VStr "cat"); ("text2", VStr "dog")]
                [1]%float [0; 1]%float
                {| data := embedding_items [[1]; [0; 1]]%float;
                   embeddings_model := "text-embedding-ada-002";
                   embeddings_object := "list";
                   embeddings_usage := VNull |})).
    reflexivity.
  - apply (proj1 (proj2 cosineSimilarity_range) [0; 0]%float [3; 4]%float).
    left. reflexivity.
  - apply (proj1 (proj2 (proj2 cosineSimilarity_range)) [3; 4]%R [4; 3]%R).
    + reflexivity.
    + exists 3%R. split; [ left; reflexivity | lra ].
    + exists 4%R. split; [ left; reflexivity | lra ].
  - split; [ vm_compute; reflexivity | ].
    destruct (proj1 (proj2 (proj2 (proj2 cosineSimilarity_range)))
                [1; 1; 1]%float [1; 1; 1]%float)
      as (Hfin & _ & Herr & _); [ vm_compute; reflexivity | ].
    split; [ exact Hfin | exact Herr ].
  - apply (proj2 (proj2 (proj2 (proj2 cosineSimilarity_range))) 1536%nat).
    rewrite INR_IZR_INZ, roundoff_eq.
    change (Z.of_nat (6 * 1536 + 7)) with 9223%Z. lra.
Defined.

(** C2 as stated fails: the vector (1, 1, 1) is not all-zero, and its cosine
    similarity with itself is computed as 1.0000000000000002 (the square root
    of 3 squared rounds to 2.9999999999999996); with (2^600) the squares
    overflow and the result is [NaN]; with (2^-600) against (1) the square
    underflows to zero and the result is [Infinity]. *)
Lemma cosineSimilarity_leaves_unit_range :
  all_zero [1; 1; 1]%float = false
  /\ cosineSimilarity [1; 1; 1]%float [1; 1; 1]%float
     = 0x1.0000000000001p+0%float
  /\ in_unit_range (cosineSimilarity [1; 1; 1] [1; 1; 1])%float = false
  /\ all_zero [0x1p600]%float = false
  /\ cosineSimilarity [0x1p600]%float [0x1p600]%float = nan
  /\ all_zero [0x1p-600]%float = false
  /\ all_zero [1]%float = false
  /\ cosineSimilarity [0x1p-600]%float [1]%float = infinity.
Proof. repeat split. Qed.

(** ** The percentage string *)

Lemma append_assoc (s t u : string) : (s ++ t) ++ u = s ++ t ++ u.
Proof. induction s as [ | c s IH ]; cbn; [ reflexivity | now rewrite IH ]. Qed.

Lemma digits_fuel_acc (fuel : nat) (n : Z) (acc : string) :
  digits_fuel fuel n acc = digits_fuel fuel n "" ++ acc.
Proof.
  revert n acc. induction fuel as [ | fuel IH ]; intros n acc; cbn;
    [ reflexivity | ].
  destruct (n <? 10)%Z; [ reflexivity | ].
  rewrite IH, (IH _ (String _ "")), append_assoc. reflexivity.
Qed.

Lemma digits_fuel_enough (f1 f2 : nat) (n : Z) (acc : string) :
  (0 <= n < 2 ^ Z.of_nat (S f1))%Z -> (n < 2 ^ Z.of_nat (S f2))%Z ->
  digits_fuel (S f1) n acc = digits_fuel (S f2) n acc.
Proof.
  revert f2 n acc. induction f1 as [ | f1 IH ]; intros f2 n acc H1 H2.
  - cbn. destruct (Z.ltb_spec n 10); [ reflexivity | ].
    change (2 ^ Z.of_nat 1)%Z with 2%Z in H1. lia.
  - cbn [digits_fuel]. destruct (Z.ltb_spec n 10) as [Hlt | Hge];
      [ reflexivity | ].
    assert (Hdiv : (0 <= n / 10 < 2 ^ Z.of_nat (S f1))%Z).
    { split; [ apply Z.div_pos; lia | ].
      apply Z.div_lt_upper_bound; [ lia | ].
      rewrite (Nat2Z.inj_succ (S f1)), Z.pow_succ_r in H1 by lia. lia. }
    destruct f2 as [ | f2 ].
    + change (2 ^ Z.of_nat 1)%Z with 2%Z in H2. lia.
    + apply IH; [ exact Hdiv | ].
      apply Z.div_lt_upper_bound; [ lia | ].
      rewrite (Nat2Z.inj_succ (S f2)), Z.pow_succ_r in H2 by lia. lia.
Qed.

Lemma log2_fuel (n : Z) :
  (0 <= n)%Z -> (n < 2 ^ Z.of_nat (S (Z.to_nat (Z.log2 n))))%Z.
Proof.
  intros Hn. rewrite Nat2Z.inj_succ, Z2Nat.id by apply Z.log2_nonneg.
  destruct (Z.eq_dec n 0) as [-> | Hnz]; [ reflexivity | ].
  apply Z.log2_spec. lia.
Qed.

Lemma decimal_digits_small (n : Z) :
  (0 <= n < 10)%Z -> decimal_digits n = String (digit_char n) "".
Proof.
  intros H. unfold decimal_digits. cbn [digits_fuel].
  destruct (Z.ltb_spec n 10); [ | lia ].
  now rewrite Z.mod_small by lia.
Qed.

Lemma decimal_digits_step (n : Z) :
  (10 <= n)%Z ->
  decimal_digits n
  = decimal_digits (n / 10) ++ String (digit_char (n mod 10)) "".
Proof.
  intros H. unfold decimal_digits.
  assert (Hq : (0 <= n / 10)%Z) by (apply Z.div_pos; lia).
  pose proof (log2_fuel n ltac:(lia)) as Hn.
  pose proof (log2_fuel (n / 10) Hq) as Hd.
  set (f := Z.to_nat (Z.log2 n)) in *.
  cbn [digits_fuel]. destruct (Z.ltb_spec n 10); [ lia | ].
  rewrite digits_fuel_acc.
  destruct f as [ | f ]; [ change (2 ^ Z.of_nat 1)%Z with 2%Z in Hn; lia | ].
  f_equal. apply digits_fuel_enough; [ | exact Hd ].
  split; [ exact Hq | ].
  apply Z.div_lt_upper_bound; [ lia | ].
  rewrite (Nat2Z.inj_succ (S f)), Z.pow_succ_r in Hn by lia. lia.
Qed.

Lemma length_append (s t : string) :
  String.length (s ++ t) = (String.length s + String.length t)%nat.
Proof. induction s as [ | c s IH ]; cbn; [ reflexivity | now rewrite IH ]. Qed.

Lemma substring_whole (t : string) : substring 0 (String.length t) t = t.
Proof. induction t as [ | c t IH ]; cbn; [ reflexivity | now rewrite IH ]. Qed.

Lemma substring_append_l (s t : string) :
  substring 0 (String.length s) (s ++ t) = s.
Proof.
  induction s as [ | c s IH ]; cbn; [ now destruct t | now rewrite IH ].
Qed.

Lemma substring_append_r (s t : string) :
  substring (String.length s) (String.length t) (s ++ t) = t.
Proof.
  induction s as [ | c s IH ]; cbn; [ apply substring_whole | exact IH ].
Qed.

Lemma decimal_digits_nonempty (n : Z) : (1 <= String.length (decimal_digits n))%nat.
Proof.
  unfold decimal_digits. cbn [digits_fuel].
  destruct (n <? 10)%Z; [ cbn; lia | ].
  rewrite digits_fuel_acc, length_append. cbn. lia.
Qed.

(** With two fraction digits the integer part is [n / 100] and the fraction
    is the last two digits of [n]. *)
Lemma fixed_string_two (n : Z) :
  (0 <= n)%Z ->
  fixed_string 2 n
  = decimal_digits (n / 100) ++ "."
    ++ String (digit_char ((n / 10) mod 10)) (String (digit_char (n mod 10)) "").
Proof.
  intros Hn. unfold fixed_string.
  destruct (Z.lt_ge_cases n 10) as [H10 | H10].
  - rewrite (decimal_digits_small n) by lia.
    rewrite (Z.div_small n 100), (Z.div_small n 10), (Z.mod_small n 10)
      by lia.
    reflexivity.
  - rewrite (decimal_digits_step n H10).
    destruct (Z.lt_ge_cases n 100) as [H100 | H100].
    + rewrite (decimal_digits_small (n / 10))
        by (split; [ apply Z.div_pos; lia | apply Z.div_lt_upper_bound; lia ]).
      rewrite (Z.div_small n 100) by lia.
      rewrite (Z.mod_small (n / 10) 10)
        by (split; [ apply Z.div_pos; lia | apply Z.div_lt_upper_bound; lia ]).
      reflexivity.
    + assert (H10' : (10 <= n / 10)%Z) by (apply Z.div_le_lower_bound; lia).
      rewrite (decimal_digits_step (n / 10) H10').
      rewrite Z.div_div by lia. change (10 * 10)%Z with 100%Z.
      set (s := decimal_digits (n / 100)).
      set (c1 := digit_char ((n / 10) mod 10)).
      set (c2 := digit_char (n mod 10)).
      rewrite append_assoc. cbn [append].
      pose proof (decimal_digits_nonempty (n / 100)) as Hs. fold s in Hs.
      assert (Hk : String.length (s ++ String c1 (String c2 "")) =
                   (String.length s + 2)%nat)
        by (rewrite length_append; reflexivity).
      rewrite Hk.
      destruct (Nat.leb_spec (String.length s + 2) 2) as [Hle | _]; [ lia | ].
      rewrite Hk.
      replace (String.length s + 2 - 2)%nat with (String.length s) by lia.
      rewrite substring_append_l.
      change 2%nat with (String.length (String c1 (String c2 ""))) at 1.
      rewrite substring_append_r. reflexivity.
Qed.

Lemma scaled_round_nearest (m : positive) (e : Z) :
  (0 <= scaled_round 2 m e)%Z
  /\ (- (1 / 2) < IZR (scaled_round 2 m e) - hundredths_of m e <= 1 / 2)%R.
Proof.
  unfold scaled_round, hundredths_of.
  change (10 ^ Z.of_nat 2)%Z with 100%Z.
  destruct (Z.leb_spec 0 e) as [He | He].
  - split; [ apply Z.mul_nonneg_nonneg; [ lia | apply Z.pow_nonneg; lia ] | ].
    rewrite !mult_IZR. lra.
  - set (d := (2 ^ (- e))%Z).
    assert (Hd : (0 < d)%Z) by (apply Z.pow_pos_nonneg; lia).
    set (n := ((2 * (Z.pos m * 100) + d) / (2 * d))%Z).
    assert (Hdiv : (2 * d * n <= 2 * (Z.pos m * 100) + d < 2 * d * n + 2 * d)%Z).
    { pose proof (Z.div_mod (2 * (Z.pos m * 100) + d) (2 * d) ltac:(lia)) as E.
      pose proof (Z.mod_pos_bound (2 * (Z.pos m * 100) + d) (2 * d) ltac:(lia)) as B.
      fold n in E.
      set (r := ((2 * (Z.pos m * 100) + d) mod (2 * d))%Z) in *.
      clearbody r n d. lia. }
    split; [ apply Z.div_pos; lia | ].
    clearbody n d. destruct Hdiv as [Hlo Hhi].
    apply IZR_le in Hlo. apply IZR_lt in Hhi.
    repeat (rewrite plus_IZR in Hlo || rewrite mult_IZR in Hlo).
    repeat (rewrite plus_IZR in Hhi || rewrite mult_IZR in Hhi).
    assert (HdR : (0 < IZR d)%R) by (apply IZR_lt in Hd; exact Hd).
    assert (E : (IZR n - 100 * IZR (Z.pos m) * / IZR d
                 = (IZR n * IZR d - 100 * IZR (Z.pos m)) / IZR d)%R)
      by (field; lra).
    rewrite E. split.
    + apply (Rmult_lt_reg_r (IZR d)); [ exact HdR | ].
      unfold Rdiv at 2. rewrite Rmult_assoc, Rinv_l by lra. lra.
    + apply (Rmult_le_reg_r (IZR d)); [ exact HdR | ].
      unfold Rdiv at 1. rewrite Rmult_assoc, Rinv_l by lra. lra.
Qed.

Example toFixed_examples (Number_toString : float -> string) :
  map (toFixed Number_toString 2)
    [87.65432; 0.125; 1.005; 100; 0; (-0); (-0.001); (-1.5); nan; infinity]%float
  = ["87.65"; "0.13"; "1.00"; "100.00"; "0.00"; "0.00"; "-0.00"; "-1.50";
     "NaN"; "Infinity"].
Proof. vm_compute. reflexivity. Qed.

Lemma toFixed_two_finite (Number_toString : float -> string) (x : float)
  (s : bool) (m : positive) (e : Z) :
  Prim2SF x = S754_finite s m e ->
  at_least_1e21 m e = false ->
  toFixed Number_toString 2 x
  = (if s then "-" else "")
    ++ decimal_digits (scaled_round 2 m e / 100) ++ "."
    ++ String (digit_char ((scaled_round 2 m e / 10) mod 10))
         (String (digit_char (scaled_round 2 m e mod 10)) "").
Proof.
  intros Hx Hsmall. unfold toFixed. rewrite Hx, Hsmall.
  now rewrite fixed_string_two by apply scaled_round_nearest.
Qed.

Lemma similarity_percentage_is_toFixed (Number_toString : float -> string)
  (openai : Provider) (req_body : ReqBody) (p : SimilarityReply) :
  body (reply (post_api_embeddings_similarity Number_toString openai
                 req_body)) = Payload p ->
  similarity_percentage p
  = toFixed Number_toString 2 (cosine_similarity p * 100)%float ++ "%".
Proof.
  destruct (truthy (get "text1" req_body)) eqn:H1;
    [ destruct (truthy (get "text2" req_body)) eqn:H2 | ].
  - rewrite (similarity_calls_provider _ openai req_body H1 H2).
    unfold reply; cbn [fst].
    destruct (embeddings_create openai (similarity_params req_body))
      as [e | r]; [ discriminate | ].
    destruct (data r) as [ | item1 [ | item2 rest ] ]; try discriminate.
    intros [= <-]. reflexivity.
  - destruct (similarity_rejects_falsy Number_toString openai req_body
                (or_intror H2)) as (_ & Hb & _).
    rewrite Hb. discriminate.
  - destruct (similarity_rejects_falsy Number_toString openai req_body
                (or_introl H1)) as (_ & Hb & _).
    rewrite Hb. discriminate.
Qed.

(** C4, as the code has it: in every 200 reply of /api/embeddings/similarity,
    [similarity_percentage] is [(cosine_similarity * 100).toFixed(2) + "%"].
    When that product is a finite double [m * 2^e] below 10^21 in magnitude,
    the string is an optional minus sign, the integer digits, a point and
    exactly two decimals, spelling the integer [n] nearest to a hundred times
    the magnitude (the larger one on a tie), then "%"; a zero gives "0.00%";
    [NaN] gives "NaN%" and an infinity "Infinity%" or "-Infinity%".
    For example 0.8765432 gives "87.65%". *)
Theorem similarity_percentage_format (Number_toString : float -> string)
  (openai : Provider) (req_body : ReqBody) (p : SimilarityReply) :
  body (reply (post_api_embeddings_similarity Number_toString openai
                 req_body)) = Payload p ->
  similarity_percentage p
  = toFixed Number_toString 2 (cosine_similarity p * 100)%float ++ "%"
  /\ (forall s m e,
        Prim2SF (cosine_similarity p * 100)%float = S754_finite s m e ->
        at_least_1e21 m e = false ->
        exists n,
          (0 <= n)%Z
          /\ (- (1 / 2) < IZR n - hundredths_of m e <= 1 / 2)%R
          /\ similarity_percentage p
             = (if s then "-" else "")
               ++ decimal_digits (n / 100) ++ "."
               ++ String (digit_char ((n / 10) mod 10))
                    (String (digit_char (n mod 10)) "%")
          /\ two_decimals_percent (similarity_percentage p))
  /\ (forall s,
        Prim2SF (cosine_similarity p * 100)%float = S754_zero s ->
        similarity_percentage p = "0.00%")
  /\ (Prim2SF (cosine_similarity p * 100)%float = S754_nan ->
      similarity_percentage p = "NaN%")
  /\ (forall s,
        Prim2SF (cosine_similarity p * 100)%float = S754_infinity s ->
        similarity_percentage p = if s then "-Infinity%" else "Infinity%")
  /\ toFixed Number_toString 2 (0.8765432 * 100)%float ++ "%" = "87.65%".
Proof.
  intros Hp.
  pose proof (similarity_percentage_is_toFixed _ _ _ _ Hp) as E.
  split; [ exact E | ].
  split; [ | split; [ | split; [ | split ] ] ].
  - intros s m e Hx Hsmall. exists (scaled_round 2 m e).
    destruct (scaled_round_nearest m e) as [Hn Hr].
    split; [ exact Hn | ]. split; [ exact Hr | ].
    rewrite E, (toFixed_two_finite _ _ s m e Hx Hsmall).
    rewrite !append_assoc. split; [ reflexivity | ].
    exists ((if s then "-" else "")
            ++ decimal_digits (scaled_round 2 m e / 100)).
    eexists. eexists. rewrite append_assoc. reflexivity.
  - intros s Hx. rewrite E. unfold toFixed. rewrite Hx. reflexivity.
  - intros Hx. rewrite E. unfold toFixed. rewrite Hx. reflexivity.
  - intros s Hx. rewrite E. unfold toFixed. rewrite Hx.
    destruct s; reflexivity.
  - vm_compute. reflexivity.
Qed.

Lemma similarity_percentage_format_witness :
  similarity_percentage
    (similarity_payload no_exponent
       [("text1", VStr "cat"); ("text2", VStr "dog")]
       [1; 0]%float [1; 0]%float
       {| data := embedding_items [[1; 0]; [1; 0]]%float;
          embeddings_model := "text-embedding-ada-002";
          embeddings_object := "list";
          embeddings_usage := VNull |})
  = toFixed no_exponent 2 (cosineSimilarity [1; 0] [1; 0] * 100)%float ++ "%".
Proof.
  exact (proj1 (similarity_percentage_format no_exponent
                  (embedding_provider [[1; 0]; [1; 0]]%float)
                  [("text1", VStr "cat"); ("text2", VStr "dog")]
                  (similarity_payload no_exponent
                     [("text1", VStr "cat"); ("text2", VStr "dog")]
                     [1; 0]%float [1; 0]%float
                     {| data := embedding_items [[1; 0]; [1; 0]]%float;
                        embeddings_model := "text-embedding-ada-002";
                        embeddings_object := "list";
                        embeddings_usage := VNull |})
                  eq_refl)).
Defined.

(** C4 as stated fails: the provider resolves with two zero vectors; the
    reply has status 200 and its percentage is "NaN%", which has no decimal
    point and no decimals. *)
Lemma similarity_percentage_of_nan :
  exists p,
    reply (post_api_embeddings_similarity no_exponent
             (embedding_provider [[0; 0]; [0; 0]]%float)
             [("text1", VStr "cat"); ("text2", VStr "dog")]) = json p
    /\ similarity_percentage p = "NaN%"
    /\ ~ two_decimals_percent (similarity_percentage p).
Proof.
  eexists. split; [ reflexivity | ]. split; [ reflexivity | ].
  intros (a & c1 & c2 & E). cbn in E.
  destruct a as [ | x0 [ | x1 [ | x2 [ | x3 a ] ] ] ]; cbn in E;
    try discriminate.
  injection E as _ _ _ _ E. destruct a; discriminate.
Qed.

(** * Further properties of the handlers *)

Section MoreHandlerFacts.

Variable String_trim : string -> string.
Variable Number_toString : float -> string.
Variable openai : Provider.

Lemma rejected_status {A} (h : Handler A) message :
  rejected h message -> status (reply h) = 400%Z /\ provider_calls h = [].
Proof. intros (Hs & _ & Hc). now split. Qed.

Lemma chat_outcome req_body :
  (status (reply (post_api_chat openai req_body)) = 400%Z
   <-> truthy (get "message" req_body) = false)
  /\ provider_calls (post_api_chat openai req_body)
     = if truthy (get "message" req_body)
       then [CallChat (chat_params req_body)] else [].
Proof.
  destruct (truthy (get "message" req_body)) eqn:H.
  - rewrite (chat_calls_provider openai req_body H).
    split; [ | reflexivity ]. split; [ | discriminate ].
    unfold reply; cbn [fst].
    destruct (chat_completions_create openai (chat_params req_body));
      discriminate.
  - destruct (chat_rejects_falsy openai req_body H) as (Hs & _ & Hc).
    split; [ split; auto | exact Hc ].
Qed.

Lemma completion_outcome req_body :
  (status (reply (post_api_completion String_trim openai req_body)) = 400%Z
   <-> truthy (get "prompt" req_body) = false)
  /\ provider_calls (post_api_completion String_trim openai req_body)
     = if truthy (get "prompt" req_body)
       then [CallCompletion (completion_params req_body)] else [].
Proof.
  destruct (truthy (get "prompt" req_body)) eqn:H.
  - rewrite (completion_calls_provider String_trim openai req_body H).
    split; [ | reflexivity ]. split; [ | discriminate ].
    unfold reply; cbn [fst].
    destruct (completions_create openai (completion_params req_body));
      discriminate.
  - destruct (completion_rejects_falsy String_trim openai req_body H)
      as (Hs & _ & Hc).
    split; [ split; auto | exact Hc ].
Qed.

Lemma embedding_outcome req_body :
  (status (reply (post_api_embedding openai req_body)) = 400%Z
   <-> truthy (get "text" req_body) = false)
  /\ provider_calls (post_api_embedding openai req_body)
     = if truthy (get "text" req_body)
       then [CallEmbeddings (embedding_params req_body)] else [].
Proof.
  destruct (truthy (get "text" req_body)) eqn:H.
  - rewrite (embedding_calls_provider openai req_body H).
    split; [ | reflexivity ]. split; [ | discriminate ].
    unfold reply; cbn [fst].
    destruct (embeddings_create openai (embedding_params req_body));
      discriminate.
  - destruct (embedding_rejects_falsy openai req_body H) as (Hs & _ & Hc).
    split; [ split; auto | exact Hc ].
Qed.

Lemma similarity_outcome req_body :
  (status (reply (post_api_embeddings_similarity Number_toString openai
                    req_body)) = 400%Z
   <-> truthy (get "text1" req_body) && truthy (get "text2" req_body) = false)
  /\ provider_calls
       (post_api_embeddings_similarity Number_toString openai req_body)
     = if truthy (get "text1" req_body) && truthy (get "text2" req_body)
       then [CallEmbeddings (similarity_params req_body)] else [].
Proof.
  destruct (truthy (get "text1" req_body)) eqn:H1;
    [ destruct (truthy (get "text2" req_body)) eqn:H2 | ]; cbn [andb].
  - rewrite (similarity_calls_provider Number_toString openai req_body H1 H2).
    split; [ | reflexivity ]. split; [ | discriminate ].
    unfold reply; cbn [fst].
    destruct (embeddings_create openai (similarity_params req_body)) as [e | r];
      [ discriminate | ].
    destruct (data r) as [ | item1 [ | item2 rest ] ]; discriminate.
  - destruct (similarity_rejects_falsy Number_toString openai req_body
                (or_intror H2)) as (Hs & _ & Hc).
    split; [ split; auto | exact Hc ].
  - destruct (similarity_rejects_falsy Number_toString openai req_body
                (or_introl H1)) as (Hs & _ & Hc).
    split; [ split; auto | exact Hc ].
Qed.

Lemma batch_outcome req_body :
  (status (reply (post_api_embeddings_batch openai req_body)) = 400%Z
   <-> batch_accepts (get "texts" req_body) = false)
  /\ provider_calls (post_api_embeddings_batch openai req_body)
     = (if batch_accepts (get "texts" req_body)
        then [CallEmbeddings (batch_params req_body)] else [])
  /\ (isArray (get "texts" req_body) = false ->
      body (reply (post_api_embeddings_batch openai req_body))
      = ErrorOnly "Texts array is required and must not be empty").
Proof.
  rewrite batch_cases. unfold batch_accepts.
  destruct (get "texts" req_body) as [ | | b | x | t | items | fields ];
    try (split; [ split; reflexivity | split; reflexivity ]).
  destruct (Nat.eqb_spec (List.length items) 0) as [E0 | E0]; cbn [negb andb].
  - split; [ split; reflexivity | split; [ reflexivity | discriminate ] ].
  - destruct (Nat.ltb_spec 2048 (List.length items)) as [Hgt | Hle].
    + replace (List.length items <=? 2048)%nat with false
        by (symmetry; apply Nat.leb_gt; exact Hgt).
      split; [ split; reflexivity | split; [ reflexivity | discriminate ] ].
    + replace (List.length items <=? 2048)%nat with true
        by (symmetry; apply Nat.leb_le; exact Hle).
      split; [ | split; [ reflexivity | discriminate ] ].
      split; [ | discriminate ].
      unfold reply; cbn [fst].
      destruct (embeddings_create openai (batch_params req_body));
        discriminate.
Qed.

Ltac settle :=
  unfold settles, rejection, similarity_failure, reply, provider_calls;
  cbv beta iota; cbn [fst snd List.length];
  repeat match goal with |- _ /\ _ => split end;
  try reflexivity; try (eexists; reflexivity).

Lemma chat_settles req_body :
  settles (post_api_chat openai req_body)
    "Failed to get response from OpenAI"
    (truthy (get "message" req_body))
    (rejection (chat_completions_create openai (chat_params req_body))).
Proof.
  destruct (truthy (get "message" req_body)) eqn:H.
  - rewrite (chat_calls_provider openai req_body H).
    destruct (chat_completions_create openai (chat_params req_body)); settle.
  - unfold post_api_chat. rewrite H. run_handler. settle.
Qed.

Lemma completion_settles req_body :
  settles (post_api_completion String_trim openai req_body)
    "Failed to get completion from OpenAI"
    (truthy (get "prompt" req_body))
    (rejection (completions_create openai (completion_params req_body))).
Proof.
  destruct (truthy (get "prompt" req_body)) eqn:H.
  - rewrite (completion_calls_provider String_trim openai req_body H).
    destruct (completions_create openai (completion_params req_body));
      settle.
  - unfold post_api_completion. rewrite H. run_handler. settle.
Qed.

Lemma models_settles :
  settles (get_api_models openai) "Failed to fetch models from OpenAI" true
    (rejection (models_list openai tt)).
Proof.
  rewrite models_calls_provider. destruct (models_list openai tt); settle.
Qed.

Lemma embedding_settles req_body :
  settles (post_api_embedding openai req_body)
    "Failed to get embedding from OpenAI"
    (truthy (get "text" req_body))
    (rejection (embeddings_create openai (embedding_params req_body))).
Proof.
  destruct (truthy (get "text" req_body)) eqn:H.
  - rewrite (embedding_calls_provider openai req_body H).
    destruct (embeddings_create openai (embedding_params req_body)); settle.
  - unfold post_api_embedding. rewrite H. run_handler. settle.
Qed.

Lemma embedding_logged_settles req_body :
  settles (post_api_embedding_logged openai req_body)
    "Failed to get embedding from OpenAI" true
    (rejection
       (embeddings_create openai (embedding_logged_params req_body))).
Proof.
  rewrite embedding_logged_calls_provider.
  destruct (embeddings_create openai (embedding_logged_params req_body));
    settle.
Qed.

Lemma batch_settles req_body :
  settles (post_api_embeddings_batch openai req_body)
    "Failed to get batch embeddings from OpenAI"
    (batch_accepts (get "texts" req_body))
    (rejection (embeddings_create openai (batch_params req_body))).
Proof.
  rewrite batch_cases. unfold batch_accepts.
  destruct (get "texts" req_body) as [ | | b | x | t | items | fields ];
    try settle.
  destruct (Nat.eqb_spec (List.length items) 0) as [E0 | E0];
    cbn [negb andb]; [ settle | ].
  destruct (Nat.ltb_spec 2048 (List.length items)) as [Hgt | Hle].
  - replace (List.length items <=? 2048)%nat with false
      by (symmetry; apply Nat.leb_gt; exact Hgt).
    settle.
  - replace (List.length items <=? 2048)%nat with true
      by (symmetry; apply Nat.leb_le; exact Hle).
    destruct (embeddings_create openai (batch_params req_body)); settle.
Qed.

Lemma similarity_settles req_body :
  settles (post_api_embeddings_similarity Number_toString openai req_body)
    "Failed to calculate embedding similarity"
    (truthy (get "text1" req_body) && truthy (get "text2" req_body))
    (similarity_failure
       (embeddings_create openai (similarity_params req_body))).
Proof.
  destruct (truthy (get "text1" req_body)) eqn:H1;
    [ destruct (truthy (get "text2" req_body)) eqn:H2 | ]; cbn [andb].
  - rewrite (similarity_calls_provider Number_toString openai req_body H1 H2).
    unfold similarity_failure.
    destruct (embeddings_create openai (similarity_params req_body))
      as [e | r]; [ settle | ].
    destruct (data r) as [ | item1 [ | item2 rest ] ]; settle.
  - unfold post_api_embeddings_similarity. rewrite H1, H2. run_handler.
    settle.
  - unfold post_api_embeddings_similarity. rewrite H1. run_handler. settle.
Qed.

End MoreHandlerFacts.

(** X1: on the four routes with a required field, the reply is 400 exactly
    when the field is falsy; any truthy value, of whatever type, passes, and
    then exactly the one call built from the body is made. *)
Theorem required_field_validation_exact
  (String_trim : string -> string) (Number_toString : float -> string)
  (openai : Provider) (req_body : ReqBody) :
  ((status (reply (post_api_chat openai req_body)) = 400%Z
    <-> truthy (get "message" req_body) = false)
   /\ provider_calls (post_api_chat openai req_body)
      = if truthy (get "message" req_body)
        then [CallChat (chat_params req_body)] else [])
  /\ ((status (reply (post_api_completion String_trim openai req_body))
       = 400%Z
       <-> truthy (get "prompt" req_body) = false)
      /\ provider_calls (post_api_completion String_trim openai req_body)
         = if truthy (get "prompt" req_body)
           then [CallCompletion (completion_params req_body)] else [])
  /\ ((status (reply (post_api_embedding openai req_body)) = 400%Z
       <-> truthy (get "text" req_body) = false)
      /\ provider_calls (post_api_embedding openai req_body)
         = if truthy (get "text" req_body)
           then [CallEmbeddings (embedding_params req_body)] else [])
  /\ ((status (reply (post_api_embeddings_similarity Number_toString openai
                        req_body)) = 400%Z
       <-> truthy (get "text1" req_body) && truthy (get "text2" req_body)
           = false)
      /\ provider_calls
           (post_api_embeddings_similarity Number_toString openai req_body)
         = if truthy (get "text1" req_body) && truthy (get "text2" req_body)
           then [CallEmbeddings (similarity_params req_body)] else []).
Proof.
  split; [ apply chat_outcome | ].
  split; [ apply completion_outcome | ].
  split; [ apply embedding_outcome | apply similarity_outcome ].
Qed.

(** X2: /api/embeddings/batch replies 400 exactly when [texts] is not an
    array of 1 to 2048 items (the items themselves are not inspected), with
    no call; a value that is not an array, truthy or not, gets the
    missing-or-empty message, and so does the empty array; an array of more
    than 2048 items gets the maximum message. *)
Theorem batch_validation_exact (openai : Provider) (req_body : ReqBody) :
  (status (reply (post_api_embeddings_batch openai req_body)) = 400%Z
   <-> batch_accepts (get "texts" req_body) = false)
  /\ provider_calls (post_api_embeddings_batch openai req_body)
     = (if batch_accepts (get "texts" req_body)
        then [CallEmbeddings (batch_params req_body)] else [])
  /\ (isArray (get "texts" req_body) = false
      \/ get "texts" req_body = VArr [] ->
      body (reply (post_api_embeddings_batch openai req_body))
      = ErrorOnly "Texts array is required and must not be empty")
  /\ (forall items,
        get "texts" req_body = VArr items ->
        (2048 < List.length items)%nat ->
        body (reply (post_api_embeddings_batch openai req_body))
        = ErrorOnly "Maximum 2048 texts allowed per batch").
Proof.
  destruct (batch_outcome openai req_body) as (Hs & Hc & Hm).
  split; [ exact Hs | ]. split; [ exact Hc | ]. split.
  - intros [H | H]; [ now apply Hm | ].
    rewrite batch_cases, H. reflexivity.
  - intros items H Hlen. rewrite batch_cases, H.
    destruct (Nat.eqb_spec (List.length items) 0) as [E | _]; [ lia | ].
    destruct (Nat.ltb_spec 2048 (List.length items)) as [_ | E]; [ | lia ].
    reflexivity.
Qed.

Lemma batch_validation_exact_witness :
  body (reply (post_api_embeddings_batch (embedding_provider [])
                 [("texts", VStr "cat")]))
  = ErrorOnly "Texts array is required and must not be empty"
  /\ body (reply (post_api_embeddings_batch (embedding_provider [])
                    [("texts", VArr (repeat VNull 3000))]))
     = ErrorOnly "Maximum 2048 texts allowed per batch".
Proof.
  split.
  - apply (batch_validation_exact (embedding_provider [])
             [("texts", VStr "cat")]).
    left. reflexivity.
  - apply (batch_validation_exact (embedding_provider [])
             [("texts", VArr (repeat VNull 3000))]) with
      (items := repeat VNull 3000);
      [ reflexivity | rewrite repeat_length; lia ].
Defined.

(** X3: every route answers with status 200 and a payload, 400 and [{error}],
    or 500 and [{error, details}]; a 400 is sent without any provider call,
    a 200 or a 500 after exactly one: no route retries or calls twice.  An
    accepted request whose provider call resolves gets the 200 (on
    /api/embeddings/similarity only when at least two items came back); a
    failure inside the handler, the rejected call or reading the embedding of
    a missing item, always ends in the route's own 500 reply, with that
    failure's message, or "Unknown error", as details. *)
Theorem one_attempt_per_request
  (String_trim : string -> string) (Number_toString : float -> string)
  (openai : Provider) (req_body : ReqBody) :
  settles (post_api_chat openai req_body)
    "Failed to get response from OpenAI"
    (truthy (get "message" req_body))
    (rejection (chat_completions_create openai (chat_params req_body)))
  /\ settles (post_api_completion String_trim openai req_body)
       "Failed to get completion from OpenAI"
       (truthy (get "prompt" req_body))
       (rejection (completions_create openai (completion_params req_body)))
  /\ settles (get_api_models openai) "Failed to fetch models from OpenAI"
       true (rejection (models_list openai tt))
  /\ settles (post_api_embedding openai req_body)
       "Failed to get embedding from OpenAI"
       (truthy (get "text" req_body))
       (rejection (embeddings_create openai (embedding_params req_body)))
  /\ settles (post_api_embedding_logged openai req_body)
       "Failed to get embedding from OpenAI" true
       (rejection
          (embeddings_create openai (embedding_logged_params req_body)))
  /\ settles (post_api_embeddings_batch openai req_body)
       "Failed to get batch embeddings from OpenAI"
       (batch_accepts (get "texts" req_body))
       (rejection (embeddings_create openai (batch_params req_body)))
  /\ settles
       (post_api_embeddings_similarity Number_toString openai req_body)
       "Failed to calculate embedding similarity"
       (truthy (get "text1" req_body) && truthy (get "text2" req_body))
       (similarity_failure
          (embeddings_create openai (similarity_params req_body))).
Proof.
  repeat match goal with |- _ /\ _ => split end.
  - apply chat_settles.
  - apply completion_settles.
  - apply models_settles.
  - apply embedding_settles.
  - apply embedding_logged_settles.
  - apply batch_settles.
  - apply similarity_settles.
Qed.

(** X4: /api/chat and /api/completion never call the provider without a
    truthy [message] or [prompt].  Every call carries that value as given;
    the default model only when [model] is absent (an explicit null or empty
    model is forwarded); chat always asks for 500 tokens whatever the body
    says, completion forwards the body's [max_tokens], 100 when it is absent,
    with temperature 0.7. *)
Theorem text_routes_call_parameters
  (String_trim : string -> string) (openai : Provider) (req_body : ReqBody)
  (c : ProviderCall) :
  (In c (provider_calls (post_api_chat openai req_body)) ->
   truthy (get "message" req_body) = true
   /\ exists p,
        c = CallChat p
        /\ chat_messages p
           = [ {| role := "user"; content := get "message" req_body |} ]
        /\ chat_max_tokens p = 500%float
        /\ chat_model p
           = match get "model" req_body with
             | VUndefined => VStr "gpt-3.5-turbo"
             | given => given
             end)
  /\ (In c (provider_calls (post_api_completion String_trim openai req_body)) ->
      truthy (get "prompt" req_body) = true
      /\ exists p,
           c = CallCompletion p
           /\ cp_prompt p = get "prompt" req_body
           /\ cp_temperature p = 0.7%float
           /\ cp_max_tokens p
              = match get "max_tokens" req_body with
                | VUndefined => VNum 100
                | given => given
                end
           /\ cp_model p
              = match get "model" req_body with
                | VUndefined => VStr "gpt-3.5-turbo-instruct"
                | given => given
                end).
Proof.
  split.
  - destruct (chat_outcome openai req_body) as [_ Hc]. rewrite Hc.
    destruct (truthy (get "message" req_body)); [ | intros [] ].
    intros [<- | []]. split; [ reflexivity | ].
    exists (chat_params req_body). repeat split.
    cbn. now destruct (get "model" req_body).
  - destruct (completion_outcome String_trim openai req_body) as [_ Hc].
    rewrite Hc.
    destruct (truthy (get "prompt" req_body)); [ | intros [] ].
    intros [<- | []]. split; [ reflexivity | ].
    exists (completion_params req_body). repeat split; cbn.
    + now destruct (get "max_tokens" req_body).
    + now destruct (get "model" req_body).
Qed.

Lemma text_routes_call_parameters_witness :
  (truthy (get "message" [("message", VStr "hi"); ("model", VNull);
                          ("max_tokens", VNum 5)]) = true
   /\ exists p,
        CallChat (chat_params [("message", VStr "hi"); ("model", VNull);
                               ("max_tokens", VNum 5)]) = CallChat p
        /\ chat_messages p = [ {| role := "user"; content := VStr "hi" |} ]
        /\ chat_max_tokens p = 500%float
        /\ chat_model p = VNull)
  /\ (truthy (get "prompt" [("prompt", VNum 7); ("max_tokens", VNum 0)])
      = true
      /\ exists p,
           CallCompletion
             (completion_params [("prompt", VNum 7); ("max_tokens", VNum 0)])
           = CallCompletion p
           /\ cp_prompt p = VNum 7
           /\ cp_temperature p = 0.7%float
           /\ cp_max_tokens p = VNum 0
           /\ cp_model p = VStr "gpt-3.5-turbo-instruct").
Proof.
  split.
  - apply (text_routes_call_parameters no_trim
             (rejecting_provider (ThrownError "down"))
             [("message", VStr "hi"); ("model", VNull);
              ("max_tokens", VNum 5)]).
    left. reflexivity.
  - apply (text_routes_call_parameters no_trim
             (rejecting_provider (ThrownError "down"))
             [("prompt", VNum 7); ("max_tokens", VNum 0)]).
    left. reflexivity.
Defined.

(** X5: a 200 reply of /api/chat or /api/completion never has an empty
    [response].  On chat it is the first choice's content whenever that
    content is a non-empty string, and the fixed string "No response
    generated" when there is no choice or the first content is null or
    empty.  On completion it is the first choice's trimmed text whenever that
    is non-empty, and the same fixed string when there is no choice or the
    trimmed text is empty.  Choices after the first are never used; [usage]
    and [model] are the provider's. *)
Theorem text_reply_fallback
  (String_trim : string -> string) (openai : Provider) (req_body : ReqBody)
  (p : TextReply) :
  (body (reply (post_api_chat openai req_body)) = Payload p ->
   exists completion,
     chat_completions_create openai (chat_params req_body) = inr completion
     /\ usage p = chat_usage completion
     /\ model p = chat_result_model completion
     /\ response p <> ""
     /\ response p
        = match chat_choices completion with
          | [] => "No response generated"
          | choice :: _ =>
              match msg_content (choice_message choice) with
              | None => "No response generated"
              | Some content =>
                  if String.eqb content "" then "No response generated"
                  else content
              end
          end)
  /\ (body (reply (post_api_completion String_trim openai req_body))
      = Payload p ->
      exists completion,
        completions_create openai (completion_params req_body)
        = inr completion
        /\ usage p = completion_usage completion
        /\ model p = completion_model completion
        /\ response p <> ""
        /\ response p
           = match completion_choices completion with
             | [] => "No response generated"
             | choice :: _ =>
                 if String.eqb (String_trim (choice_text choice)) ""
                 then "No response generated"
                 else String_trim (choice_text choice)
             end).
Proof.
  split.
  - destruct (truthy (get "message" req_body)) eqn:H.
    + rewrite (chat_calls_provider openai req_body H).
      unfold reply; cbn [fst].
      destruct (chat_completions_create openai (chat_params req_body))
        as [e | completion]; [ discriminate | ].
      intros [= <-]. exists completion. cbn [usage model response].
      split; [ reflexivity | ]. split; [ reflexivity | ]. split; [ reflexivity | ].
      destruct (chat_choices completion) as [ | choice rest ];
        [ split; [ discriminate | reflexivity ] | ].
      destruct (msg_content (choice_message choice)) as [s | ];
        [ | split; [ discriminate | reflexivity ] ].
      cbn [or_else]. destruct (String.eqb_spec s "") as [-> | Hs].
      * split; [ discriminate | reflexivity ].
      * split; [ exact Hs | reflexivity ].
    + destruct (chat_rejects_falsy openai req_body H) as (_ & Hb & _).
      rewrite Hb. discriminate.
  - destruct (truthy (get "prompt" req_body)) eqn:H.
    + rewrite (completion_calls_provider String_trim openai req_body H).
      unfold reply; cbn [fst].
      destruct (completions_create openai (completion_params req_body))
        as [e | completion]; [ discriminate | ].
      intros [= <-]. exists completion. cbn [usage model response].
      split; [ reflexivity | ]. split; [ reflexivity | ]. split; [ reflexivity | ].
      destruct (completion_choices completion) as [ | choice rest ];
        [ split; [ discriminate | reflexivity ] | ].
      cbn [or_else].
      destruct (String.eqb_spec (String_trim (choice_text choice)) "")
        as [E | Hs].
      * split; [ discriminate | reflexivity ].
      * split; [ exact Hs | reflexivity ].
    + destruct (completion_rejects_falsy String_trim openai req_body H)
        as (_ & Hb & _).
      rewrite Hb. discriminate.
Qed.

Lemma text_reply_fallback_witness :
  (exists completion,
     chat_completions_create (chat_provider [Some "Paris"; Some "later"])
       (chat_params [("message", VStr "hi")]) = inr completion
     /\ VNull = chat_usage completion
     /\ "gpt-3.5-turbo" = chat_result_model completion
     /\ "Paris" <> ""
     /\ "Paris"
        = match chat_choices completion with
          | [] => "No response generated"
          | choice :: _ =>
              match msg_content (choice_message choice) with
              | None => "No response generated"
              | Some content =>
                  if String.eqb content "" then "No response generated"
                  else content
              end
          end)
  /\ (exists completion,
        completions_create (completion_provider [""; "Rome"])
          (completion_params [("prompt", VStr "hi")]) = inr completion
        /\ VNull = completion_usage completion
        /\ "gpt-3.5-turbo-instruct" = completion_model completion
        /\ "No response generated" <> ""
        /\ "No response generated"
           = match completion_choices completion with
             | [] => "No response generated"
             | choice :: _ =>
                 if String.eqb (no_trim (choice_text choice)) ""
                 then "No response generated"
                 else no_trim (choice_text choice)
             end).
Proof.
  split.
  - apply (proj1 (text_reply_fallback no_trim
                    (chat_provider [Some "Paris"; Some "later"])
                    [("message", VStr "hi")]
                    {| response := "Paris";
                       usage := VNull;
                       model := "gpt-3.5-turbo" |})).
    reflexivity.
  - apply (proj2 (text_reply_fallback no_trim
                    (completion_provider [""; "Rome"])
                    [("prompt", VStr "hi")]
                    {| response := "No response generated";
                       usage := VNull;
                       model := "gpt-3.5-turbo-instruct" |})).
    reflexivity.
Defined.

(** X6: /api/models takes no input and never answers 400; when the provider
    resolves, the reply lists exactly the provider's models in the provider's
    order, each reduced to its id, creation time and owner. *)
Theorem models_projection (openai : Provider) (page : ModelsPage) :
  models_list openai tt = inr page ->
  exists p,
    reply (get_api_models openai) = json p
    /\ List.length (models p) = List.length (models_data page)
    /\ forall i m,
         nth_error (models_data page) i = Some m ->
         nth_error (models p) i
         = Some {| id := model_id m;
                   created := model_created m;
                   owned_by := model_owned_by m |}.
Proof.
  intros H. rewrite models_calls_provider, H. eexists.
  split; [ reflexivity | ]. cbn [models]. split.
  - apply length_map.
  - intros i m Hm. rewrite nth_error_map, Hm. reflexivity.
Qed.

Lemma models_projection_witness :
  exists p,
    reply (get_api_models
             (models_provider
                [ {| model_id := "gpt-4"; model_created := 1687882411;
                     model_object := "model"; model_owned_by := "openai" |} ]))
    = json p
    /\ List.length (models p) = 1%nat
    /\ forall i m,
         nth_error
           [ {| model_id := "gpt-4"; model_created := 1687882411;
                model_object := "model"; model_owned_by := "openai" |} ] i
         = Some m ->
         nth_error (models p) i
         = Some {| id := model_id m;
                   created := model_created m;
                   owned_by := model_owned_by m |}.
Proof.
  apply (models_projection
           (models_provider
              [ {| model_id := "gpt-4"; model_created := 1687882411;
                   model_object := "model"; model_owned_by := "openai" |} ])
           {| models_data :=
                [ {| model_id := "gpt-4"; model_created := 1687882411;
                     model_object := "model"; model_owned_by := "openai" |} ]
           |}).
  reflexivity.
Defined.

(** X7: on /api/embeddings/similarity, once both texts are truthy and the
    provider has resolved, the reply is 200 exactly when the provider returned
    at least two items; with fewer, reading the embedding of the missing item
    throws and the reply is the route's 500 with the TypeError's message;
    with more, the items after the second are ignored. *)
Theorem similarity_needs_two_items (Number_toString : float -> string)
  (openai : Provider) (req_body : ReqBody) (r : CreateEmbeddingResponse) :
  truthy (get "text1" req_body) = true ->
  truthy (get "text2" req_body) = true ->
  embeddings_create openai (similarity_params req_body) = inr r ->
  (status (reply (post_api_embeddings_similarity Number_toString openai
                    req_body)) = 200%Z
   <-> (2 <= List.length (data r))%nat)
  /\ ((List.length (data r) < 2)%nat ->
      failed (post_api_embeddings_similarity Number_toString openai req_body)
        "Failed to calculate embedding similarity"
        "Cannot read properties of undefined (reading 'embedding')")
  /\ (forall item1 item2 rest,
        data r = item1 :: item2 :: rest ->
        reply (post_api_embeddings_similarity Number_toString openai req_body)
        = json (similarity_payload Number_toString req_body
                  (embedding item1) (embedding item2) r)).
Proof.
  intros H1 H2 Hr.
  rewrite (similarity_calls_provider Number_toString openai req_body H1 H2), Hr.
  unfold failed, reply; cbn [fst].
  destruct (data r) as [ | item1 [ | item2 rest ] ]; cbn [List.length].
  - split; [ split; [ discriminate | lia ] | ].
    split; [ intros _; split; reflexivity | discriminate ].
  - split; [ split; [ discriminate | lia ] | ].
    split; [ intros _; split; reflexivity | discriminate ].
  - split; [ split; [ lia | reflexivity ] | ].
    split; [ lia | ]. now intros ? ? ? [= <- <- <-].
Qed.

Lemma similarity_needs_two_items_witness :
  failed
    (post_api_embeddings_similarity no_exponent
       (embedding_provider [[1; 2]]%float)
       [("text1", VStr "cat"); ("text2", VStr "dog")])
    "Failed to calculate embedding similarity"
    "Cannot read properties of undefined (reading 'embedding')".
Proof.
  apply (similarity_needs_two_items no_exponent
           (embedding_provider [[1; 2]]%float)
           [("text1", VStr "cat"); ("text2", VStr "dog")]
           {| data := embedding_items [[1; 2]]%float;
              embeddings_model := "text-embedding-ada-002";
              embeddings_object := "list";
              embeddings_usage := VNull |});
    [ reflexivity | reflexivity | reflexivity | cbn; lia ].
Defined.

(** X8: on /api/embeddings/batch the reply follows the provider's list,
    whatever its length: item i of the reply is built from item i of the
    provider, its [index] is that position (the provider's own index field is
    not read), and its [text] is texts[i], which is undefined for every item
    beyond the texts that were sent. *)
Theorem batch_items_by_position (openai : Provider) (req_body : ReqBody)
  (items : list Value) (r : CreateEmbeddingResponse) :
  get "texts" req_body = VArr items ->
  (1 <= List.length items <= 2048)%nat ->
  embeddings_create openai (batch_params req_body) = inr r ->
  exists p,
    reply (post_api_embeddings_batch openai req_body) = json p
    /\ batch_usage p = embeddings_usage r
    /\ batch_model p = embeddings_model r
    /\ forall i item,
         nth_error (data r) i = Some item ->
         exists it,
           nth_error (embeddings p) i = Some it
           /\ index it = i
           /\ item_embedding it = embedding item
           /\ dimensions it = List.length (embedding item)
           /\ text it = nth i items VUndefined
           /\ ((List.length items <= i)%nat -> text it = VUndefined).
Proof.
  intros Htexts [Hlo Hhi] Hr. rewrite batch_cases, Htexts.
  destruct (Nat.eqb_spec (List.length items) 0) as [E | _]; [ lia | ].
  destruct (Nat.ltb_spec 2048 (List.length items)) as [E | _]; [ lia | ].
  rewrite Hr. exists (batch_payload items r).
  split; [ reflexivity | ]. split; [ reflexivity | ].
  split; [ reflexivity | ].
  intros i item Hitem. eexists. split.
  - cbn [embeddings batch_payload]. unfold map_indexed.
    rewrite map_from_nth_error, Hitem. reflexivity.
  - cbn. repeat split. intros Hi. unfold index_value.
    now apply nth_overflow.
Qed.

Lemma batch_items_by_position_witness :
  exists p,
    reply (post_api_embeddings_batch
             (embedding_provider [[1]; [2]]%float)
             [("texts", VArr [VStr "a"])]) = json p
    /\ batch_usage p = VNull
    /\ batch_model p = "text-embedding-ada-002"
    /\ forall i item,
         nth_error (embedding_items [[1]; [2]]%float) i = Some item ->
         exists it,
           nth_error (embeddings p) i = Some it
           /\ index it = i
           /\ item_embedding it = embedding item
           /\ dimensions it = List.length (embedding item)
           /\ text it = nth i [VStr "a"] VUndefined
           /\ ((List.length [VStr "a"] <= i)%nat -> text it = VUndefined).
Proof.
  apply (batch_items_by_position
           (embedding_provider [[1]; [2]]%float)
           [("texts", VArr [VStr "a"])] [VStr "a"]
           {| data := embedding_items [[1]; [2]]%float;
              embeddings_model := "text-embedding-ada-002";
              embeddings_object := "list";
              embeddings_usage := VNull |});
    [ reflexivity | cbn; lia | reflexivity ].
Defined.

(** * Further properties of the similarity calculator *)

Lemma reduce_from_absorbing {A B} (P : B -> Prop) (f : B -> A -> nat -> B)
  (l : list A) (acc : B) (i k : nat) (x : A) :
  nth_error l k = Some x ->
  (forall s, P (f s x (i + k)%nat)) ->
  (forall s y j, P s -> P (f s y j)) ->
  P (reduce_from f acc i l).
Proof.
  revert acc i k. induction l as [ | a l IH ]; intros acc i k Hk Hx Hstep.
  - destruct k; discriminate.
  - cbn [reduce_from]. destruct k as [ | k ].
    + injection Hk as ->. rewrite Nat.add_0_r in Hx.
      apply reduce_from_invariant; [ apply Hx | ].
      intros s y j Hs _. now apply Hstep.
    + apply (IH _ _ k); [ exact Hk | | exact Hstep ].
      intros s. rewrite Nat.add_succ_l, <- Nat.add_succ_r. apply Hx.
Qed.

Lemma add_absorbs_l (s t : float) :
  sf_inf_or_nan (Prim2SF s) -> sf_inf_or_nan (Prim2SF (s + t)%float).
Proof.
  rewrite add_spec.
  destruct (Prim2SF s) as [ | [ | ] | | ]; cbn; try contradiction;
    destruct (Prim2SF t) as [ | [ | ] | | ]; cbn; trivial.
Qed.

Lemma add_absorbs_r (s t : float) :
  sf_inf_or_nan (Prim2SF t) -> sf_inf_or_nan (Prim2SF (s + t)%float).
Proof.
  rewrite add_spec.
  destruct (Prim2SF t) as [ | [ | ] | | ]; cbn; try contradiction;
    destruct (Prim2SF s) as [ [ | ] | [ | ] | | ]; cbn; trivial.
Qed.

Lemma mul_absorbs_l (x y : float) :
  sf_inf_or_nan (Prim2SF x) -> sf_inf_or_nan (Prim2SF (x * y)%float).
Proof.
  rewrite mul_spec.
  destruct (Prim2SF x) as [ | sx | | ]; cbn; try contradiction;
    destruct (Prim2SF y); cbn; trivial.
Qed.

Lemma mul_absorbs_r (x y : float) :
  sf_inf_or_nan (Prim2SF y) -> sf_inf_or_nan (Prim2SF (x * y)%float).
Proof. rewrite float_mul_comm. apply mul_absorbs_l. Qed.

Lemma sqrt_absorbs (x : float) :
  sf_inf_or_nan (Prim2SF x) -> sf_inf_or_nan (Prim2SF (PrimFloat.sqrt x)).
Proof.
  rewrite sqrt_spec.
  destruct (Prim2SF x) as [ | [ | ] | | ]; cbn; try contradiction; trivial.
Qed.

Lemma div_absorbed (x y : float) :
  sf_inf_or_nan (Prim2SF x) -> sf_inf_or_nan (Prim2SF y) ->
  (x / y)%float = nan.
Proof.
  intros Hx Hy. apply Prim2SF_inj. rewrite div_spec.
  destruct (Prim2SF x) as [ | sx | | ]; cbn in Hx; try contradiction;
    destruct (Prim2SF y) as [ | sy | | ]; cbn in Hy; try contradiction;
    reflexivity.
Qed.

Lemma div_nan_l (x y : float) :
  Prim2SF x = S754_nan -> (x / y)%float = nan.
Proof.
  intros Hx. apply Prim2SF_inj. rewrite div_spec, Hx.
  now destruct (Prim2SF y).
Qed.

Lemma add_nan_l (s t : float) :
  Prim2SF s = S754_nan -> Prim2SF (s + t)%float = S754_nan.
Proof. intros H. rewrite add_spec, H. reflexivity. Qed.

Lemma add_nan_r (s t : float) :
  Prim2SF t = S754_nan -> Prim2SF (s + t)%float = S754_nan.
Proof. intros H. rewrite add_spec, H. now destruct (Prim2SF s). Qed.

Lemma mul_nan_r (x y : float) :
  Prim2SF y = S754_nan -> Prim2SF (x * y)%float = S754_nan.
Proof. intros H. rewrite mul_spec, H. now destruct (Prim2SF x). Qed.

Lemma dotProduct_shorter_second (a b : list float) :
  (List.length b < List.length a)%nat ->
  Prim2SF (dotProduct a b) = S754_nan.
Proof.
  intros Hlen. unfold dotProduct, reduce.
  destruct (nth_error a (List.length b)) as [x | ] eqn:Hx;
    [ | apply nth_error_None in Hx; lia ].
  apply (reduce_from_absorbing (fun s => Prim2SF s = S754_nan) _ a _ 0
           (List.length b) x Hx).
  - intros s. apply add_nan_r, mul_nan_r. unfold number_at.
    now rewrite nth_overflow by (cbn; lia).
  - intros s y j Hs. now apply add_nan_l.
Qed.

(** X9: when the second vector is shorter than the first, the read past its
    end is undefined, the products from there on are [NaN], and the cosine
    similarity is [NaN], whatever the components are. *)
Theorem cosineSimilarity_shorter_second_vector (a b : list float) :
  (List.length b < List.length a)%nat ->
  cosineSimilarity a b = nan
  /\ in_unit_range (cosineSimilarity a b) = false.
Proof.
  intros Hlen.
  assert (E : cosineSimilarity a b = nan).
  { unfold cosineSimilarity. now apply div_nan_l, dotProduct_shorter_second. }
  rewrite E. split; reflexivity.
Qed.

Lemma cosineSimilarity_shorter_second_vector_witness :
  cosineSimilarity [1; 2; 3]%float [1; 2]%float = nan
  /\ in_unit_range (cosineSimilarity [1; 2; 3]%float [1; 2]%float) = false.
Proof.
  apply (cosineSimilarity_shorter_second_vector [1; 2; 3]%float [1; 2]%float).
  cbn. lia.
Defined.

Lemma SFcompare_refl (x : spec_float) :
  x <> S754_nan -> SFcompare x x = Some Eq.
Proof.
  destruct x as [ | [ | ] | | [ | ] m e ]; cbn; try reflexivity;
    try (intros H; now contradiction H);
    intros _; now rewrite Z.compare_refl, Pos.compare_cont_refl.
Qed.

Lemma not_finite_class (x : float) :
  PrimFloat.is_finite x = false -> sf_inf_or_nan (Prim2SF x).
Proof.
  unfold PrimFloat.is_finite, PrimFloat.is_nan, PrimFloat.is_infinity.
  rewrite !eqb_spec, abs_spec. unfold SFeqb.
  destruct (Prim2SF x) as [ s | s | | s m e ] eqn:E; cbn [sf_inf_or_nan];
    trivial.
  - rewrite SFcompare_refl by discriminate. cbn. discriminate.
  - rewrite SFcompare_refl by discriminate. cbn. discriminate.
Qed.

Lemma dotProduct_absorbs (a b : list float) :
  List.length a = List.length b ->
  (exists x, In x a /\ PrimFloat.is_finite x = false)
  \/ (exists y, In y b /\ PrimFloat.is_finite y = false) ->
  sf_inf_or_nan (Prim2SF (dotProduct a b)).
Proof.
  intros Hlen H. unfold dotProduct, reduce.
  destruct H as [(x & Hin & Hx) | (y & Hin & Hy)].
  - destruct (In_nth_error a x Hin) as [k Hk].
    apply (reduce_from_absorbing (fun s => sf_inf_or_nan (Prim2SF s))
             _ a _ 0 k x Hk).
    + intros s. apply add_absorbs_r, mul_absorbs_l, not_finite_class, Hx.
    + intros s z j Hs. now apply add_absorbs_l.
  - destruct (In_nth_error b y Hin) as [k Hk].
    destruct (nth_error a k) as [x | ] eqn:Hxa.
    2:{ apply nth_error_None in Hxa.
        assert (k < List.length b)%nat by (apply nth_error_Some; congruence).
        lia. }
    apply (reduce_from_absorbing (fun s => sf_inf_or_nan (Prim2SF s))
             _ a _ 0 k x Hxa).
    + intros s. apply add_absorbs_r, mul_absorbs_r. unfold number_at.
      cbn [Nat.add]. rewrite (nth_error_nth b k nan Hk).
      apply not_finite_class, Hy.
    + intros s z j Hs. now apply add_absorbs_l.
Qed.

Lemma magnitude_absorbs (v : list float) :
  (exists x, In x v /\ PrimFloat.is_finite x = false) ->
  sf_inf_or_nan (Prim2SF (magnitude v)).
Proof.
  intros (x & Hin & Hx). unfold magnitude, reduce. apply sqrt_absorbs.
  destruct (In_nth_error v x Hin) as [k Hk].
  apply (reduce_from_absorbing (fun s => sf_inf_or_nan (Prim2SF s))
           _ v _ 0 k x Hk).
  - intros s. apply add_absorbs_r, mul_absorbs_l, not_finite_class, Hx.
  - intros s z j Hs. now apply add_absorbs_l.
Qed.

(** X10: for vectors of equal length, a component of either one that is
    [NaN] or infinite makes the cosine similarity [NaN]: the dot product and
    the product of the magnitudes are then both infinite or [NaN]. *)
Theorem cosineSimilarity_not_finite_component (a b : list float) :
  List.length a = List.length b ->
  (exists x, In x a /\ PrimFloat.is_finite x = false)
  \/ (exists y, In y b /\ PrimFloat.is_finite y = false) ->
  cosineSimilarity a b = nan.
Proof.
  intros Hlen H. unfold cosineSimilarity. apply div_absorbed.
  - now apply dotProduct_absorbs.
  - destruct H as [Ha | Hb].
    + apply mul_absorbs_l. now apply magnitude_absorbs.
    + apply mul_absorbs_r. now apply magnitude_absorbs.
Qed.

Lemma cosineSimilarity_not_finite_component_witness :
  cosineSimilarity [1; 2]%float [3; infinity]%float = nan.
Proof.
  apply (cosineSimilarity_not_finite_component [1; 2]%float
           [3; infinity]%float).
  - reflexivity.
  - right. exists infinity. split; [ right; left; reflexivity | reflexivity ].
Defined.

Lemma reduce_from_ext {A B} (f g : B -> A -> nat -> B) (l : list A)
  (acc : B) (i : nat) :
  (forall s x j, (i <= j < i + List.length l)%nat -> f s x j = g s x j) ->
  reduce_from f acc i l = reduce_from g acc i l.
Proof.
  revert acc i. induction l as [ | a l IH ]; intros acc i H; cbn [reduce_from];
    [ reflexivity | ].
  rewrite (H acc a i) by (cbn; lia).
  apply IH. intros s x j Hj. apply H. cbn. lia.
Qed.

Lemma number_at_firstn (b : list float) (n j : nat) :
  (j < n)%nat -> number_at (firstn n b) j = number_at b j.
Proof.
  unfold number_at. revert n j. induction b as [ | y b IH ]; intros n j Hj.
  - now rewrite firstn_nil.
  - destruct n as [ | n ]; [ lia | ]. destruct j as [ | j ]; cbn;
      [ reflexivity | apply IH; lia ].
Qed.

(** X11: the dot product reads the second vector only at the positions of
    the first: components of the second vector beyond the length of the first
    never enter it, while they do enter the magnitude of the second. *)
Theorem dotProduct_ignores_surplus (a b : list float) :
  dotProduct a b = dotProduct a (firstn (List.length a) b)
  /\ cosineSimilarity a b
     = (dotProduct a (firstn (List.length a) b)
        / (magnitude a * magnitude b))%float.
Proof.
  assert (E : dotProduct a b = dotProduct a (firstn (List.length a) b)).
  { unfold dotProduct, reduce. apply reduce_from_ext.
    intros s x j Hj. now rewrite number_at_firstn by lia. }
  split; [ exact E | ]. unfold cosineSimilarity. now rewrite <- E.
Qed.

(** X12: degenerate vectors are not an error on /api/embeddings/similarity:
    when the provider's first two vectors include an all-zero one, or the
    second is shorter than the first, or they have equal length and a
    component that is infinite or [NaN], the reply still has status 200, its
    [cosine_similarity] is [NaN], its [similarity_percentage] is "NaN%", and
    the dimensions reported are the two lengths. *)
Theorem similarity_degenerate_vectors (Number_toString : float -> string)
  (openai : Provider) (req_body : ReqBody) (r : CreateEmbeddingResponse)
  (item1 item2 : Embedding) (rest : list Embedding) :
  truthy (get "text1" req_body) = true ->
  truthy (get "text2" req_body) = true ->
  embeddings_create openai (similarity_params req_body) = inr r ->
  data r = item1 :: item2 :: rest ->
  all_zero (embedding item1) = true
  \/ all_zero (embedding item2) = true
  \/ (List.length (embedding item2) < List.length (embedding item1))%nat
  \/ (List.length (embedding item1) = List.length (embedding item2)
      /\ ((exists x, In x (embedding item1) /\ PrimFloat.is_finite x = false)
          \/ (exists y,
                In y (embedding item2) /\ PrimFloat.is_finite y = false))) ->
  exists p,
    reply (post_api_embeddings_similarity Number_toString openai req_body)
    = json p
    /\ cosine_similarity p = nan
    /\ similarity_percentage p = "NaN%"
    /\ info_dimensions (of_text1 (similarity_embeddings p))
       = List.length (embedding item1)
    /\ info_dimensions (of_text2 (similarity_embeddings p))
       = List.length (embedding item2).
Proof.
  intros H1 H2 Hr Hdata Hdeg.
  rewrite (similarity_calls_provider Number_toString openai req_body H1 H2).
  rewrite Hr, Hdata. unfold reply; cbn [fst]. eexists.
  split; [ reflexivity | ].
  cbn [cosine_similarity similarity_percentage similarity_embeddings
       of_text1 of_text2 info_dimensions similarity_payload].
  assert (E : cosineSimilarity (embedding item1) (embedding item2) = nan).
  { destruct Hdeg as [Hz | [Hz | [Hshort | [Hlen Hnf]]]].
    - apply cosineSimilarity_zero_vector. now left.
    - apply cosineSimilarity_zero_vector. now right.
    - unfold cosineSimilarity.
      now apply div_nan_l, dotProduct_shorter_second.
    - unfold cosineSimilarity. apply div_absorbed.
      + now apply dotProduct_absorbs.
      + destruct Hnf as [Ha | Hb].
        * apply mul_absorbs_l. now apply magnitude_absorbs.
        * apply mul_absorbs_r. now apply magnitude_absorbs. }
  rewrite E. repeat split.
Qed.

Lemma similarity_degenerate_vectors_witness :
  exists p,
    reply (post_api_embeddings_similarity no_exponent
             (embedding_provider [[1; 2; 3]; [4; 5]]%float)
             [("text1", VStr "cat"); ("text2", VStr "dog")])
    = json p
    /\ cosine_similarity p = nan
    /\ similarity_percentage p = "NaN%"
    /\ info_dimensions (of_text1 (similarity_embeddings p)) = 3%nat
    /\ info_dimensions (of_text2 (similarity_embeddings p)) = 2%nat.
Proof.
  apply (similarity_degenerate_vectors no_exponent
           (embedding_provider [[1; 2; 3]; [4; 5]]%float)
           [("text1", VStr "cat"); ("text2", VStr "dog")]
           {| data := embedding_items [[1; 2; 3]; [4; 5]]%float;
              embeddings_model := "text-embedding-ada-002";
              embeddings_object := "list";
              embeddings_usage := VNull |}
           {| embedding := [1; 2; 3]%float; embedding_index := 0;
              embedding_object := "embedding" |}
           {| embedding := [4; 5]%float; embedding_index := 1;
              embedding_object := "embedding" |}
           []);
    [ reflexivity | reflexivity | reflexivity | reflexivity | ].
  right; right; left. cbn. lia.
Defined.

(** X13: what the four embedding routes send.  Every call is an embeddings
    call whose [input] is the body's value as given: a truthy [text] on
    /api/embedding (in the logging revision any [text], even an absent one),
    the whole accepted [texts] array on /api/embeddings/batch, and the pair
    [text1, text2] in that order, in one call, on /api/embeddings/similarity.
    The model is "text-embedding-ada-002" only when [model] is absent.  Only
    the logging revision of /api/embedding sends [encoding_format], "float"
    when the body has none. *)
Theorem embedding_routes_call_parameters (Number_toString : float -> string)
  (openai : Provider) (req_body : ReqBody) (c : ProviderCall) :
  (In c (provider_calls (post_api_embedding openai req_body)) ->
   truthy (get "text" req_body) = true
   /\ c = CallEmbeddings
            {| ep_model := match get "model" req_body with
                           | VUndefined => VStr "text-embedding-ada-002"
                           | given => given
                           end;
               ep_input := get "text" req_body;
               ep_encoding_format := None |})
  /\ (In c (provider_calls (post_api_embedding_logged openai req_body)) ->
      c = CallEmbeddings
            {| ep_model := match get "model" req_body with
                           | VUndefined => VStr "text-embedding-ada-002"
                           | given => given
                           end;
               ep_input := get "text" req_body;
               ep_encoding_format :=
                 Some match get "encoding_format" req_body with
                      | VUndefined => VStr "float"
                      | given => given
                      end |})
  /\ (In c (provider_calls (post_api_embeddings_batch openai req_body)) ->
      batch_accepts (get "texts" req_body) = true
      /\ c = CallEmbeddings
               {| ep_model := match get "model" req_body with
                              | VUndefined => VStr "text-embedding-ada-002"
                              | given => given
                              end;
                  ep_input := get "texts" req_body;
                  ep_encoding_format := None |})
  /\ (In c (provider_calls
              (post_api_embeddings_similarity Number_toString openai
                 req_body)) ->
      truthy (get "text1" req_body) = true
      /\ truthy (get "text2" req_body) = true
      /\ c = CallEmbeddings
               {| ep_model := match get "model" req_body with
                              | VUndefined => VStr "text-embedding-ada-002"
                              | given => given
                              end;
                  ep_input :=
                    VArr [get "text1" req_body; get "text2" req_body];
                  ep_encoding_format := None |}).
Proof.
  destruct (embedding_outcome openai req_body) as [_ E1].
  destruct (batch_outcome openai req_body) as (_ & E3 & _).
  destruct (similarity_outcome Number_toString openai req_body) as [_ E4].
  rewrite E1, E3, E4, embedding_logged_calls_provider.
  unfold provider_calls; cbn [snd].
  unfold embedding_params, embedding_logged_params, batch_params,
    similarity_params, embedding_model, or_default.
  split; [ | split; [ | split ] ].
  - destruct (truthy (get "text" req_body)); [ | intros [] ].
    intros [<- | []]. split; [ reflexivity | ].
    now destruct (get "model" req_body).
  - intros [<- | []].
    now destruct (get "model" req_body), (get "encoding_format" req_body).
  - destruct (batch_accepts (get "texts" req_body)); [ | intros [] ].
    intros [<- | []]. split; [ reflexivity | ].
    now destruct (get "model" req_body).
  - destruct (truthy (get "text1" req_body)); [ | intros [] ].
    destruct (truthy (get "text2" req_body)); [ | intros [] ].
    intros [<- | []]. split; [ reflexivity | ]. split; [ reflexivity | ].
    now destruct (get "model" req_body).
Qed.

Lemma embedding_routes_call_parameters_witness :
  (truthy (get "text1" [("text1", VStr "cat"); ("text2", VStr "dog");
                        ("model", VStr "")]) = true
   /\ truthy (get "text2" [("text1", VStr "cat"); ("text2", VStr "dog");
                           ("model", VStr "")]) = true
   /\ CallEmbeddings
        (similarity_params [("text1", VStr "cat"); ("text2", VStr "dog");
                            ("model", VStr "")])
      = CallEmbeddings
          {| ep_model := VStr "";
             ep_input := VArr [VStr "cat"; VStr "dog"];
             ep_encoding_format := None |})
  /\ CallEmbeddings (embedding_logged_params [])
     = CallEmbeddings
         {| ep_model := VStr "text-embedding-ada-002";
            ep_input := VUndefined;
            ep_encoding_format := Some (VStr "float") |}.
Proof.
  split.
  - apply (embedding_routes_call_parameters no_exponent
             (rejecting_provider (ThrownError "down"))
             [("text1", VStr "cat"); ("text2", VStr "dog");
              ("model", VStr "")]).
    left. reflexivity.
  - apply (embedding_routes_call_parameters no_exponent
             (rejecting_provider (ThrownError "down")) []).
    left. reflexivity.
Defined.
